(** * Grbl stepper driver ([stepper.c]): segment buffer, tick interrupt, profile preparation

    A shallow embedding of [stepper.c] and the verification of its
    step-count, ring-buffer and ramp properties.

    Conventions.
    - C integers are [Z] with the wrap-around of their type written out
      ([u8], [u32], [i32]).
    - Arrays are lists read with [!!]; a pointer into an array is the
      index of the element, [None] is [NULL].  Reading through [NULL] or
      outside an array is undefined behaviour in C: the embedding returns
      [None] there, so a result [Some m] means the code ran without it.
    - [float] fields are carried as their 32-bit patterns; floating-point
      arithmetic is not interpreted, the conversions of [st_prep_buffer]
      are functions supplied by the configuration.
    - The debugging [printString]/[printInteger] calls of [st_prep_buffer]
      are left out. *)

From Stdlib Require Import ZArith Lia Bool List.
From stdpp Require Import base option list.

Local Open Scope Z_scope.

(** ** Machine integers *)

Definition u8 (z : Z) : Z := z mod 256.
Definition u32 (z : Z) : Z := z mod 2 ^ 32.
Definition i32 (z : Z) : Z := (z + 2 ^ 31) mod 2 ^ 32 - 2 ^ 31.

Global Arguments u8 : simpl never.
Global Arguments u32 : simpl never.
Global Arguments i32 : simpl never.

Definition is_u8 (z : Z) : Prop := 0 <= z < 256.
Definition is_u32 (z : Z) : Prop := 0 <= z < 2 ^ 32.
Definition is_i32 (z : Z) : Prop := - 2 ^ 31 <= z < 2 ^ 31.

(** [bit(n)] and the bit macros of [nuts_bolts.h]. *)
Definition bit (n : Z) : Z := Z.shiftl 1 n.
Definition bit_istrue (x mask : Z) : bool := negb (Z.land x mask =? 0).
Definition bit_true (x mask : Z) : Z := Z.lor x mask.
Definition bit_false (x mask : Z) : Z := Z.ldiff x mask.

(** ** Constants of [stepper.c] *)

Definition RAMP_NOOP_CRUISE : Z := 0.
Definition RAMP_ACCEL : Z := 1.
Definition RAMP_DECEL : Z := 2.

Definition LOAD_NOOP : Z := 0.
Definition LOAD_LINE : Z := 1.
Definition LOAD_BLOCK : Z := 2.

Definition ST_NOOP : Z := 0.
Definition ST_END_OF_BLOCK : Z := 1.
Definition ST_DECEL : Z := 2.
Definition ST_DECEL_EOB : Z := 3.

Definition SEGMENT_BUFFER_SIZE : Z := 10.

(** The size of the planner ring, as [next_block_pl_index] has it. *)
Definition BLOCK_BUFFER_SIZE : Z := 18.

(** Bit numbers of [<avr/io.h>]. *)
Definition OCIE2A : Z := 1.
Definition CS21 : Z := 1.

(** ** Data model *)

Inductive axis := X_AXIS | Y_AXIS | Z_AXIS.

Definition axis_eqb (a b : axis) : bool :=
  match a, b with
  | X_AXIS, X_AXIS | Y_AXIS, Y_AXIS | Z_AXIS, Z_AXIS => true
  | _, _ => false
  end.

(** [stepper_t]: the state of the tick interrupt. *)
Record stepper_t := mk_stepper {
  counter_x : Z;                 (* int32_t *)
  counter_y : Z;
  counter_z : Z;
  segment_steps_remaining : Z;   (* uint8_t *)
  counter_d : Z;                 (* int32_t *)
  delta_d : Z;                   (* uint32_t *)
  d_per_tick : Z;                (* uint32_t *)
  execute_step : bool;           (* uint8_t holding true/false *)
  step_pulse_time : Z;           (* uint8_t *)
  out_bits : Z;                  (* uint8_t *)
  load_flag : Z;                 (* uint8_t *)
  ramp_count : Z;                (* uint8_t *)
  ramp_type : Z                  (* uint8_t *)
}.

(** [st_data_t]: per-block data shared by the segments of a block.
    [mm_per_step] is the bit pattern of a float. *)
Record st_data_t := mk_st_data {
  step_events_remaining : Z;     (* int32_t *)
  d_next : Z;                    (* uint32_t *)
  initial_rate : Z;              (* uint32_t *)
  nominal_rate : Z;              (* uint32_t *)
  rate_delta : Z;                (* uint32_t *)
  decelerate_after : Z;          (* int32_t *)
  mm_per_step : Z
}.

(** [st_segment_t]: one entry of the segment ring. *)
Record st_segment_t := mk_st_segment {
  n_step : Z;                    (* uint8_t *)
  st_data_index : Z;             (* uint8_t *)
  flag : Z                       (* uint8_t *)
}.

(** [plan_block_t] of [planner.h], the fields [stepper.c] reads.  The four
    [float] fields are bit patterns. *)
Record plan_block_t := mk_plan_block {
  direction_bits : Z;            (* uint8_t *)
  steps : axis -> Z;             (* int32_t steps[N_AXIS] *)
  step_event_count : Z;          (* int32_t *)
  entry_speed_sqr : Z;
  nominal_speed_sqr : Z;
  acceleration : Z;
  millimeters : Z
}.

(** The planner ring of [planner.c]. *)
Record planner_t := mk_planner {
  block_buffer : list plan_block_t;
  block_buffer_tail : Z;
  block_buffer_head : Z
}.

(** [settings] and [sys], the fields [stepper.c] uses. *)
Record settings_t := mk_settings {
  invert_mask : Z;               (* uint8_t *)
  flags : Z;                     (* uint8_t *)
  stepper_idle_lock_time : Z;    (* uint8_t *)
  pulse_microseconds : Z         (* uint8_t *)
}.

Record system_t := mk_system {
  state : Z;                     (* uint8_t *)
  position : axis -> Z;          (* int32_t position[N_AXIS] *)
  execute : Z;                   (* volatile uint8_t *)
  auto_start : bool
}.

(** The AVR registers the driver touches. *)
Record avr_t := mk_avr {
  STEPPING_PORT : Z;
  STEPPERS_DISABLE_PORT : Z;
  TCNT0 : Z;
  TCCR0B : Z;
  TIMSK2 : Z;
  TCCR2B : Z
}.

(** What the driver does to the world outside its variables, newest first:
    writes of the stepping port by the tick interrupt, calls of
    [plan_discard_current_block] and of [delay_ms].  [EvStepEvent] marks each
    time the inverse-time counter fires; it is bookkeeping for the theorems. *)
Inductive event :=
| EvStepPort (v : Z)
| EvStepEvent
| EvDiscard
| EvDelay (ms : Z).

(** All the file-scope variables of [stepper.c], with the collaborators. *)
Record machine := mk_machine {
  st : stepper_t;
  segment_data : list st_data_t;
  segment_buffer : list st_segment_t;
  segment_buffer_tail : Z;
  segment_buffer_head : Z;
  segment_next_head : Z;
  busy : bool;
  pl_current_block : option Z;
  st_current_segment : option Z;
  st_current_data : option Z;
  pl_prep_block : option Z;
  pl_prep_index : Z;
  st_prep_data : option Z;
  st_data_prep_index : Z;
  sys : system_t;
  settings : settings_t;
  planner : planner_t;
  avr : avr_t;
  log : list event
}.

(** What the headers that are not part of [stepper.c] define. *)
Record config := mk_config {
  ISR_TICKS_PER_ACCELERATION_TICK : Z;
  MINIMUM_STEP_RATE : Z;
  X_STEP_BIT : Z;
  Y_STEP_BIT : Z;
  Z_STEP_BIT : Z;
  X_DIRECTION_BIT : Z;
  Y_DIRECTION_BIT : Z;
  Z_DIRECTION_BIT : Z;
  STEP_MASK : Z;
  DIRECTION_MASK : Z;
  STEPPERS_DISABLE_BIT : Z;
  BITFLAG_INVERT_ST_ENABLE : Z;
  EXEC_CYCLE_STOP : Z;
  EXEC_ALARM : Z;
  (* ceil(sqrt(entry_speed_sqr)*(INV_TIME_MULTIPLIER/(60*ISR_TICKS_PER_SECOND))) *)
  fp_initial_rate : Z -> Z;
  (* ceil(sqrt(nominal_speed_sqr)*(INV_TIME_MULTIPLIER/(60.0*ISR_TICKS_PER_SECOND))) *)
  fp_nominal_rate : Z -> Z;
  (* ceil(acceleration*((INV_TIME_MULTIPLIER/(60.0*60.0))/(ISR_TICKS_PER_SECOND*ACCELERATION_TICKS_PER_SECOND))) *)
  fp_rate_delta : Z -> Z;
  (* ceil((millimeters*INV_TIME_MULTIPLIER)/step_event_count) *)
  fp_d_next : Z -> Z -> Z;
  (* millimeters/step_event_count *)
  fp_mm_per_step : Z -> Z -> Z;
  (* the planner's trapezoid calculation for the block at an index *)
  calculate_trapezoid_for_block : planner_t -> Z -> Z
}.

(** ** Field updates *)

Definition set_counter_x (x : Z) (s : stepper_t) : stepper_t :=
  mk_stepper x (counter_y s) (counter_z s) (segment_steps_remaining s) (counter_d s)
    (delta_d s) (d_per_tick s) (execute_step s) (step_pulse_time s) (out_bits s)
    (load_flag s) (ramp_count s) (ramp_type s).
Definition set_counter_y (x : Z) (s : stepper_t) : stepper_t :=
  mk_stepper (counter_x s) x (counter_z s) (segment_steps_remaining s) (counter_d s)
    (delta_d s) (d_per_tick s) (execute_step s) (step_pulse_time s) (out_bits s)
    (load_flag s) (ramp_count s) (ramp_type s).
Definition set_counter_z (x : Z) (s : stepper_t) : stepper_t :=
  mk_stepper (counter_x s) (counter_y s) x (segment_steps_remaining s) (counter_d s)
    (delta_d s) (d_per_tick s) (execute_step s) (step_pulse_time s) (out_bits s)
    (load_flag s) (ramp_count s) (ramp_type s).
Definition set_segment_steps_remaining (x : Z) (s : stepper_t) : stepper_t :=
  mk_stepper (counter_x s) (counter_y s) (counter_z s) x (counter_d s) (delta_d s)
    (d_per_tick s) (execute_step s) (step_pulse_time s) (out_bits s) (load_flag s)
    (ramp_count s) (ramp_type s).
Definition set_counter_d (x : Z) (s : stepper_t) : stepper_t :=
  mk_stepper (counter_x s) (counter_y s) (counter_z s) (segment_steps_remaining s) x
    (delta_d s) (d_per_tick s) (execute_step s) (step_pulse_time s) (out_bits s)
    (load_flag s) (ramp_count s) (ramp_type s).
Definition set_delta_d (x : Z) (s : stepper_t) : stepper_t :=
  mk_stepper (counter_x s) (counter_y s) (counter_z s) (segment_steps_remaining s)
    (counter_d s) x (d_per_tick s) (execute_step s) (step_pulse_time s) (out_bits s)
    (load_flag s) (ramp_count s) (ramp_type s).
Definition set_d_per_tick (x : Z) (s : stepper_t) : stepper_t :=
  mk_stepper (counter_x s) (counter_y s) (counter_z s) (segment_steps_remaining s)
    (counter_d s) (delta_d s) x (execute_step s) (step_pulse_time s) (out_bits s)
    (load_flag s) (ramp_count s) (ramp_type s).
Definition set_execute_step (x : bool) (s : stepper_t) : stepper_t :=
  mk_stepper (counter_x s) (counter_y s) (counter_z s) (segment_steps_remaining s)
    (counter_d s) (delta_d s) (d_per_tick s) x (step_pulse_time s) (out_bits s)
    (load_flag s) (ramp_count s) (ramp_type s).
Definition set_out_bits (x : Z) (s : stepper_t) : stepper_t :=
  mk_stepper (counter_x s) (counter_y s) (counter_z s) (segment_steps_remaining s)
    (counter_d s) (delta_d s) (d_per_tick s) (execute_step s) (step_pulse_time s) x
    (load_flag s) (ramp_count s) (ramp_type s).
Definition set_load_flag (x : Z) (s : stepper_t) : stepper_t :=
  mk_stepper (counter_x s) (counter_y s) (counter_z s) (segment_steps_remaining s)
    (counter_d s) (delta_d s) (d_per_tick s) (execute_step s) (step_pulse_time s)
    (out_bits s) x (ramp_count s) (ramp_type s).
Definition set_ramp_count (x : Z) (s : stepper_t) : stepper_t :=
  mk_stepper (counter_x s) (counter_y s) (counter_z s) (segment_steps_remaining s)
    (counter_d s) (delta_d s) (d_per_tick s) (execute_step s) (step_pulse_time s)
    (out_bits s) (load_flag s) x (ramp_type s).
Definition set_ramp_type (x : Z) (s : stepper_t) : stepper_t :=
  mk_stepper (counter_x s) (counter_y s) (counter_z s) (segment_steps_remaining s)
    (counter_d s) (delta_d s) (d_per_tick s) (execute_step s) (step_pulse_time s)
    (out_bits s) (load_flag s) (ramp_count s) x.
Definition set_st (x : stepper_t) (m : machine) : machine :=
  mk_machine x (segment_data m) (segment_buffer m) (segment_buffer_tail m)
    (segment_buffer_head m) (segment_next_head m) (busy m) (pl_current_block m)
    (st_current_segment m) (st_current_data m) (pl_prep_block m) (pl_prep_index m)
    (st_prep_data m) (st_data_prep_index m) (sys m) (settings m) (planner m) (avr m)
    (log m).
Definition set_segment_data (x : list st_data_t) (m : machine) : machine :=
  mk_machine (st m) x (segment_buffer m) (segment_buffer_tail m) (segment_buffer_head m)
    (segment_next_head m) (busy m) (pl_current_block m) (st_current_segment m)
    (st_current_data m) (pl_prep_block m) (pl_prep_index m) (st_prep_data m)
    (st_data_prep_index m) (sys m) (settings m) (planner m) (avr m) (log m).
Definition set_segment_buffer (x : list st_segment_t) (m : machine) : machine :=
  mk_machine (st m) (segment_data m) x (segment_buffer_tail m) (segment_buffer_head m)
    (segment_next_head m) (busy m) (pl_current_block m) (st_current_segment m)
    (st_current_data m) (pl_prep_block m) (pl_prep_index m) (st_prep_data m)
    (st_data_prep_index m) (sys m) (settings m) (planner m) (avr m) (log m).
Definition set_segment_buffer_tail (x : Z) (m : machine) : machine :=
  mk_machine (st m) (segment_data m) (segment_buffer m) x (segment_buffer_head m)
    (segment_next_head m) (busy m) (pl_current_block m) (st_current_segment m)
    (st_current_data m) (pl_prep_block m) (pl_prep_index m) (st_prep_data m)
    (st_data_prep_index m) (sys m) (settings m) (planner m) (avr m) (log m).
Definition set_segment_buffer_head (x : Z) (m : machine) : machine :=
  mk_machine (st m) (segment_data m) (segment_buffer m) (segment_buffer_tail m) x
    (segment_next_head m) (busy m) (pl_current_block m) (st_current_segment m)
    (st_current_data m) (pl_prep_block m) (pl_prep_index m) (st_prep_data m)
    (st_data_prep_index m) (sys m) (settings m) (planner m) (avr m) (log m).
Definition set_segment_next_head (x : Z) (m : machine) : machine :=
  mk_machine (st m) (segment_data m) (segment_buffer m) (segment_buffer_tail m)
    (segment_buffer_head m) x (busy m) (pl_current_block m) (st_current_segment m)
    (st_current_data m) (pl_prep_block m) (pl_prep_index m) (st_prep_data m)
    (st_data_prep_index m) (sys m) (settings m) (planner m) (avr m) (log m).
Definition set_busy (x : bool) (m : machine) : machine :=
  mk_machine (st m) (segment_data m) (segment_buffer m) (segment_buffer_tail m)
    (segment_buffer_head m) (segment_next_head m) x (pl_current_block m)
    (st_current_segment m) (st_current_data m) (pl_prep_block m) (pl_prep_index m)
    (st_prep_data m) (st_data_prep_index m) (sys m) (settings m) (planner m) (avr m)
    (log m).
Definition set_pl_current_block (x : option Z) (m : machine) : machine :=
  mk_machine (st m) (segment_data m) (segment_buffer m) (segment_buffer_tail m)
    (segment_buffer_head m) (segment_next_head m) (busy m) x (st_current_segment m)
    (st_current_data m) (pl_prep_block m) (pl_prep_index m) (st_prep_data m)
    (st_data_prep_index m) (sys m) (settings m) (planner m) (avr m) (log m).
Definition set_st_current_segment (x : option Z) (m : machine) : machine :=
  mk_machine (st m) (segment_data m) (segment_buffer m) (segment_buffer_tail m)
    (segment_buffer_head m) (segment_next_head m) (busy m) (pl_current_block m) x
    (st_current_data m) (pl_prep_block m) (pl_prep_index m) (st_prep_data m)
    (st_data_prep_index m) (sys m) (settings m) (planner m) (avr m) (log m).
Definition set_st_current_data (x : option Z) (m : machine) : machine :=
  mk_machine (st m) (segment_data m) (segment_buffer m) (segment_buffer_tail m)
    (segment_buffer_head m) (segment_next_head m) (busy m) (pl_current_block m)
    (st_current_segment m) x (pl_prep_block m) (pl_prep_index m) (st_prep_data m)
    (st_data_prep_index m) (sys m) (settings m) (planner m) (avr m) (log m).
Definition set_pl_prep_block (x : option Z) (m : machine) : machine :=
  mk_machine (st m) (segment_data m) (segment_buffer m) (segment_buffer_tail m)
    (segment_buffer_head m) (segment_next_head m) (busy m) (pl_current_block m)
    (st_current_segment m) (st_current_data m) x (pl_prep_index m) (st_prep_data m)
    (st_data_prep_index m) (sys m) (settings m) (planner m) (avr m) (log m).
Definition set_pl_prep_index (x : Z) (m : machine) : machine :=
  mk_machine (st m) (segment_data m) (segment_buffer m) (segment_buffer_tail m)
    (segment_buffer_head m) (segment_next_head m) (busy m) (pl_current_block m)
    (st_current_segment m) (st_current_data m) (pl_prep_block m) x (st_prep_data m)
    (st_data_prep_index m) (sys m) (settings m) (planner m) (avr m) (log m).
Definition set_st_prep_data (x : option Z) (m : machine) : machine :=
  mk_machine (st m) (segment_data m) (segment_buffer m) (segment_buffer_tail m)
    (segment_buffer_head m) (segment_next_head m) (busy m) (pl_current_block m)
    (st_current_segment m) (st_current_data m) (pl_prep_block m) (pl_prep_index m) x
    (st_data_prep_index m) (sys m) (settings m) (planner m) (avr m) (log m).
Definition set_st_data_prep_index (x : Z) (m : machine) : machine :=
  mk_machine (st m) (segment_data m) (segment_buffer m) (segment_buffer_tail m)
    (segment_buffer_head m) (segment_next_head m) (busy m) (pl_current_block m)
    (st_current_segment m) (st_current_data m) (pl_prep_block m) (pl_prep_index m)
    (st_prep_data m) x (sys m) (settings m) (planner m) (avr m) (log m).
Definition set_sys (x : system_t) (m : machine) : machine :=
  mk_machine (st m) (segment_data m) (segment_buffer m) (segment_buffer_tail m)
    (segment_buffer_head m) (segment_next_head m) (busy m) (pl_current_block m)
    (st_current_segment m) (st_current_data m) (pl_prep_block m) (pl_prep_index m)
    (st_prep_data m) (st_data_prep_index m) x (settings m) (planner m) (avr m) (log m).
Definition set_planner (x : planner_t) (m : machine) : machine :=
  mk_machine (st m) (segment_data m) (segment_buffer m) (segment_buffer_tail m)
    (segment_buffer_head m) (segment_next_head m) (busy m) (pl_current_block m)
    (st_current_segment m) (st_current_data m) (pl_prep_block m) (pl_prep_index m)
    (st_prep_data m) (st_data_prep_index m) (sys m) (settings m) x (avr m) (log m).
Definition set_avr (x : avr_t) (m : machine) : machine :=
  mk_machine (st m) (segment_data m) (segment_buffer m) (segment_buffer_tail m)
    (segment_buffer_head m) (segment_next_head m) (busy m) (pl_current_block m)
    (st_current_segment m) (st_current_data m) (pl_prep_block m) (pl_prep_index m)
    (st_prep_data m) (st_data_prep_index m) (sys m) (settings m) (planner m) x (log m).
Definition set_log (x : list event) (m : machine) : machine :=
  mk_machine (st m) (segment_data m) (segment_buffer m) (segment_buffer_tail m)
    (segment_buffer_head m) (segment_next_head m) (busy m) (pl_current_block m)
    (st_current_segment m) (st_current_data m) (pl_prep_block m) (pl_prep_index m)
    (st_prep_data m) (st_data_prep_index m) (sys m) (settings m) (planner m) (avr m) x.

Definition with_st (f : stepper_t -> stepper_t) (m : machine) : machine :=
  set_st (f (st m)) m.

Definition emit (e : event) (m : machine) : machine := set_log (e :: log m) m.

Definition counter (a : axis) (s : stepper_t) : Z :=
  match a with X_AXIS => counter_x s | Y_AXIS => counter_y s | Z_AXIS => counter_z s end.

Definition set_counter (a : axis) (x : Z) (s : stepper_t) : stepper_t :=
  match a with
  | X_AXIS => set_counter_x x s
  | Y_AXIS => set_counter_y x s
  | Z_AXIS => set_counter_z x s
  end.

(** [sys.position[a] = x] *)
Definition set_position (a : axis) (x : Z) (s : system_t) : system_t :=
  mk_system (state s) (fun b => if axis_eqb b a then x else position s b)
    (execute s) (auto_start s).

Definition set_execute (x : Z) (s : system_t) : system_t :=
  mk_system (state s) (position s) x (auto_start s).

Definition set_block_buffer_tail (x : Z) (p : planner_t) : planner_t :=
  mk_planner (block_buffer p) x (block_buffer_head p).

(** [a[i]] and [a[i] = x] for an index held in a C integer. *)
Definition at_index {A} (l : list A) (i : Z) : option A :=
  if i <? 0 then None else l !! Z.to_nat i.

Definition store_index {A} (l : list A) (i : Z) (x : A) : list A :=
  <[Z.to_nat i := x]> l.

(** ** Ring indices *)

Definition next_block_index (block_index : Z) : Z :=
  let block_index := u8 (block_index + 1) in
  if block_index =? SEGMENT_BUFFER_SIZE then 0 else block_index.

Definition next_block_pl_index (block_index : Z) : Z :=
  let block_index := u8 (block_index + 1) in
  if block_index =? 18 then 0 else block_index.

(** ** The planner, as far as the driver calls it *)

(** Modelled from the spec: [planner.c] is not among the sources.  The spec
    names the calls ([get_current_block], [get_block_by_index],
    [discard_current_block]); the planner is the ring of [BLOCK_BUFFER_SIZE]
    blocks that [next_block_pl_index] walks, its tail the block being
    executed, its head the next free entry. *)
Definition plan_get_current_block (p : planner_t) : option Z :=
  if block_buffer_head p =? block_buffer_tail p then None
  else Some (block_buffer_tail p).

(** Modelled from the spec: [get_block_by_index(i)] of the absent [planner.c];
    no block at the head index, the entry at [i] otherwise. *)
Definition plan_get_block_by_index (p : planner_t) (block_index : Z) : option Z :=
  if block_buffer_head p =? block_index then None else Some block_index.

(** Modelled from the spec: [discard_current_block()] of the absent
    [planner.c]; the tail moves on unless the ring is empty. *)
Definition plan_discard_current_block (p : planner_t) : planner_t :=
  if block_buffer_head p =? block_buffer_tail p then p
  else set_block_buffer_tail (next_block_pl_index (block_buffer_tail p)) p.

Section Driver.

Variable cfg : config.

(** ** Lifecycle: [st_go_idle], [st_reset] *)

Definition set_TIMSK2 (x : Z) (a : avr_t) : avr_t :=
  mk_avr (STEPPING_PORT a) (STEPPERS_DISABLE_PORT a) (TCNT0 a) (TCCR0B a) x (TCCR2B a).

Definition set_TCCR2B (x : Z) (a : avr_t) : avr_t :=
  mk_avr (STEPPING_PORT a) (STEPPERS_DISABLE_PORT a) (TCNT0 a) (TCCR0B a) (TIMSK2 a) x.

Definition set_STEPPERS_DISABLE_PORT (x : Z) (a : avr_t) : avr_t :=
  mk_avr (STEPPING_PORT a) x (TCNT0 a) (TCCR0B a) (TIMSK2 a) (TCCR2B a).

(** The pulse of lines 214-216: the port gets its direction and step bits
    from [out_bits], Timer0 is loaded and started. *)
Definition pulse_port (bits time : Z) (a : avr_t) : avr_t :=
  mk_avr (Z.lor (Z.ldiff (STEPPING_PORT a) (Z.lor (DIRECTION_MASK cfg) (STEP_MASK cfg))) bits)
    (STEPPERS_DISABLE_PORT a) time (bit CS21) (TIMSK2 a) (TCCR2B a).

Definition st_go_idle (m : machine) : machine :=
  let m := set_avr (set_TIMSK2 (Z.ldiff (TIMSK2 (avr m)) (bit OCIE2A)) (avr m)) m in
  let m := set_avr (set_TCCR2B 0 (avr m)) m in
  let m := set_busy false m in
  if negb (stepper_idle_lock_time (settings m) =? 255)
     || bit_istrue (execute (sys m)) (EXEC_ALARM cfg)
  then
    let m := emit (EvDelay (stepper_idle_lock_time (settings m))) m in
    if bit_istrue (flags (settings m)) (BITFLAG_INVERT_ST_ENABLE cfg)
    then set_avr (set_STEPPERS_DISABLE_PORT
                    (Z.ldiff (STEPPERS_DISABLE_PORT (avr m)) (bit (STEPPERS_DISABLE_BIT cfg)))
                    (avr m)) m
    else set_avr (set_STEPPERS_DISABLE_PORT
                    (Z.lor (STEPPERS_DISABLE_PORT (avr m)) (bit (STEPPERS_DISABLE_BIT cfg)))
                    (avr m)) m
  else m.

(** [memset(&st, 0, sizeof(st))] *)
Definition stepper_zero : stepper_t :=
  mk_stepper 0 0 0 0 0 0 0 false 0 0 0 0 0.

Definition st_reset (m : machine) : machine :=
  let m := set_st stepper_zero m in
  let m := set_pl_current_block None m in
  let m := set_pl_prep_block None m in
  let m := set_pl_prep_index 0 m in
  let m := set_st_data_prep_index 0 m in
  let m := with_st (set_load_flag LOAD_BLOCK) m in
  let m := set_busy false m in
  let m := set_segment_buffer_tail 0 m in
  set_segment_next_head 1 m.

(** ** The stepper driver interrupt, [ISR(TIMER2_COMPA_vect)] *)

(** Lines 212-217: put the latched bits on the port and start the pulse timer. *)
Definition isr_pulse (m : machine) : machine :=
  if execute_step (st m) then
    let m := with_st (set_execute_step false) m in
    let m := set_avr (pulse_port (out_bits (st m)) (step_pulse_time (st m)) (avr m)) m in
    emit (EvStepPort (STEPPING_PORT (avr m))) m
  else m.

(** The floor of lines 268-269 and 318-319. *)
Definition floor_rate (s : stepper_t) : stepper_t :=
  if delta_d s <? MINIMUM_STEP_RATE cfg
  then set_d_per_tick (MINIMUM_STEP_RATE cfg) s
  else set_d_per_tick (delta_d s) s.

(** Lines 243-271: a new planner block starts. *)
Definition isr_load_block (seg : st_segment_t) (m : machine) : option machine :=
  let m := set_pl_current_block (plan_get_current_block (planner m)) m in
  let m := set_st_current_data (Some (st_data_index seg)) m in
  pb ← pl_current_block m;
  blk ← at_index (block_buffer (planner m)) pb;
  let m := with_st (set_out_bits (Z.lxor (direction_bits blk) (invert_mask (settings m)))) m in
  let m := with_st (set_execute_step true) m in
  let m := with_st (set_counter_x (Z.shiftr (step_event_count blk) 1)) m in
  let m := with_st (set_counter_y (counter_x (st m))) m in
  let m := with_st (set_counter_z (counter_x (st m))) m in
  dat ← at_index (segment_data m) (st_data_index seg);
  let m := with_st (set_counter_d (i32 (d_next dat))) m in
  let m := with_st (set_delta_d (initial_rate dat)) m in
  let m := with_st (set_ramp_type RAMP_ACCEL) m in
  let m := with_st (set_ramp_count (u8 (ISR_TICKS_PER_ACCELERATION_TICK cfg / 2))) m in
  Some (with_st floor_rate m).

(** Lines 274-281: a segment flagged for deceleration turns the ramp. *)
Definition isr_check_decel (seg : st_segment_t) (s : stepper_t) : stepper_t :=
  if (flag seg =? ST_DECEL) || (flag seg =? ST_DECEL_EOB) then
    let s :=
      if ramp_type s =? RAMP_NOOP_CRUISE
      then set_ramp_count (u8 (ISR_TICKS_PER_ACCELERATION_TICK cfg / 2)) s
      else set_ramp_count (u8 (ISR_TICKS_PER_ACCELERATION_TICK cfg - ramp_count s)) s in
    set_ramp_type RAMP_DECEL s
  else s.

(** Lines 237-283: pop the segment at the tail. *)
Definition isr_load_segment (m : machine) : option machine :=
  let m := set_st_current_segment (Some (segment_buffer_tail m)) m in
  seg ← at_index (segment_buffer m) (segment_buffer_tail m);
  let m := with_st (set_segment_steps_remaining (n_step seg)) m in
  m ← (if load_flag (st m) =? LOAD_BLOCK then isr_load_block seg m else Some m);
  let m := with_st (isr_check_decel seg) m in
  Some (with_st (set_load_flag LOAD_NOOP) m).

(** Lines 299-319: the rate adjustment of a ramp tick, for the block data
    [dat] that [st_current_data] points to. *)
Definition ramp_adjust (dat : st_data_t) (s : stepper_t) : stepper_t :=
  let s :=
    if ramp_type s =? RAMP_ACCEL then
      let s := set_delta_d (u32 (delta_d s + rate_delta dat)) s in
      if delta_d s >=? nominal_rate dat then
        let s := set_delta_d (nominal_rate dat) s in
        set_ramp_type RAMP_NOOP_CRUISE s
      else s
    else
      if delta_d s >? rate_delta dat
      then set_delta_d (u32 (delta_d s - rate_delta dat)) s
      else set_delta_d (Z.shiftr (delta_d s) 1) s in
  floor_rate s.

(** Lines 295-321: the ramp counter. *)
Definition isr_ramp (m : machine) : option machine :=
  if negb (ramp_type (st m) =? 0) then
    let m := with_st (set_ramp_count (u8 (ramp_count (st m) - 1))) m in
    if ramp_count (st m) =? 0 then
      let m := with_st (set_ramp_count (u8 (ISR_TICKS_PER_ACCELERATION_TICK cfg))) m in
      di ← st_current_data m;
      dat ← at_index (segment_data m) di;
      Some (with_st (ramp_adjust dat) m)
    else Some m
  else Some m.

Definition step_bit (a : axis) : Z :=
  match a with
  | X_AXIS => X_STEP_BIT cfg
  | Y_AXIS => Y_STEP_BIT cfg
  | Z_AXIS => Z_STEP_BIT cfg
  end.

Definition direction_bit (a : axis) : Z :=
  match a with
  | X_AXIS => X_DIRECTION_BIT cfg
  | Y_AXIS => Y_DIRECTION_BIT cfg
  | Z_AXIS => Z_DIRECTION_BIT cfg
  end.

(** Lines 334-340 for X, 341-347 for Y, 348-354 for Z: one axis of the
    Bresenham tracer. *)
Definition bresenham_axis (blk : plan_block_t) (a : axis) (m : machine) : machine :=
  let m := with_st (set_counter a (i32 (counter a (st m) - steps blk a))) m in
  if counter a (st m) <? 0 then
    let m := with_st (set_out_bits (u8 (Z.lor (out_bits (st m)) (bit (step_bit a))))) m in
    let m := with_st (set_counter a (i32 (counter a (st m) + step_event_count blk))) m in
    if negb (Z.land (out_bits (st m)) (bit (direction_bit a)) =? 0)
    then set_sys (set_position a (i32 (position (sys m) a - 1)) (sys m)) m
    else set_sys (set_position a (i32 (position (sys m) a + 1)) (sys m)) m
  else m.

(** Lines 358-376: the segment is complete. *)
Definition isr_segment_done (m : machine) : option machine :=
  si ← st_current_segment m;
  seg ← at_index (segment_buffer m) si;
  let m :=
    if (flag seg =? ST_END_OF_BLOCK) || (flag seg =? ST_DECEL_EOB) then
      let m := emit EvDiscard (set_planner (plan_discard_current_block (planner m)) m) in
      with_st (set_load_flag LOAD_BLOCK) m
    else with_st (set_load_flag LOAD_LINE) m in
  Some (set_segment_buffer_tail (next_block_index (segment_buffer_tail m)) m).

(** Lines 328-378: a step event. *)
Definition isr_step_event (m : machine) : option machine :=
  di ← st_current_data m;
  dat ← at_index (segment_data m) di;
  let m := emit EvStepEvent (with_st (set_counter_d (i32 (counter_d (st m) + d_next dat))) m) in
  pb ← pl_current_block m;
  blk ← at_index (block_buffer (planner m)) pb;
  let m := with_st (set_out_bits (direction_bits blk)) m in
  let m := with_st (set_execute_step true) m in
  let m := bresenham_axis blk X_AXIS m in
  let m := bresenham_axis blk Y_AXIS m in
  let m := bresenham_axis blk Z_AXIS m in
  let m := with_st (set_segment_steps_remaining (u8 (segment_steps_remaining (st m) - 1))) m in
  m ← (if segment_steps_remaining (st m) =? 0 then isr_segment_done m else Some m);
  Some (with_st (set_out_bits (Z.lxor (out_bits (st m)) (invert_mask (settings m)))) m).

(** Lines 324-379: the inverse-time counter. *)
Definition isr_step (m : machine) : option machine :=
  let m := with_st (set_counter_d (i32 (counter_d (st m) - d_per_tick (st m)))) m in
  if counter_d (st m) <? 0 then isr_step_event m else Some m.

(** Lines 294-380: what the handler does once a segment is loaded. *)
Definition isr_run (m : machine) : option machine :=
  m ← isr_ramp m;
  m ← isr_step m;
  Some (set_busy false m).

(** The interrupt.  [sei()] lets the port reset interrupt in, which touches
    nothing the rest of the handler uses. *)
Definition ISR_TIMER2_COMPA (m : machine) : option machine :=
  if busy m then Some m else
  let m := isr_pulse m in
  let m := set_busy true m in
  if negb (load_flag (st m) =? LOAD_NOOP) then
    if negb (segment_buffer_head m =? segment_buffer_tail m) then
      m ← isr_load_segment m;
      isr_run m
    else
      let m := st_go_idle m in
      Some (set_sys (set_execute (bit_true (execute (sys m)) (EXEC_CYCLE_STOP cfg)) (sys m)) m)
  else isr_run m.

(** [ISR(TIMER0_OVF_vect)], the stepper port reset interrupt. *)
Definition ISR_TIMER0_OVF (m : machine) : machine :=
  let a := avr m in
  set_avr (mk_avr (Z.lor (Z.ldiff (STEPPING_PORT a) (STEP_MASK cfg))
                         (Z.land (invert_mask (settings m)) (STEP_MASK cfg)))
                  (STEPPERS_DISABLE_PORT a) (TCNT0 a) 0 (TIMSK2 a) (TCCR2B a)) m.

(** ** Profile preparation, [st_prep_buffer] *)

Definition set_step_events_remaining (x : Z) (d : st_data_t) : st_data_t :=
  mk_st_data x (d_next d) (initial_rate d) (nominal_rate d) (rate_delta d)
    (decelerate_after d) (mm_per_step d).

Definition set_decelerate_after (x : Z) (d : st_data_t) : st_data_t :=
  mk_st_data (step_events_remaining d) (d_next d) (initial_rate d) (nominal_rate d)
    (rate_delta d) x (mm_per_step d).

(** Lines 518-549: stage the next planner block.  [None] inside: the planner
    has no block at [pl_prep_index] and [st_prep_buffer] returns. *)
Definition prep_fetch_block (m : machine) : option (option machine) :=
  let m := set_pl_prep_block (plan_get_block_by_index (planner m) (pl_prep_index m)) m in
  match pl_prep_block m with
  | None => Some None
  | Some pb =>
      let m := set_st_data_prep_index (next_block_index (st_data_prep_index m)) m in
      let m := set_st_prep_data (Some (st_data_prep_index m)) m in
      blk ← at_index (block_buffer (planner m)) pb;
      _ ← at_index (segment_data m) (st_data_prep_index m);
      let dat :=
        mk_st_data (step_event_count blk)
          (u32 (fp_d_next cfg (millimeters blk) (step_event_count blk)))
          (u32 (fp_initial_rate cfg (entry_speed_sqr blk)))
          (u32 (fp_nominal_rate cfg (nominal_speed_sqr blk)))
          (u32 (fp_rate_delta cfg (acceleration blk)))
          (i32 (calculate_trapezoid_for_block cfg (planner m) (pl_prep_index m)))
          (fp_mm_per_step cfg (millimeters blk) (step_event_count blk)) in
      Some (Some (set_segment_data
                    (store_index (segment_data m) (st_data_prep_index m) dat) m))
  end.

(** Lines 571-587: the number of steps of the slice, from the requested
    chunk [n0] (the source asks for 250 every time). *)
Definition slice_n_step (n0 : Z) (d : st_data_t) : Z :=
  let n := u8 n0 in
  let n := if n >? step_events_remaining d then u8 (step_events_remaining d) else n in
  if decelerate_after d >? 0 then
    if n >? decelerate_after d then u8 (decelerate_after d) else n
  else n.

(** Lines 610-627: the flag, read after [step_events_remaining] has been
    decremented and before [decelerate_after] is. *)
Definition slice_flag (d : st_data_t) : Z :=
  if step_events_remaining d =? 0 then
    if decelerate_after d =? 0 then ST_DECEL_EOB else ST_END_OF_BLOCK
  else
    if decelerate_after d =? 0 then ST_DECEL else ST_NOOP.

(** Lines 567-628 on the block data: the segment cut off and the data left. *)
Definition slice (n0 : Z) (idx : Z) (d : st_data_t) : st_segment_t * st_data_t :=
  let n := slice_n_step n0 d in
  let d := set_step_events_remaining (i32 (step_events_remaining d - n)) d in
  let f := slice_flag d in
  let d := set_decelerate_after (i32 (decelerate_after d - n)) d in
  (mk_st_segment n idx f, d).

(** Lines 567-628: cut one segment into the slot at the head. *)
Definition prep_segment (m : machine) : option machine :=
  _ ← at_index (segment_buffer m) (segment_buffer_head m);
  pi ← st_prep_data m;
  dat ← at_index (segment_data m) pi;
  let '(seg, dat) := slice 250 (st_data_prep_index m) dat in
  let m := set_segment_buffer (store_index (segment_buffer m) (segment_buffer_head m) seg) m in
  let m := set_segment_data (store_index (segment_data m) pi dat) m in
  if step_events_remaining dat =? 0 then
    let m := set_pl_prep_index (next_block_pl_index (pl_prep_index m)) m in
    Some (set_pl_prep_block None m)
  else Some m.

(** Lines 631-632. *)
Definition prep_publish_head (m : machine) : machine :=
  set_segment_buffer_head (segment_next_head m) m.

Definition prep_publish_next (m : machine) : machine :=
  set_segment_next_head (next_block_index (segment_buffer_head m)) m.

(** [st_prep_buffer()] run without interruption; [fuel] bounds the turns of
    the loop. *)
Fixpoint st_prep_buffer (fuel : nat) (m : machine) : option machine :=
  match fuel with
  | O => None
  | S fuel =>
      if segment_buffer_tail m =? segment_next_head m then Some m else
      r ← (match pl_prep_block m with
           | None => prep_fetch_block m
           | Some _ => Some (Some m)
           end);
      match r with
      | None => Some m
      | Some m =>
          m ← prep_segment m;
          st_prep_buffer fuel (prep_publish_next (prep_publish_head m))
      end
  end.

(** ** The driver between its two contexts

    The main program calls [st_prep_buffer] again and again; the tick
    interrupt may come between any two of the places below.  A place is where
    the main program stands in [st_prep_buffer]. *)
Inductive prep_pc :=
| PrepIdle        (* outside st_prep_buffer *)
| PrepCheck       (* at the loop test, line 515 *)
| PrepFetch       (* line 518 *)
| PrepSlice       (* line 567 *)
| PrepPubHead     (* line 631 *)
| PrepPubNext.    (* line 632 *)

Definition main_step (s : machine * prep_pc) : option (machine * prep_pc) :=
  let '(m, pc) := s in
  match pc with
  | PrepIdle => Some (m, PrepCheck)
  | PrepCheck =>
      if segment_buffer_tail m =? segment_next_head m
      then Some (m, PrepIdle) else Some (m, PrepFetch)
  | PrepFetch =>
      match pl_prep_block m with
      | None =>
          r ← prep_fetch_block m;
          match r with
          | None => Some (m, PrepIdle)
          | Some m => Some (m, PrepSlice)
          end
      | Some _ => Some (m, PrepSlice)
      end
  | PrepSlice => m ← prep_segment m; Some (m, PrepPubHead)
  | PrepPubHead => Some (prep_publish_head m, PrepPubNext)
  | PrepPubNext => Some (prep_publish_next m, PrepCheck)
  end.

(** The two interrupts and the main program in any order.  [Tick] runs the
    handler whether or not Timer2 is enabled at the time, so a run has every
    order of the three the hardware can produce between one [st_wake_up] and
    the next, and more; [st_wake_up] itself is not among the actions, it
    stands in [cycle_exec1] below. *)
Inductive action :=
| Tick            (* ISR(TIMER2_COMPA_vect) *)
| Main            (* the main program moves to its next place *)
| PulseReset.     (* ISR(TIMER0_OVF_vect) *)

Definition exec1 (a : action) (s : machine * prep_pc) : option (machine * prep_pc) :=
  match a with
  | Tick => m ← ISR_TIMER2_COMPA (fst s); Some (m, snd s)
  | Main => main_step s
  | PulseReset => Some (ISR_TIMER0_OVF (fst s), snd s)
  end.

Fixpoint run (acts : list action) (s : machine * prep_pc) : option (machine * prep_pc) :=
  match acts with
  | [] => Some s
  | a :: acts => s ← exec1 a s; run acts s
  end.

End Driver.

(** ** The cycle: [st_wake_up], [st_init], [st_cycle_start], [st_feed_hold],
    [st_cycle_reinitialize]

    These read constants of [nuts_bolts.h] and of the AVR headers, and
    [st_wake_up] and [st_init] write registers that no other function of the
    file touches; a [board] is the machine with these registers. *)

Record cycle_config := mk_cycle_config {
  STATE_IDLE : Z;
  STATE_QUEUED : Z;
  STATE_CYCLE : Z;
  STATE_HOLD : Z;
  STEPPING_MASK : Z;
  WGM21 : Z;
  TOIE0 : Z;
  (* -(((pulse_microseconds-2)*TICKS_PER_MICROSECOND) >> 3), in the arithmetic
     that the type of F_CPU gives it *)
  pulse_time : Z -> Z;
  (* (F_CPU/ISR_TICKS_PER_SECOND)/8 - 1 *)
  timer2_rate : Z
}.

Record board := mk_board {
  core : machine;
  STEPPING_DDR : Z;
  STEPPERS_DISABLE_DDR : Z;
  TCNT2 : Z;
  TCCR2A : Z;
  OCR2A : Z;
  TIMSK0 : Z;
  TCCR0A : Z
}.

Definition set_core (x : machine) (b : board) : board :=
  mk_board x (STEPPING_DDR b) (STEPPERS_DISABLE_DDR b) (TCNT2 b) (TCCR2A b) (OCR2A b)
    (TIMSK0 b) (TCCR0A b).

Definition set_STEPPING_DDR (x : Z) (b : board) : board :=
  mk_board (core b) x (STEPPERS_DISABLE_DDR b) (TCNT2 b) (TCCR2A b) (OCR2A b)
    (TIMSK0 b) (TCCR0A b).

Definition set_STEPPERS_DISABLE_DDR (x : Z) (b : board) : board :=
  mk_board (core b) (STEPPING_DDR b) x (TCNT2 b) (TCCR2A b) (OCR2A b)
    (TIMSK0 b) (TCCR0A b).

Definition set_TCNT2 (x : Z) (b : board) : board :=
  mk_board (core b) (STEPPING_DDR b) (STEPPERS_DISABLE_DDR b) x (TCCR2A b) (OCR2A b)
    (TIMSK0 b) (TCCR0A b).

Definition set_TCCR2A (x : Z) (b : board) : board :=
  mk_board (core b) (STEPPING_DDR b) (STEPPERS_DISABLE_DDR b) (TCNT2 b) x (OCR2A b)
    (TIMSK0 b) (TCCR0A b).

Definition set_OCR2A (x : Z) (b : board) : board :=
  mk_board (core b) (STEPPING_DDR b) (STEPPERS_DISABLE_DDR b) (TCNT2 b) (TCCR2A b) x
    (TIMSK0 b) (TCCR0A b).

Definition set_TIMSK0 (x : Z) (b : board) : board :=
  mk_board (core b) (STEPPING_DDR b) (STEPPERS_DISABLE_DDR b) (TCNT2 b) (TCCR2A b)
    (OCR2A b) x (TCCR0A b).

Definition set_TCCR0A (x : Z) (b : board) : board :=
  mk_board (core b) (STEPPING_DDR b) (STEPPERS_DISABLE_DDR b) (TCNT2 b) (TCCR2A b)
    (OCR2A b) (TIMSK0 b) x.

Definition with_core (f : machine -> machine) (b : board) : board :=
  set_core (f (core b)) b.

Definition set_STEPPING_PORT (x : Z) (a : avr_t) : avr_t :=
  mk_avr x (STEPPERS_DISABLE_PORT a) (TCNT0 a) (TCCR0B a) (TIMSK2 a) (TCCR2B a).

Definition set_TCCR0B (x : Z) (a : avr_t) : avr_t :=
  mk_avr (STEPPING_PORT a) (STEPPERS_DISABLE_PORT a) (TCNT0 a) x (TIMSK2 a) (TCCR2B a).

Definition set_step_pulse_time (x : Z) (s : stepper_t) : stepper_t :=
  mk_stepper (counter_x s) (counter_y s) (counter_z s) (segment_steps_remaining s)
    (counter_d s) (delta_d s) (d_per_tick s) (execute_step s) x (out_bits s)
    (load_flag s) (ramp_count s) (ramp_type s).

Definition set_state (x : Z) (s : system_t) : system_t :=
  mk_system x (position s) (execute s) (auto_start s).

Definition set_auto_start (x : bool) (s : system_t) : system_t :=
  mk_system (state s) (position s) (execute s) x.

Section Cycle.

Variable cfg : config.
Variable cyc : cycle_config.

(** Lines 144-149: the enable pin goes to its enabling level. *)
Definition wake_enable (b : board) : board :=
  with_core (fun m =>
    set_avr (set_STEPPERS_DISABLE_PORT
               (if bit_istrue (flags (settings m)) (BITFLAG_INVERT_ST_ENABLE cfg)
                then Z.lor (STEPPERS_DISABLE_PORT (avr m)) (bit (STEPPERS_DISABLE_BIT cfg))
                else Z.ldiff (STEPPERS_DISABLE_PORT (avr m)) (bit (STEPPERS_DISABLE_BIT cfg)))
               (avr m)) m) b.

(** Lines 151-161: the runtime state and Timer2 at the start of a cycle. *)
Definition wake_cycle (b : board) : board :=
  let b := with_core (fun m => with_st (set_out_bits (invert_mask (settings m))) m) b in
  let b := with_core (fun m =>
             with_st (set_step_pulse_time
                        (u8 (pulse_time cyc (pulse_microseconds (settings m))))) m) b in
  let b := with_core (with_st (set_execute_step false)) b in
  let b := with_core (with_st (set_load_flag LOAD_BLOCK)) b in
  let b := set_TCNT2 0 b in
  let b := with_core (fun m =>
             set_avr (set_TIMSK2 (Z.lor (TIMSK2 (avr m)) (bit OCIE2A)) (avr m)) m) b in
  with_core (fun m => set_avr (set_TCCR2B (bit CS21) (avr m)) m) b.

(** [st_wake_up()], lines 142-164. *)
Definition st_wake_up (b : board) : board :=
  let b := wake_enable b in
  if state (sys (core b)) =? STATE_CYCLE cyc then wake_cycle b else b.

(** Lines 413-429: the pins and the two timers. *)
Definition init_registers (b : board) : board :=
  let b := set_STEPPING_DDR (Z.lor (STEPPING_DDR b) (STEPPING_MASK cyc)) b in
  let b := with_core (fun m =>
             set_avr (set_STEPPING_PORT
                        (Z.lor (Z.ldiff (STEPPING_PORT (avr m)) (STEPPING_MASK cyc))
                               (invert_mask (settings m)))
                        (avr m)) m) b in
  let b := set_STEPPERS_DISABLE_DDR
             (Z.lor (STEPPERS_DISABLE_DDR b) (bit (STEPPERS_DISABLE_BIT cfg))) b in
  let b := with_core (fun m =>
             set_avr (set_TIMSK2 (Z.ldiff (TIMSK2 (avr m)) (bit OCIE2A)) (avr m)) m) b in
  let b := with_core (fun m => set_avr (set_TCCR2B 0 (avr m)) m) b in
  let b := set_TCNT2 0 b in
  let b := set_TCCR2A (bit (WGM21 cyc)) b in
  let b := set_OCR2A (timer2_rate cyc) b in
  let b := set_TIMSK0 (Z.ldiff (TIMSK0 b) (bit (TOIE0 cyc))) b in
  let b := set_TCCR0A 0 b in
  let b := with_core (fun m => set_avr (set_TCCR0B 0 (avr m)) m) b in
  set_TIMSK0 (Z.lor (TIMSK0 b) (bit (TOIE0 cyc))) b.

(** [st_init()], lines 411-434. *)
Definition st_init (b : board) : board :=
  with_core (st_go_idle cfg) (st_wake_up (init_registers b)).

(** [st_cycle_start()], lines 439-445. *)
Definition st_cycle_start (b : board) : board :=
  if state (sys (core b)) =? STATE_QUEUED cyc then
    st_wake_up (with_core (fun m => set_sys (set_state (STATE_CYCLE cyc) (sys m)) m) b)
  else b.

(** [st_feed_hold()], lines 449-455. *)
Definition st_feed_hold (m : machine) : machine :=
  if state (sys m) =? STATE_CYCLE cyc then
    let m := set_sys (set_state (STATE_HOLD cyc) (sys m)) m in
    set_sys (set_auto_start false (sys m)) m
  else m.

(** [st_cycle_reinitialize()], lines 463-485: all but one assignment is
    commented out in the source. *)
Definition st_cycle_reinitialize (m : machine) : machine :=
  set_sys (set_state (STATE_IDLE cyc) (sys m)) m.

(** *** The driver within its cycle

    [run] above follows one cycle that is never stopped and started again.
    Here the driver stands in the program: the tick interrupt comes only
    while Timer2 runs with its compare interrupt enabled, the main program
    may call the cycle functions between any two of its steps, and the rest
    of Grbl, with which [sys] is shared, may write [sys.state]. *)
Definition tick_enabled (m : machine) : bool :=
  Z.testbit (TIMSK2 (avr m)) OCIE2A && negb (TCCR2B (avr m) =? 0).

Inductive cycle_action :=
| Drive (a : action)      (* a tick, a step through st_prep_buffer, a port reset *)
| CycleStart              (* st_cycle_start() *)
| CycleReinitialize       (* st_cycle_reinitialize() *)
| FeedHold                (* st_feed_hold() *)
| SysState (x : Z).       (* sys.state = x, by the program outside stepper.c *)

Definition cycle_exec1 (c : cycle_action) (s : board * prep_pc)
  : option (board * prep_pc) :=
  match c with
  | Drive Tick =>
      if tick_enabled (core (fst s)) then
        m ← ISR_TIMER2_COMPA cfg (core (fst s)); Some (set_core m (fst s), snd s)
      else Some s
  | Drive a =>
      s' ← exec1 cfg a (core (fst s), snd s); Some (set_core (fst s') (fst s), snd s')
  | CycleStart => Some (st_cycle_start (fst s), snd s)
  | CycleReinitialize => Some (with_core st_cycle_reinitialize (fst s), snd s)
  | FeedHold => Some (with_core st_feed_hold (fst s), snd s)
  | SysState x =>
      Some (with_core (fun m => set_sys (set_state x (sys m)) m) (fst s), snd s)
  end.

Fixpoint cycle_run (acts : list cycle_action) (s : board * prep_pc)
  : option (board * prep_pc) :=
  match acts with
  | [] => Some s
  | c :: acts => s ← cycle_exec1 c s; cycle_run acts s
  end.

End Cycle.

(** ** Words of the specification *)

Section Specification.

Variable cfg : config.

(** The flags that end a planner block. *)
Definition eob (f : Z) : bool := (f =? ST_END_OF_BLOCK) || (f =? ST_DECEL_EOB).

(** The deceleration rule as the specification words it: subtract
    [rate_delta] if [rate_delta] exceeds the current rate, otherwise halve. *)
Definition spec_decel_rate (rate delta : Z) : Z :=
  if delta >? rate then rate - delta else Z.shiftr rate 1.

(** The segment flag as the specification words it, from the two counters
    after both have been decremented. *)
Definition spec_slice_flag (d : st_data_t) : Z :=
  if step_events_remaining d =? 0 then
    if decelerate_after d =? 0 then ST_DECEL_EOB else ST_END_OF_BLOCK
  else
    if decelerate_after d =? 0 then ST_DECEL else ST_NOOP.

(** The slices of one block under a chunk-size policy: [policy k] is the
    chunk requested for slice [k].  Each entry is a segment with the block
    data it leaves; the list ends with the slice that brings
    [step_events_remaining] to zero, as the loop of [st_prep_buffer] moves to
    the next block there. *)
Fixpoint slices (policy : nat -> Z) (idx : Z) (k fuel : nat) (d : st_data_t)
  : list (st_segment_t * st_data_t) :=
  match fuel with
  | O => []
  | S fuel =>
      let sd := slice (policy k) idx d in
      sd :: (if step_events_remaining (snd sd) =? 0 then []
             else slices policy idx (S k) fuel (snd sd))
  end.

(** The steps that a list of slices carries. *)
Definition steps_of (l : list (st_segment_t * st_data_t)) : Z :=
  foldr (fun sd acc => n_step (fst sd) + acc) 0 l.

(** Along the slices of a block neither counter grows, and
    [step_events_remaining] stays at or above zero. *)
Fixpoint counters_descend (prev : st_data_t) (l : list (st_segment_t * st_data_t)) : Prop :=
  match l with
  | [] => True
  | sd :: l =>
      0 <= step_events_remaining (snd sd) < step_events_remaining prev /\
      decelerate_after (snd sd) <= decelerate_after prev /\
      decelerate_after (snd sd) - step_events_remaining (snd sd) =
        decelerate_after prev - step_events_remaining prev /\
      counters_descend (snd sd) l
  end.

(** Events of the log. *)
Fixpoint discards (l : list event) : Z :=
  match l with
  | [] => 0
  | EvDiscard :: l => 1 + discards l
  | _ :: l => discards l
  end.

Fixpoint step_events (l : list event) : Z :=
  match l with
  | [] => 0
  | EvStepEvent :: l => 1 + step_events l
  | _ :: l => step_events l
  end.

(** A value on the stepping port pulses axis [a] when the step bit of [a] is
    at its active level, the opposite of its bit in the invert mask. *)
Definition pulse_on (inv : Z) (a : axis) (v : Z) : bool :=
  xorb (Z.testbit v (step_bit cfg a)) (Z.testbit inv (step_bit cfg a)).

Fixpoint pulses (inv : Z) (a : axis) (l : list event) : Z :=
  match l with
  | [] => 0
  | EvStepPort v :: l => (if pulse_on inv a v then 1 else 0) + pulses inv a l
  | _ :: l => pulses inv a l
  end.

(** The pulse latched in [out_bits] for the next tick. *)
Definition latched (a : axis) (m : machine) : Z :=
  if execute_step (st m) && pulse_on (invert_mask (settings m)) a (out_bits (st m))
  then 1 else 0.

(** Sums over the first [d] blocks of the planner ring. *)
Fixpoint total (f : plan_block_t -> Z) (bs : list plan_block_t) : Z :=
  match bs with
  | [] => 0
  | b :: bs => f b + total f bs
  end.

Definition before (f : plan_block_t -> Z) (bs : list plan_block_t) (d : Z) : Z :=
  total f (take (Z.to_nat d) bs).

Definition count_at (bs : list plan_block_t) (j : Z) : Z :=
  match at_index bs j with
  | Some b => step_event_count b
  | None => 0
  end.

(** The commanded displacement of an axis: its step count, downwards when
    the direction bit of the axis is set. *)
Definition direction_sign (a : axis) (b : plan_block_t) : Z :=
  if Z.testbit (direction_bits b) (direction_bit cfg a) then -1 else 1.

Definition signed_steps (a : axis) (b : plan_block_t) : Z :=
  direction_sign a b * steps b a.

(** Occupied slots of the segment ring. *)
Definition occupied (m : machine) : Z :=
  (segment_buffer_head m - segment_buffer_tail m) mod SEGMENT_BUFFER_SIZE.

Definition ring_empty (m : machine) : Prop :=
  segment_buffer_head m = segment_buffer_tail m.

Definition ring_full (m : machine) : Prop :=
  next_block_index (segment_buffer_head m) = segment_buffer_tail m.

(** *** What is assumed of the configuration and of the planner *)

Record config_ok : Prop := {
  step_bit_range : forall a, 0 <= step_bit cfg a < 8;
  direction_bit_range : forall a, 0 <= direction_bit cfg a < 8;
  step_bits_distinct : forall a b, a <> b -> step_bit cfg a <> step_bit cfg b;
  step_not_direction : forall a b, step_bit cfg a <> direction_bit cfg b;
  step_mask_covers : forall a,
    Z.testbit (Z.lor (DIRECTION_MASK cfg) (STEP_MASK cfg)) (step_bit cfg a) = true
}.

(** A planner block: a positive number of step events, no axis with more
    steps than that, and direction bits only in [direction_bits]. *)
Record block_ok (b : plan_block_t) : Prop := {
  count_range : 0 < step_event_count b < 2 ^ 31;
  steps_range : forall a, 0 <= steps b a <= step_event_count b;
  direction_only : forall a, Z.testbit (direction_bits b) (step_bit cfg a) = false
}.

(** The machine after power-on, when the main program has filled the
    planner ring and is about to call [st_reset]: statics are zero, the
    planner tail is where [st_reset] puts [pl_prep_index]. *)
Record power_on (m : machine) : Prop := {
  po_head : segment_buffer_head m = 0;
  po_data : length (segment_data m) = 10%nat;
  po_buffer : length (segment_buffer m) = 10%nat;
  po_log : log m = [];
  po_tail : block_buffer_tail (planner m) = 0;
  po_blocks : 0 <= block_buffer_head (planner m) < BLOCK_BUFFER_SIZE;
  po_block_ok : forall j, 0 <= j < block_buffer_head (planner m) ->
    exists b, at_index (block_buffer (planner m)) j = Some b /\ block_ok b;
  po_position : forall a, is_i32 (position (sys m) a)
}.

(** *** The invariant of the running driver

    The segments between tail and head, read from the tail on, cut the
    planner blocks in order.  [after_segment C r f j owed]: a segment of [r]
    steps flagged [f] stands for block [j], of which [owed] step events are
    still to come; it ends the block exactly when it carries the flag of the
    last segment, and [C] describes what follows. *)
Definition after_segment (h : Z) (bs : list plan_block_t) (C : Z -> Z -> Prop)
    (r f j owed : Z) : Prop :=
  1 <= r <= owed /\ 0 <= j < h /\
  if r =? owed
  then eob f = true /\ C (j + 1) (count_at bs (j + 1))
  else eob f = false /\ C j (owed - r).

(** [chain h bs sb T n i j owed]: the [n] slots from index [i] on hold
    segments for block [j] (with [owed] step events to come) and the blocks
    after it; [T] is what the preparation holds for the rest. *)
Fixpoint chain (h : Z) (bs : list plan_block_t) (sb : list st_segment_t)
    (T : Z -> Z -> Prop) (n : nat) (i j owed : Z) : Prop :=
  match n with
  | O => T j owed
  | S n =>
      exists seg,
        at_index sb i = Some seg /\
        0 <= st_data_index seg < SEGMENT_BUFFER_SIZE /\
        n_step seg <= 255 /\
        after_segment h bs (chain h bs sb T n (next_block_index i))
          (n_step seg) (flag seg) j owed
  end.

(** What the preparation holds: block [j] is the one at [pl_prep_index];
    either it is staged with [owed] step events not yet cut into segments, or
    nothing is staged and the whole block is to come. *)
Definition prep_tail (m : machine) (j owed : Z) : Prop :=
  j = pl_prep_index m /\
  match pl_prep_block m with
  | Some pb =>
      pb = j /\ j < block_buffer_head (planner m) /\
      st_prep_data m = Some (st_data_prep_index m) /\
      exists dat,
        at_index (segment_data m) (st_data_prep_index m) = Some dat /\
        step_events_remaining dat = owed /\
        0 < owed <= count_at (block_buffer (planner m)) j
  | None => owed = count_at (block_buffer (planner m)) j
  end.

(** The segments in the ring, counting the one the preparation has written
    but not yet published. *)
Definition queued (s : machine * prep_pc) : nat :=
  Z.to_nat (occupied (fst s) + match snd s with PrepPubHead => 1 | _ => 0 end).

(** The ring as the interrupt sees it: with a segment loaded, the slot at
    the tail is that segment and [segment_steps_remaining] of its steps are
    to come. *)
Definition isr_view (s : machine * prep_pc) (owed : Z) : Prop :=
  let m := fst s in
  let h := block_buffer_head (planner m) in
  let bs := block_buffer (planner m) in
  let d := block_buffer_tail (planner m) in
  if load_flag (st m) =? LOAD_NOOP then
    1 <= occupied m /\
    st_current_segment m = Some (segment_buffer_tail m) /\
    segment_steps_remaining (st m) <= 255 /\
    exists seg,
      at_index (segment_buffer m) (segment_buffer_tail m) = Some seg /\
      after_segment h bs
        (chain h bs (segment_buffer m) (prep_tail m) (Nat.pred (queued s))
           (next_block_index (segment_buffer_tail m)))
        (segment_steps_remaining (st m)) (flag seg) d owed
  else
    chain h bs (segment_buffer m) (prep_tail m) (queued s)
      (segment_buffer_tail m) d owed.

Definition sign_at (bs : list plan_block_t) (d : Z) (a : axis) : Z :=
  match at_index bs d with
  | Some b => direction_sign a b
  | None => 1
  end.

(** The Bresenham tracer of axis [a]: [k] pulses of the current block have
    been decided, the position and the pulses follow the blocks done and
    [k], and within a block the counter is where [k] pulses in
    [count - owed] step events put it. *)
Definition tracer (pos0 : axis -> Z) (m : machine) (owed : Z) (a : axis) : Prop :=
  let bs := block_buffer (planner m) in
  let d := block_buffer_tail (planner m) in
  exists k,
    position (sys m) a =
      i32 (pos0 a + before (signed_steps a) bs d + sign_at bs d a * k) /\
    pulses (invert_mask (settings m)) a (log m) + latched a m =
      before (fun b => steps b a) bs d + k /\
    if load_flag (st m) =? LOAD_BLOCK then k = 0
    else
      exists blk,
        at_index bs d = Some blk /\
        0 <= counter a (st m) < step_event_count blk /\
        counter a (st m) =
          Z.shiftr (step_event_count blk) 1
          - steps blk a * (step_event_count blk - owed)
          + step_event_count blk * k.

Record invariant_at (pos0 : axis -> Z) (s : machine * prep_pc) (owed : Z) : Prop := {
  ia_data : length (segment_data (fst s)) = 10%nat;
  ia_buffer : length (segment_buffer (fst s)) = 10%nat;
  ia_head : 0 <= segment_buffer_head (fst s) < SEGMENT_BUFFER_SIZE;
  ia_tail : 0 <= segment_buffer_tail (fst s) < SEGMENT_BUFFER_SIZE;
  ia_prep_data : 0 <= st_data_prep_index (fst s) < SEGMENT_BUFFER_SIZE;
  ia_planner :
    0 <= block_buffer_tail (planner (fst s)) <= block_buffer_head (planner (fst s)) /\
    block_buffer_head (planner (fst s)) < BLOCK_BUFFER_SIZE;
  ia_prep_index :
    0 <= pl_prep_index (fst s) <= block_buffer_head (planner (fst s));
  ia_blocks : forall j, 0 <= j < block_buffer_head (planner (fst s)) ->
    exists b, at_index (block_buffer (planner (fst s))) j = Some b /\ block_ok b;
  ia_load :
    load_flag (st (fst s)) = LOAD_NOOP \/ load_flag (st (fst s)) = LOAD_LINE \/
    load_flag (st (fst s)) = LOAD_BLOCK;
  ia_next_head :
    match snd s with
    | PrepPubNext => True
    | _ => segment_next_head (fst s) = next_block_index (segment_buffer_head (fst s))
    end;
  ia_room :
    match snd s with
    | PrepFetch | PrepSlice | PrepPubHead => occupied (fst s) <= 8
    | _ => True
    end;
  ia_staged : snd s = PrepSlice -> pl_prep_block (fst s) <> None;
  ia_view : isr_view s owed;
  ia_current :
    load_flag (st (fst s)) <> LOAD_BLOCK ->
    pl_current_block (fst s) = Some (block_buffer_tail (planner (fst s))) /\
    block_buffer_tail (planner (fst s)) < block_buffer_head (planner (fst s)) /\
    0 < owed <= count_at (block_buffer (planner (fst s))) (block_buffer_tail (planner (fst s))) /\
    exists di, st_current_data (fst s) = Some di /\ 0 <= di < SEGMENT_BUFFER_SIZE;
  ia_fresh :
    load_flag (st (fst s)) = LOAD_BLOCK ->
    owed = count_at (block_buffer (planner (fst s))) (block_buffer_tail (planner (fst s)));
  ia_tracer : forall a, tracer pos0 (fst s) owed a;
  ia_events :
    step_events (log (fst s)) =
      before step_event_count (block_buffer (planner (fst s)))
        (block_buffer_tail (planner (fst s)))
      + (count_at (block_buffer (planner (fst s))) (block_buffer_tail (planner (fst s)))
         - owed);
  ia_discards : discards (log (fst s)) = block_buffer_tail (planner (fst s))
}.

(** Between two actions the handler is not running, and [owed] step events
    of the block at the planner tail are still to come. *)
Definition invariant (pos0 : axis -> Z) (s : machine * prep_pc) : Prop :=
  busy (fst s) = false /\ exists owed, invariant_at pos0 s owed.

(** *** Frames *)

(** The distance from [i] forward to [x] around the ring. *)
Definition ring_distance (i x : Z) : Z := (x - i) mod SEGMENT_BUFFER_SIZE.

(** The variables of the preparation, the rings and the planner's blocks:
    no part of the tick interrupt writes them. *)
Record isr_frame (m m' : machine) : Prop := {
  fr_data : segment_data m' = segment_data m;
  fr_buffer : segment_buffer m' = segment_buffer m;
  fr_head : segment_buffer_head m' = segment_buffer_head m;
  fr_next_head : segment_next_head m' = segment_next_head m;
  fr_prep_block : pl_prep_block m' = pl_prep_block m;
  fr_prep_index : pl_prep_index m' = pl_prep_index m;
  fr_prep_data : st_prep_data m' = st_prep_data m;
  fr_data_prep_index : st_data_prep_index m' = st_data_prep_index m;
  fr_settings : settings m' = settings m;
  fr_blocks : block_buffer (planner m') = block_buffer (planner m);
  fr_blocks_head : block_buffer_head (planner m') = block_buffer_head (planner m)
}.

(** One axis of the tracer leaves alone everything but its own counter, its
    own position and [out_bits]. *)
Record tracer_frame (m m' : machine) : Prop := {
  tf_log : log m' = log m;
  tf_planner : planner m' = planner m;
  tf_tail : segment_buffer_tail m' = segment_buffer_tail m;
  tf_block : pl_current_block m' = pl_current_block m;
  tf_segment : st_current_segment m' = st_current_segment m;
  tf_cur_data : st_current_data m' = st_current_data m;
  tf_busy : busy m' = busy m;
  tf_avr : avr m' = avr m;
  tf_steps : segment_steps_remaining (st m') = segment_steps_remaining (st m);
  tf_counter_d : counter_d (st m') = counter_d (st m);
  tf_delta_d : delta_d (st m') = delta_d (st m);
  tf_d_per_tick : d_per_tick (st m') = d_per_tick (st m);
  tf_execute_step : execute_step (st m') = execute_step (st m);
  tf_pulse_time : step_pulse_time (st m') = step_pulse_time (st m);
  tf_load_flag : load_flag (st m') = load_flag (st m);
  tf_ramp_count : ramp_count (st m') = ramp_count (st m);
  tf_ramp_type : ramp_type (st m') = ramp_type (st m);
  tf_state : state (sys m') = state (sys m);
  tf_execute : execute (sys m') = execute (sys m);
  tf_auto_start : auto_start (sys m') = auto_start (sys m)
}.

(** The fields of [st] that the tracer and the loader go by. *)
Record st_same (s s' : stepper_t) : Prop := {
  ss_counter_x : counter_x s' = counter_x s;
  ss_counter_y : counter_y s' = counter_y s;
  ss_counter_z : counter_z s' = counter_z s;
  ss_steps : segment_steps_remaining s' = segment_steps_remaining s;
  ss_execute_step : execute_step s' = execute_step s;
  ss_out_bits : out_bits s' = out_bits s;
  ss_load_flag : load_flag s' = load_flag s
}.

(** Two machines the invariant cannot tell apart on the interrupt's side. *)
Record isr_same (m m' : machine) : Prop := {
  sm_frame : isr_frame m m';
  sm_planner : planner m' = planner m;
  sm_tail : segment_buffer_tail m' = segment_buffer_tail m;
  sm_segment : st_current_segment m' = st_current_segment m;
  sm_block : pl_current_block m' = pl_current_block m;
  sm_cur_data : st_current_data m' = st_current_data m;
  sm_load_flag : load_flag (st m') = load_flag (st m);
  sm_steps : segment_steps_remaining (st m') = segment_steps_remaining (st m);
  sm_counter : forall a, counter a (st m') = counter a (st m);
  sm_position : forall a, position (sys m') a = position (sys m) a;
  sm_pulses : forall a,
    pulses (invert_mask (settings m')) a (log m') + latched a m' =
    pulses (invert_mask (settings m)) a (log m) + latched a m;
  sm_events : step_events (log m') = step_events (log m);
  sm_discards : discards (log m') = discards (log m)
}.

(** What a tick does about the planner: a block is discarded exactly when
    the tick moves the tail past a segment that carries the flag of the last
    segment of a block. *)
Definition discard_report (m m' : machine) : Prop :=
  forall seg,
    at_index (segment_buffer m) (segment_buffer_tail m) = Some seg ->
    discards (log m') =
      discards (log m)
      + (if eob (flag seg) && negb (segment_buffer_tail m' =? segment_buffer_tail m)
         then 1 else 0).

(** What a tick does about the ring: it leaves the variables of the
    preparation alone and frees at most one slot. *)
Definition consumes (m m' : machine) : Prop :=
  isr_frame m m' /\ occupied m - 1 <= occupied m' <= occupied m.

(** The variables of the interrupt, the planner and the log: no statement of
    [st_prep_buffer] writes them. *)
Record main_frame (m m' : machine) : Prop := {
  mf_st : st m' = st m;
  mf_sys : sys m' = sys m;
  mf_settings : settings m' = settings m;
  mf_planner : planner m' = planner m;
  mf_log : log m' = log m;
  mf_tail : segment_buffer_tail m' = segment_buffer_tail m;
  mf_busy : busy m' = busy m;
  mf_block : pl_current_block m' = pl_current_block m;
  mf_segment : st_current_segment m' = st_current_segment m;
  mf_cur_data : st_current_data m' = st_current_data m;
  mf_avr : avr m' = avr m
}.

(** The job stays what it was: the settings and the blocks the planner
    holds. *)
Definition same_job (m m' : machine) : Prop :=
  settings m' = settings m /\
  block_buffer (planner m') = block_buffer (planner m) /\
  block_buffer_head (planner m') = block_buffer_head (planner m).

(** The driver as the main program starts it: [st_reset] has run and
    [st_prep_buffer] has not been called yet. *)
Definition boot (m0 : machine) : machine * prep_pc := (st_reset m0, PrepIdle).

End Specification.

(** ** A concrete driver

    The pin map of an Arduino Uno build (step bits 2-4, direction bits 5-7)
    and small rates, so that a whole block runs in a few dozen ticks. *)

Definition demo_cfg : config :=
  {| ISR_TICKS_PER_ACCELERATION_TICK := 4;
     MINIMUM_STEP_RATE := 1;
     X_STEP_BIT := 2; Y_STEP_BIT := 3; Z_STEP_BIT := 4;
     X_DIRECTION_BIT := 5; Y_DIRECTION_BIT := 6; Z_DIRECTION_BIT := 7;
     STEP_MASK := 28; DIRECTION_MASK := 224;
     STEPPERS_DISABLE_BIT := 0;
     BITFLAG_INVERT_ST_ENABLE := 4;
     EXEC_CYCLE_STOP := 4;
     EXEC_ALARM := 32;
     fp_initial_rate := fun _ => 2;
     fp_nominal_rate := fun _ => 10;
     fp_rate_delta := fun _ => 3;
     fp_d_next := fun _ _ => 20;
     fp_mm_per_step := fun _ _ => 0;
     calculate_trapezoid_for_block := fun _ _ => 3 |}.

(** Five step events: five steps up on X, three steps down on Y, none on Z. *)
Definition demo_block : plan_block_t :=
  {| direction_bits := 64;
     steps := fun a => match a with X_AXIS => 5 | Y_AXIS => 3 | Z_AXIS => 0 end;
     step_event_count := 5;
     entry_speed_sqr := 0; nominal_speed_sqr := 0; acceleration := 0; millimeters := 0 |}.

Definition demo_block_zero : plan_block_t :=
  {| direction_bits := 0; steps := fun _ => 0; step_event_count := 0;
     entry_speed_sqr := 0; nominal_speed_sqr := 0; acceleration := 0; millimeters := 0 |}.

Definition demo_planner : planner_t :=
  {| block_buffer := demo_block :: demo_block :: replicate 16 demo_block_zero;
     block_buffer_tail := 0;
     block_buffer_head := 2 |}.

Definition demo_power_on : machine :=
  {| st := stepper_zero;
     segment_data := replicate 10 (mk_st_data 0 0 0 0 0 0 0);
     segment_buffer := replicate 10 (mk_st_segment 0 0 0);
     segment_buffer_tail := 0; segment_buffer_head := 0; segment_next_head := 0;
     busy := false;
     pl_current_block := None; st_current_segment := None; st_current_data := None;
     pl_prep_block := None; pl_prep_index := 0;
     st_prep_data := None; st_data_prep_index := 0;
     sys := mk_system 0 (fun _ => 100) 0 true;
     settings := mk_settings 0 0 255 10;
     planner := demo_planner;
     avr := mk_avr 0 0 0 0 0 0;
     log := [] |}.

(** The block data of [demo_block], and the driver in the middle of a ramp:
    one tick before a rate adjustment, at rate 8. *)
Definition demo_data : st_data_t :=
  {| step_events_remaining := 5; d_next := 20; initial_rate := 2; nominal_rate := 10;
     rate_delta := 3; decelerate_after := 3; mm_per_step := 0 |}.

Definition demo_ramping (ramp : Z) : machine :=
  with_st (fun s => set_ramp_type ramp (set_ramp_count 1 (set_delta_d 8 s)))
    (set_st_current_data (Some 1)
       (set_segment_data (replicate 10 demo_data) (st_reset demo_power_on))).

(** A block of a hundred step events that is to start decelerating after
    fifty, and one of two step events decelerating after the first. *)
Definition demo_data_100 : st_data_t :=
  {| step_events_remaining := 100; d_next := 20; initial_rate := 2; nominal_rate := 10;
     rate_delta := 3; decelerate_after := 50; mm_per_step := 0 |}.

Definition demo_data_2 : st_data_t :=
  {| step_events_remaining := 2; d_next := 20; initial_rate := 2; nominal_rate := 10;
     rate_delta := 3; decelerate_after := 1; mm_per_step := 0 |}.

(** The driver with [demo_data_100] staged in data slot 1. *)
Definition demo_staged : machine :=
  set_st_prep_data (Some 1)
    (set_st_data_prep_index 1
       (set_pl_prep_block (Some 0)
          (set_segment_data (replicate 10 demo_data_100) (st_reset demo_power_on)))).

(** The states of [nuts_bolts.h] and the timer bits of an ATmega328p at
    16 MHz with 30000 ticks a second. *)
Definition demo_cycle : cycle_config :=
  {| STATE_IDLE := 0; STATE_QUEUED := 2; STATE_CYCLE := 3; STATE_HOLD := 4;
     STEPPING_MASK := 252; WGM21 := 1; TOIE0 := 0;
     pulse_time := fun p => - Z.shiftr ((p - 2) * 16) 3;
     timer2_rate := 65 |}.

Definition demo_board (m : machine) : board :=
  {| core := m; STEPPING_DDR := 0; STEPPERS_DISABLE_DDR := 0; TCNT2 := 7;
     TCCR2A := 0; OCR2A := 0; TIMSK0 := 0; TCCR0A := 0 |}.

(** A block of four step events, four steps on X and two on Y, alone in the
    planner of a system that is queued; [demo_cfg] has it cut into a segment
    of three steps and one of one. *)
Definition restart_block : plan_block_t :=
  {| direction_bits := 0;
     steps := fun a => match a with X_AXIS => 4 | Y_AXIS => 2 | Z_AXIS => 0 end;
     step_event_count := 4;
     entry_speed_sqr := 0; nominal_speed_sqr := 0; acceleration := 0; millimeters := 0 |}.

Definition restart_power_on : machine :=
  set_sys (set_state (STATE_QUEUED demo_cycle) (sys demo_power_on))
    (set_planner {| block_buffer := restart_block :: replicate 17 demo_block_zero;
                    block_buffer_tail := 0;
                    block_buffer_head := 1 |} demo_power_on).

(** The cycle starts; the main program gets as far as publishing the first
    segment; the interrupt runs it to its end, finds the ring empty and idles
    the driver in the middle of the block. *)
Definition underrun_schedule : list cycle_action :=
  CycleStart :: repeat (Drive Main) 5 ++ repeat (Drive Tick) 40.

(** The cycle is started again, the main program cuts the rest of the block
    and the interrupt runs it. *)
Definition restart_schedule : list cycle_action :=
  [CycleReinitialize; SysState (STATE_QUEUED demo_cycle); CycleStart]
  ++ repeat (Drive Main) 8 ++ repeat (Drive Tick) 40.

(** The same block when the main program has cut both segments before the
    interrupt gets to the end of the first: the cycle runs through. *)
Definition through_schedule : list cycle_action :=
  CycleStart :: repeat (Drive Main) 13 ++ repeat (Drive Tick) 80.

Definition restart_boot : board * prep_pc :=
  (demo_board (st_reset restart_power_on), PrepIdle).

(** A schedule for the whole driver: the main program moves one place
    through [st_prep_buffer], a tick comes, the port is reset; and the state
    that [n] such rounds lead to from power-on. *)
Definition demo_schedule (n : nat) : list action :=
  concat (replicate n [Main; Tick; PulseReset]).

Definition demo_state (n : nat) : machine * prep_pc :=
  match run demo_cfg (demo_schedule n) (boot demo_power_on) with
  | Some s => s
  | None => boot demo_power_on
  end.

(** * Properties *)

(** ** Machine integers and bits *)

Lemma u8_small z : 0 <= z < 256 -> u8 z = z.
Proof. intros H. unfold u8. apply Z.mod_small. exact H. Qed.

Lemma u8_range z : 0 <= u8 z < 256.
Proof. unfold u8. apply Z.mod_pos_bound. lia. Qed.

Lemma u32_small z : 0 <= z < 2 ^ 32 -> u32 z = z.
Proof. intros H. unfold u32. apply Z.mod_small. exact H. Qed.

Lemma i32_small z : - 2 ^ 31 <= z < 2 ^ 31 -> i32 z = z.
Proof. intros H. unfold i32. rewrite Z.mod_small; lia. Qed.

Lemma i32_range z : - 2 ^ 31 <= i32 z < 2 ^ 31.
Proof.
  unfold i32. pose proof (Z.mod_pos_bound (z + 2 ^ 31) (2 ^ 32)). lia.
Qed.

(** [i32] only looks at its argument modulo [2^32]. *)
Lemma i32_i32_add x y : i32 (i32 x + y) = i32 (x + y).
Proof.
  unfold i32.
  replace (((x + 2 ^ 31) mod 2 ^ 32 - 2 ^ 31 + y + 2 ^ 31))
    with ((x + 2 ^ 31) mod 2 ^ 32 + y) by lia.
  rewrite Zplus_mod_idemp_l. f_equal. f_equal. lia.
Qed.

(** ** The re-entrancy guard *)

(** C10.  When [busy] is set, the tick interrupt returns at once and the
    machine is left exactly as it was: the stepping port is not written, the
    pulse timer is not armed, and no field of the driver, no counter, index,
    position or system flag changes; a step output latched with
    [execute_step] stays latched for a later tick. *)
Theorem isr_busy_noop (cfg : config) (m : machine) :
  busy m = true -> ISR_TIMER2_COMPA cfg m = Some m.
Proof.
  intros Hbusy. unfold ISR_TIMER2_COMPA. rewrite Hbusy. reflexivity.
Qed.

Lemma isr_busy_noop_witness :
  let m := with_st (set_execute_step true) (set_busy true demo_power_on) in
  busy m = true /\ execute_step (st m) = true /\
  ISR_TIMER2_COMPA demo_cfg m = Some m.
Proof.
  split; [reflexivity | split; [reflexivity |]].
  apply isr_busy_noop. reflexivity.
Defined.

(** ** Buffer underrun *)

(** [st_go_idle] stops Timer2, clears [busy], and may dwell and switch the
    stepper enable pin; it leaves everything else alone. *)
Lemma st_go_idle_frame (cfg : config) (m : machine) :
  let m' := st_go_idle cfg m in
  st m' = st m /\ sys m' = sys m /\ settings m' = settings m /\
  planner m' = planner m /\
  segment_buffer_head m' = segment_buffer_head m /\
  segment_buffer_tail m' = segment_buffer_tail m /\
  segment_next_head m' = segment_next_head m /\
  segment_buffer m' = segment_buffer m /\
  segment_data m' = segment_data m /\
  STEPPING_PORT (avr m') = STEPPING_PORT (avr m) /\
  TCCR2B (avr m') = 0 /\
  busy m' = false /\
  (log m' = log m \/ log m' = EvDelay (stepper_idle_lock_time (settings m)) :: log m).
Proof.
  unfold st_go_idle. cbn.
  destruct (negb (stepper_idle_lock_time (settings m) =? 255)
            || bit_istrue (execute (sys m)) (EXEC_ALARM cfg)).
  - destruct (bit_istrue (flags (settings m)) (BITFLAG_INVERT_ST_ENABLE cfg));
      cbn; repeat split; auto.
  - cbn. repeat split; auto.
Qed.

(** The pulse phase touches the port, Timer0, [execute_step] and the log. *)
Lemma isr_pulse_frame (cfg : config) (m : machine) :
  let m' := isr_pulse cfg m in
  st m' = set_execute_step false (st m) /\ sys m' = sys m /\
  settings m' = settings m /\ planner m' = planner m /\
  segment_buffer_head m' = segment_buffer_head m /\
  segment_buffer_tail m' = segment_buffer_tail m /\
  segment_next_head m' = segment_next_head m /\
  segment_buffer m' = segment_buffer m /\
  segment_data m' = segment_data m /\
  busy m' = busy m.
Proof.
  unfold isr_pulse. destruct (execute_step (st m)) eqn:E.
  - cbn. repeat split; reflexivity.
  - cbn. repeat split; try reflexivity.
    destruct (st m); simpl in *. subst. reflexivity.
Qed.

(** C8.  When the handler has a segment to load ([load_flag] is not
    [LOAD_NOOP]) and the ring is empty, it calls [st_go_idle], sets
    [EXEC_CYCLE_STOP] in [sys.execute] and returns.  From the load test on
    nothing else happens: the stepping port keeps the value it had after the
    pulse of the latched output, nothing is added to the log but the dwell
    of [st_go_idle], and [out_bits], the Bresenham counters, the positions,
    the ring and its indices and the planner are as before the tick. *)
Theorem isr_underrun_idles (cfg : config) (m : machine) :
  busy m = false ->
  load_flag (st m) <> LOAD_NOOP ->
  segment_buffer_head m = segment_buffer_tail m ->
  exists m',
    ISR_TIMER2_COMPA cfg m = Some m' /\
    m' = set_sys (set_execute (bit_true (execute (sys m)) (EXEC_CYCLE_STOP cfg)) (sys m))
           (st_go_idle cfg (set_busy true (isr_pulse cfg m))) /\
    execute (sys m') = Z.lor (execute (sys m)) (EXEC_CYCLE_STOP cfg) /\
    TCCR2B (avr m') = 0 /\
    busy m' = false /\
    st m' = set_execute_step false (st m) /\
    STEPPING_PORT (avr m') = STEPPING_PORT (avr (isr_pulse cfg m)) /\
    (log m' = log (isr_pulse cfg m) \/
     log m' = EvDelay (stepper_idle_lock_time (settings m)) :: log (isr_pulse cfg m)) /\
    position (sys m') = position (sys m) /\
    state (sys m') = state (sys m) /\
    segment_buffer_head m' = segment_buffer_head m /\
    segment_buffer_tail m' = segment_buffer_tail m /\
    segment_next_head m' = segment_next_head m /\
    segment_buffer m' = segment_buffer m /\
    segment_data m' = segment_data m /\
    planner m' = planner m.
Proof.
  intros Hbusy Hload Hempty.
  destruct (isr_pulse_frame cfg m)
    as (Hst & Hsys & Hset & Hpl & Hh & Ht & Hn & Hsb & Hsd & _).
  set (mp := isr_pulse cfg m) in *.
  assert (Hrun : ISR_TIMER2_COMPA cfg m =
    Some (set_sys (set_execute (bit_true (execute (sys m)) (EXEC_CYCLE_STOP cfg)) (sys m))
            (st_go_idle cfg (set_busy true mp)))).
  { unfold ISR_TIMER2_COMPA. rewrite Hbusy. fold mp.
    change (load_flag (st (set_busy true mp))) with (load_flag (st mp)).
    rewrite Hst.
    change (load_flag (set_execute_step false (st m))) with (load_flag (st m)).
    destruct (Z.eqb_spec (load_flag (st m)) LOAD_NOOP) as [E | _]; [contradiction |].
    change (segment_buffer_head (set_busy true mp)) with (segment_buffer_head mp).
    change (segment_buffer_tail (set_busy true mp)) with (segment_buffer_tail mp).
    rewrite Hh, Ht, Hempty, Z.eqb_refl.
    cbv beta iota zeta delta [negb].
    destruct (st_go_idle_frame cfg (set_busy true mp)) as (_ & Isys & _).
    rewrite Isys.
    change (sys (set_busy true mp)) with (sys mp). rewrite Hsys. reflexivity. }
  clearbody mp.
  destruct (st_go_idle_frame cfg (set_busy true mp))
    as (Ist & Isys & Iset & Ipl & Ih & It & In' & Isb & Isd & Iport & Itc & Ibusy & Ilog).
  set (mi := st_go_idle cfg (set_busy true mp)) in *. clearbody mi.
  cbn [st sys settings planner segment_buffer_head segment_buffer_tail
       segment_next_head segment_buffer segment_data avr log set_busy] in *.
  eexists. split; [exact Hrun |]. split; [reflexivity |].
  cbn [st sys settings planner segment_buffer_head segment_buffer_tail
       segment_next_head segment_buffer segment_data avr log busy set_sys
       execute position state set_execute bit_true].
  rewrite Ist, Hst, Ih, Hh, It, Ht, In', Hn, Isb, Hsb, Isd, Hsd, Ipl, Hpl.
  rewrite <- Hset. repeat split; auto.
Qed.

Lemma isr_underrun_idles_witness :
  exists m',
    ISR_TIMER2_COMPA demo_cfg (st_reset demo_power_on) = Some m' /\
    execute (sys m') = 4 /\ TCCR2B (avr m') = 0 /\
    segment_buffer_tail m' = 0 /\ position (sys m') X_AXIS = 100.
Proof.
  destruct (isr_underrun_idles demo_cfg (st_reset demo_power_on))
    as (m' & Hrun & Heq & _); [reflexivity | discriminate | reflexivity |].
  exists m'. split; [exact Hrun |]. subst m'. repeat split; reflexivity.
Defined.

(** ** The ramp *)

Lemma shiftr_1_half z : Z.shiftr z 1 = z / 2.
Proof. rewrite Z.shiftr_div_pow2 by lia. reflexivity. Qed.

(** A new block starts at its initial rate, accelerating. *)
Lemma isr_load_block_rate (cfg : config) (seg : st_segment_t) (m m' : machine) (dat : st_data_t) :
  isr_load_block cfg seg m = Some m' ->
  at_index (segment_data m) (st_data_index seg) = Some dat ->
  delta_d (st m') = initial_rate dat /\ ramp_type (st m') = RAMP_ACCEL /\
  st_current_data m' = Some (st_data_index seg).
Proof.
  unfold isr_load_block. intros H Hdat. cbn in H.
  destruct (plan_get_current_block (planner m)) as [pb |]; [| discriminate].
  cbn in H. destruct (at_index (block_buffer (planner m)) pb); [| discriminate].
  cbn in H. rewrite Hdat in H. cbn in H. injection H as <-.
  unfold floor_rate. cbn.
  destruct (initial_rate dat <? MINIMUM_STEP_RATE cfg); cbn; auto.
Qed.

Ltac case_cmp :=
  match goal with
  | |- context [?a >? ?b] => destruct (Z.gtb_spec a b)
  | |- context [?a >=? ?b] => destruct (Z.geb_spec a b)
  | |- context [?a =? ?b] => destruct (Z.eqb_spec a b)
  | |- context [?a <? ?b] => destruct (Z.ltb_spec a b)
  end.

(** The rate adjustment in the acceleration phase. *)
Lemma ramp_adjust_accel (cfg : config) (dat : st_data_t) (s : stepper_t) :
  ramp_type s = RAMP_ACCEL ->
  0 <= delta_d s <= nominal_rate dat ->
  0 <= rate_delta dat ->
  nominal_rate dat + rate_delta dat < 2 ^ 32 ->
  let s' := ramp_adjust cfg dat s in
  delta_d s' = Z.min (delta_d s + rate_delta dat) (nominal_rate dat) /\
  ramp_type s' =
    (if delta_d s + rate_delta dat >=? nominal_rate dat
     then RAMP_NOOP_CRUISE else RAMP_ACCEL) /\
  d_per_tick s' = Z.max (MINIMUM_STEP_RATE cfg) (delta_d s').
Proof.
  intros Hacc Hrate Hdelta Hfit. destruct s. cbn in *. subst.
  unfold ramp_adjust, floor_rate. cbn.
  rewrite u32_small by lia.
  repeat (case_cmp; cbn in *); repeat split; lia.
Qed.

(** The rate adjustment in the deceleration phase. *)
Lemma ramp_adjust_decel (cfg : config) (dat : st_data_t) (s : stepper_t) :
  ramp_type s = RAMP_DECEL ->
  is_u32 (delta_d s) ->
  is_u32 (rate_delta dat) ->
  let s' := ramp_adjust cfg dat s in
  delta_d s' =
    (if delta_d s >? rate_delta dat then delta_d s - rate_delta dat else delta_d s / 2) /\
  ramp_type s' = RAMP_DECEL /\
  d_per_tick s' = Z.max (MINIMUM_STEP_RATE cfg) (delta_d s').
Proof.
  unfold is_u32. intros Hdec Hrate Hdelta. destruct s. cbn in *. subst.
  unfold ramp_adjust, floor_rate. cbn. rewrite shiftr_1_half.
  case_cmp; cbn in *.
  - rewrite u32_small by lia. case_cmp; cbn in *; repeat split; lia.
  - case_cmp; cbn in *; repeat split; lia.
Qed.

(** What a ramp tick does to the machine. *)
Lemma isr_ramp_tick (cfg : config) (m : machine) (di : Z) (dat : st_data_t) :
  ramp_type (st m) <> 0 ->
  st_current_data m = Some di ->
  at_index (segment_data m) di = Some dat ->
  isr_ramp cfg m =
    Some (if u8 (ramp_count (st m) - 1) =? 0
          then with_st (fun s => ramp_adjust cfg dat
                  (set_ramp_count (u8 (ISR_TICKS_PER_ACCELERATION_TICK cfg)) s))
                 (with_st (set_ramp_count (u8 (ramp_count (st m) - 1))) m)
          else with_st (set_ramp_count (u8 (ramp_count (st m) - 1))) m).
Proof.
  intros Hr Hcur Hdat. unfold isr_ramp.
  destruct (Z.eqb_spec (ramp_type (st m)) 0) as [E | _]; [contradiction |].
  cbn [negb]. cbn.
  destruct (u8 (ramp_count (st m) - 1) =? 0); [| reflexivity].
  rewrite Hcur. cbn. rewrite Hdat. reflexivity.
Qed.

(** C6.  In the acceleration phase every tick leaves the rate [delta_d]
    where it was or raises it, and never above [nominal_rate].  On the tick
    that adjusts the rate (the ramp counter reaches zero) the new rate is
    [delta_d + rate_delta] clamped to [nominal_rate], and the phase becomes
    cruise exactly when the clamp is reached; so when [rate_delta] exceeds
    [nominal_rate - delta_d], as at the first adjustment of a block with
    [rate_delta > nominal_rate - initial_rate], the rate becomes
    [nominal_rate] at once.  The rate starts at or below [nominal_rate], and
    the sum fits the 32-bit field. *)
Theorem accel_ramp_clamps (cfg : config) (m : machine) (di : Z) (dat : st_data_t) :
  ramp_type (st m) = RAMP_ACCEL ->
  st_current_data m = Some di ->
  at_index (segment_data m) di = Some dat ->
  0 <= delta_d (st m) <= nominal_rate dat ->
  0 <= rate_delta dat ->
  nominal_rate dat + rate_delta dat < 2 ^ 32 ->
  exists m',
    isr_ramp cfg m = Some m' /\
    delta_d (st m) <= delta_d (st m') <= nominal_rate dat /\
    (u8 (ramp_count (st m) - 1) <> 0 ->
       delta_d (st m') = delta_d (st m) /\ ramp_type (st m') = RAMP_ACCEL) /\
    (u8 (ramp_count (st m) - 1) = 0 ->
       delta_d (st m') = Z.min (delta_d (st m) + rate_delta dat) (nominal_rate dat) /\
       ramp_type (st m') =
         (if delta_d (st m) + rate_delta dat >=? nominal_rate dat
          then RAMP_NOOP_CRUISE else RAMP_ACCEL) /\
       d_per_tick (st m') = Z.max (MINIMUM_STEP_RATE cfg) (delta_d (st m')) /\
       (nominal_rate dat - delta_d (st m) < rate_delta dat ->
          delta_d (st m') = nominal_rate dat /\ ramp_type (st m') = RAMP_NOOP_CRUISE)).
Proof.
  intros Hacc Hcur Hdat Hrate Hdelta Hfit.
  eexists. split.
  { apply (isr_ramp_tick cfg m di dat); [rewrite Hacc; discriminate | assumption..]. }
  destruct (Z.eqb_spec (u8 (ramp_count (st m) - 1)) 0) as [Hz | Hnz].
  - cbn [st with_st set_st].
    destruct (ramp_adjust_accel cfg dat
                (set_ramp_count (u8 (ISR_TICKS_PER_ACCELERATION_TICK cfg))
                   (set_ramp_count (u8 (ramp_count (st m) - 1)) (st m))))
      as (Hd & Ht & Hp); try assumption.
    cbn [delta_d set_ramp_count] in *.
    split; [lia |]. split; [intros; contradiction |]. intros _.
    split; [exact Hd |]. split; [exact Ht |]. split; [exact Hp |].
    intros Hbig. split; [lia |]. rewrite Ht.
    destruct (Z.geb_spec (delta_d (st m) + rate_delta dat) (nominal_rate dat));
      [reflexivity | lia].
  - cbn [st with_st set_st delta_d ramp_type set_ramp_count].
    split; [lia |]. split; [intros _; split; [reflexivity | exact Hacc] |].
    intros; contradiction.
Qed.

Lemma accel_ramp_clamps_witness :
  exists m',
    isr_ramp demo_cfg (demo_ramping RAMP_ACCEL) = Some m' /\
    delta_d (st m') = 10 /\ ramp_type (st m') = RAMP_NOOP_CRUISE.
Proof.
  destruct (accel_ramp_clamps demo_cfg (demo_ramping RAMP_ACCEL) 1 demo_data)
    as (m' & Hrun & _ & _ & Hadj);
    [reflexivity | reflexivity | reflexivity | cbn; lia | cbn; lia | cbn; lia |].
  exists m'. split; [exact Hrun |].
  destruct (Hadj eq_refl) as (_ & _ & _ & Hclamp).
  apply Hclamp. cbn. lia.
Defined.

(** C7, as the code has it.  In the deceleration phase every tick leaves the
    rate [delta_d] where it was or lowers it, never below zero, and the phase
    stays deceleration.  On the tick that adjusts the rate, [rate_delta] is
    subtracted when the current rate exceeds [rate_delta]; otherwise the
    rate is halved. *)
Theorem decel_ramp_lowers (cfg : config) (m : machine) (di : Z) (dat : st_data_t) :
  ramp_type (st m) = RAMP_DECEL ->
  st_current_data m = Some di ->
  at_index (segment_data m) di = Some dat ->
  is_u32 (delta_d (st m)) ->
  is_u32 (rate_delta dat) ->
  exists m',
    isr_ramp cfg m = Some m' /\
    0 <= delta_d (st m') <= delta_d (st m) /\
    ramp_type (st m') = RAMP_DECEL /\
    (u8 (ramp_count (st m) - 1) <> 0 -> delta_d (st m') = delta_d (st m)) /\
    (u8 (ramp_count (st m) - 1) = 0 ->
       delta_d (st m') =
         (if delta_d (st m) >? rate_delta dat
          then delta_d (st m) - rate_delta dat
          else delta_d (st m) / 2) /\
       d_per_tick (st m') = Z.max (MINIMUM_STEP_RATE cfg) (delta_d (st m'))).
Proof.
  intros Hdec Hcur Hdat Hrate Hdelta.
  eexists. split.
  { apply (isr_ramp_tick cfg m di dat); [rewrite Hdec; discriminate | assumption..]. }
  destruct (Z.eqb_spec (u8 (ramp_count (st m) - 1)) 0) as [Hz | Hnz].
  - cbn [st with_st set_st].
    destruct (ramp_adjust_decel cfg dat
                (set_ramp_count (u8 (ISR_TICKS_PER_ACCELERATION_TICK cfg))
                   (set_ramp_count (u8 (ramp_count (st m) - 1)) (st m))))
      as (Hd & Ht & Hp); try assumption.
    cbn [delta_d set_ramp_count] in *. unfold is_u32 in *.
    assert (0 <= delta_d (st m) / 2 <= delta_d (st m)).
    { split; [apply Z.div_pos; lia | apply Z.div_le_upper_bound; lia]. }
    split; [rewrite Hd; case_cmp; lia |]. split; [exact Ht |].
    split; [intros; contradiction |]. intros _. split; [exact Hd | exact Hp].
  - cbn [st with_st set_st delta_d ramp_type set_ramp_count]. unfold is_u32 in *.
    split; [lia |]. split; [exact Hdec |]. split; [reflexivity | intros; contradiction].
Qed.

Lemma decel_ramp_lowers_witness :
  exists m',
    isr_ramp demo_cfg (demo_ramping RAMP_DECEL) = Some m' /\ delta_d (st m') = 5.
Proof.
  destruct (decel_ramp_lowers demo_cfg (demo_ramping RAMP_DECEL) 1 demo_data)
    as (m' & Hrun & _ & _ & _ & Hadj);
    [reflexivity | reflexivity | reflexivity
    | unfold is_u32; cbn; lia | unfold is_u32; cbn; lia |].
  exists m'. split; [exact Hrun |].
  destruct (Hadj eq_refl) as (Hrate & _). exact Hrate.
Defined.

(** C7 as worded fails: at rate 8 with [rate_delta = 3] the wording halves
    the rate to 4, the handler subtracts and gets 5. *)
Lemma decel_rule_counterexample :
  exists m',
    ramp_type (st (demo_ramping RAMP_DECEL)) = RAMP_DECEL /\
    u8 (ramp_count (st (demo_ramping RAMP_DECEL)) - 1) = 0 /\
    isr_ramp demo_cfg (demo_ramping RAMP_DECEL) = Some m' /\
    delta_d (st m') = 5 /\
    spec_decel_rate (delta_d (st (demo_ramping RAMP_DECEL))) (rate_delta demo_data) = 4.
Proof.
  eexists. repeat split; reflexivity.
Qed.

(** ** Arrays *)

Lemma at_index_range {A} (l : list A) (i : Z) (x : A) :
  at_index l i = Some x -> 0 <= i < Z.of_nat (length l).
Proof.
  unfold at_index. destruct (Z.ltb_spec i 0); [discriminate |].
  intros Hx%lookup_lt_Some. lia.
Qed.

Lemma at_index_in_range {A} (l : list A) (i : Z) :
  0 <= i < Z.of_nat (length l) -> exists x, at_index l i = Some x.
Proof.
  intros H. unfold at_index. destruct (Z.ltb_spec i 0); [lia |].
  destruct (lookup_lt_is_Some_2 l (Z.to_nat i)) as [x Hx]; [lia |].
  exists x. exact Hx.
Qed.

Lemma at_index_store_eq {A} (l : list A) (i : Z) (x : A) :
  0 <= i < Z.of_nat (length l) -> at_index (store_index l i x) i = Some x.
Proof.
  intros H. unfold at_index, store_index. destruct (Z.ltb_spec i 0); [lia |].
  apply list_lookup_insert_eq. lia.
Qed.

Lemma at_index_store_ne {A} (l : list A) (i j : Z) (x : A) :
  0 <= i -> i <> j -> at_index (store_index l i x) j = at_index l j.
Proof.
  intros Hi Hne. unfold at_index, store_index. destruct (Z.ltb_spec j 0); [reflexivity |].
  apply list_lookup_insert_ne. lia.
Qed.

Lemma length_store_index {A} (l : list A) (i : Z) (x : A) :
  length (store_index l i x) = length l.
Proof. unfold store_index. apply length_insert. Qed.

(** ** Slicing a block *)

(** The size of a slice: at least one step, no more than the chunk asked
    for, than the steps left, and than the steps to the deceleration point
    while that lies ahead. *)
Lemma slice_n_step_range (n0 : Z) (d : st_data_t) :
  1 <= n0 <= 255 ->
  0 < step_events_remaining d ->
  let n := slice_n_step n0 d in
  1 <= n <= n0 /\ n <= step_events_remaining d /\
  (0 < decelerate_after d -> n <= decelerate_after d) /\
  (n = n0 \/ n = step_events_remaining d \/ n = decelerate_after d).
Proof.
  intros Hn Hrem. unfold slice_n_step. rewrite (u8_small n0) by lia.
  destruct (Z.gtb_spec n0 (step_events_remaining d)).
  - rewrite (u8_small (step_events_remaining d)) by lia.
    destruct (Z.gtb_spec (decelerate_after d) 0); [| lia].
    destruct (Z.gtb_spec (step_events_remaining d) (decelerate_after d)); [| lia].
    rewrite u8_small by lia. lia.
  - destruct (Z.gtb_spec (decelerate_after d) 0); [| lia].
    destruct (Z.gtb_spec n0 (decelerate_after d)); [| lia].
    rewrite u8_small by lia. lia.
Qed.

(** One slice: both counters lose the steps of the segment. *)
Lemma slice_counters (n0 idx : Z) (d : st_data_t) :
  1 <= n0 <= 255 ->
  0 < step_events_remaining d < 2 ^ 31 ->
  decelerate_after d < 2 ^ 31 ->
  - 2 ^ 31 <= decelerate_after d - step_events_remaining d ->
  let sd := slice n0 idx d in
  n_step (fst sd) = slice_n_step n0 d /\
  step_events_remaining (snd sd) = step_events_remaining d - n_step (fst sd) /\
  decelerate_after (snd sd) = decelerate_after d - n_step (fst sd) /\
  flag (fst sd) =
    (if step_events_remaining (snd sd) =? 0
     then if decelerate_after d =? 0 then ST_DECEL_EOB else ST_END_OF_BLOCK
     else if decelerate_after d =? 0 then ST_DECEL else ST_NOOP).
Proof.
  intros Hn Hrem Hda Hlow.
  destruct (slice_n_step_range n0 d Hn) as (H1 & H2 & H3 & _); [lia |].
  unfold slice. cbn.
  rewrite !i32_small by lia.
  unfold slice_flag. cbn. auto.
Qed.

(** C3, as the code has it.  [prep_segment] writes one segment into the
    slot at the head.  Its flag is chosen after [step_events_remaining] has
    lost the steps of the segment and before [decelerate_after] has:
    [ST_DECEL_EOB] if the steps left are now zero and [decelerate_after]
    was zero when the slice began, [ST_END_OF_BLOCK] if only the steps left
    are zero, [ST_DECEL] if only [decelerate_after] was zero when the slice
    began, [ST_NOOP] otherwise. *)
Theorem prep_segment_flag (m : machine) (pi : Z) (dat : st_data_t) :
  0 <= segment_buffer_head m < Z.of_nat (length (segment_buffer m)) ->
  st_prep_data m = Some pi ->
  at_index (segment_data m) pi = Some dat ->
  exists m' seg dat',
    prep_segment m = Some m' /\
    at_index (segment_buffer m') (segment_buffer_head m) = Some seg /\
    at_index (segment_data m') pi = Some dat' /\
    n_step seg = slice_n_step 250 dat /\
    step_events_remaining dat' = i32 (step_events_remaining dat - n_step seg) /\
    decelerate_after dat' = i32 (decelerate_after dat - n_step seg) /\
    flag seg =
      (if step_events_remaining dat' =? 0
       then if decelerate_after dat =? 0 then ST_DECEL_EOB else ST_END_OF_BLOCK
       else if decelerate_after dat =? 0 then ST_DECEL else ST_NOOP).
Proof.
  intros Hhead Hprep Hdat.
  destruct (at_index_in_range _ _ Hhead) as [old Hold].
  pose proof (at_index_range _ _ _ Hdat) as Hpi.
  unfold prep_segment. rewrite Hold. cbn. rewrite Hprep. cbn. rewrite Hdat. cbn.
  match goal with
  | |- context [if ?c then _ else _] => destruct c
  end;
    eexists _, _, _; (split; [reflexivity |]); cbn;
    rewrite at_index_store_eq by assumption;
    rewrite at_index_store_eq by assumption;
    repeat split; reflexivity.
Qed.

Lemma prep_segment_flag_witness :
  exists m' seg,
    prep_segment demo_staged = Some m' /\
    at_index (segment_buffer m') 0 = Some seg /\
    n_step seg = 50 /\ flag seg = ST_NOOP.
Proof.
  destruct (prep_segment_flag demo_staged 1 demo_data_100)
    as (m' & seg & dat' & Hrun & Hseg & _ & Hn & Hrem & _ & Hflag);
    [cbn; lia | reflexivity | reflexivity |].
  exists m', seg. split; [exact Hrun |]. split; [exact Hseg |].
  rewrite Hflag, Hrem, Hn. split; reflexivity.
Defined.

(** C3 as worded fails: the slice that brings [decelerate_after] from 50 to
    zero, with steps left, is flagged [ST_NOOP], not [ST_DECEL]. *)
Lemma slice_flag_counterexample :
  let sd := slice 250 1 demo_data_100 in
  n_step (fst sd) = 50 /\
  step_events_remaining (snd sd) = 50 /\
  decelerate_after (snd sd) = 0 /\
  flag (fst sd) = ST_NOOP /\
  spec_slice_flag (snd sd) = ST_DECEL /\
  flag (fst sd) <> spec_slice_flag (snd sd).
Proof.
  cbv. repeat split; try reflexivity. discriminate.
Qed.

Lemma slices_unfold (policy : nat -> Z) (idx : Z) (k fuel : nat) (d : st_data_t) :
  slices policy idx k (S fuel) d =
    slice (policy k) idx d ::
      (if step_events_remaining (snd (slice (policy k) idx d)) =? 0 then []
       else slices policy idx (S k) fuel (snd (slice (policy k) idx d))).
Proof. reflexivity. Qed.

(** C2, as the code has it.  Take any policy that asks for 1 to 255 steps
    per slice and a block of [N > 0] step events.  From slice to slice
    [step_events_remaining] falls, never below zero, and it is zero after the
    last slice.  [decelerate_after] loses the same steps, so it never grows;
    when it starts between 1 and [N] it is exactly zero after one of the
    slices.  It is not held at zero: after the last slice it is its first
    value less [N]. *)
Theorem slices_counters (policy : nat -> Z) (idx : Z) (fuel k : nat) (d : st_data_t) :
  (forall i, 1 <= policy i <= 255) ->
  0 < step_events_remaining d < 2 ^ 31 ->
  decelerate_after d < 2 ^ 31 ->
  - 2 ^ 31 <= decelerate_after d - step_events_remaining d ->
  step_events_remaining d <= Z.of_nat fuel ->
  let l := slices policy idx k fuel d in
  counters_descend d l /\
  (exists sd, last l = Some sd /\
     step_events_remaining (snd sd) = 0 /\
     decelerate_after (snd sd) = decelerate_after d - step_events_remaining d) /\
  (0 < decelerate_after d <= step_events_remaining d ->
     exists sd, In sd l /\ decelerate_after (snd sd) = 0).
Proof.
  intros Hpol. revert k d.
  induction fuel as [| fuel IH]; intros k d Hrem Hda Hlow Hfuel; [lia |].
  cbv zeta. rewrite slices_unfold.
  destruct (slice_counters (policy k) idx d (Hpol k) Hrem Hda Hlow) as (Hn & Hr & Ha & _).
  destruct (slice_n_step_range (policy k) d (Hpol k)) as (H1 & H2 & H3 & _); [lia |].
  rewrite <- Hn in H1, H2, H3.
  set (sd := slice (policy k) idx d) in *. clearbody sd.
  destruct (Z.eqb_spec (step_events_remaining (snd sd)) 0) as [Hz | Hnz].
  - split; [| split].
    + cbn. repeat split; lia.
    + exists sd. cbn. repeat split; lia.
    + intros Hrange. exists sd. split; [left; reflexivity | lia].
  - destruct (IH (S k) (snd sd)) as (Hdesc & (sl & Hlast & Hlz & Hla) & Hzero);
      [lia | lia | lia | lia |].
    split; [| split].
    + cbn. repeat split; try lia. exact Hdesc.
    + exists sl. split; [| split; [exact Hlz | lia]].
      destruct (slices policy idx (S k) fuel (snd sd)) as [| x l'];
        [discriminate | exact Hlast].
    + intros Hrange.
      destruct (Z.eq_dec (decelerate_after (snd sd)) 0) as [Hd0 | Hdn].
      * exists sd. split; [left; reflexivity | exact Hd0].
      * destruct Hzero as (sz & Hin & Hsz); [lia |].
        exists sz. split; [right; exact Hin | exact Hsz].
Qed.

Lemma slices_counters_witness :
  let l := slices (fun _ => 250) 1 0 100 demo_data_100 in
  counters_descend demo_data_100 l /\
  (exists sd, last l = Some sd /\
     step_events_remaining (snd sd) = 0 /\ decelerate_after (snd sd) = -50) /\
  (exists sd, In sd l /\ decelerate_after (snd sd) = 0).
Proof.
  destruct (slices_counters (fun _ => 250) 1 100 0 demo_data_100)
    as (Hdesc & Hlast & Hzero); [lia | cbn; lia | cbn; lia | cbn; lia | cbn; lia |].
  split; [exact Hdesc |]. split; [exact Hlast |].
  apply Hzero. cbn. lia.
Defined.

(** C2 as worded fails: a block of two step events that decelerates after
    the first is cut into two slices of one step, and [decelerate_after] is
    -1, not zero, when the block is complete. *)
Lemma decelerate_after_counterexample :
  exists sd1 sd2,
    slices (fun _ => 250) 1 0 2 demo_data_2 = [sd1; sd2] /\
    step_events_remaining (snd sd2) = 0 /\
    decelerate_after (snd sd2) = -1 /\
    decelerate_after (snd sd2) < 0.
Proof.
  eexists _, _. split; [reflexivity |]. cbv. repeat split; reflexivity.
Qed.

(** ** Ring indices *)

Lemma next_block_index_range (i : Z) :
  0 <= i < SEGMENT_BUFFER_SIZE ->
  0 <= next_block_index i < SEGMENT_BUFFER_SIZE /\
  next_block_index i = (i + 1) mod SEGMENT_BUFFER_SIZE.
Proof.
  unfold next_block_index, SEGMENT_BUFFER_SIZE. intros H.
  rewrite u8_small by lia.
  destruct (Z.eqb_spec (i + 1) 10) as [E | E].
  - rewrite E. split; [lia | reflexivity].
  - rewrite Z.mod_small by lia. lia.
Qed.

Lemma next_block_index_neq (i : Z) :
  0 <= i < SEGMENT_BUFFER_SIZE -> next_block_index i <> i.
Proof.
  unfold next_block_index, SEGMENT_BUFFER_SIZE. intros H.
  rewrite u8_small by lia. destruct (Z.eqb_spec (i + 1) 10); lia.
Qed.

Lemma next_block_pl_index_succ (i : Z) :
  0 <= i < BLOCK_BUFFER_SIZE - 1 -> next_block_pl_index i = i + 1.
Proof.
  unfold next_block_pl_index, BLOCK_BUFFER_SIZE. intros H.
  rewrite u8_small by lia.
  destruct (Z.eqb_spec (i + 1) 18); lia.
Qed.


Lemma ring_distance_cases (i x : Z) :
  0 <= i < SEGMENT_BUFFER_SIZE -> 0 <= x < SEGMENT_BUFFER_SIZE ->
  (i <= x /\ ring_distance i x = x - i) \/
  (x < i /\ ring_distance i x = x - i + SEGMENT_BUFFER_SIZE).
Proof.
  unfold ring_distance, SEGMENT_BUFFER_SIZE. intros Hi Hx.
  destruct (Z_le_gt_dec i x).
  - left. rewrite Z.mod_small by lia. lia.
  - right. split; [lia |].
    replace (x - i) with (x - i + 10 + (-1) * 10) by lia.
    rewrite Z_mod_plus_full. rewrite Z.mod_small by lia. lia.
Qed.

Lemma ring_distance_next (i x : Z) :
  0 <= i < SEGMENT_BUFFER_SIZE -> 0 <= x < SEGMENT_BUFFER_SIZE ->
  1 <= ring_distance i x ->
  ring_distance (next_block_index i) x = ring_distance i x - 1.
Proof.
  intros Hi Hx Hd.
  destruct (next_block_index_range i Hi) as [Hr Hn].
  destruct (ring_distance_cases i x Hi Hx) as [[? E] | [? E]];
    destruct (ring_distance_cases (next_block_index i) x Hr Hx) as [[? E'] | [? E']];
    rewrite E, E'; rewrite E in Hd; clear E E';
    unfold next_block_index, SEGMENT_BUFFER_SIZE in *;
    rewrite u8_small in * by lia;
    destruct (Z.eqb_spec (i + 1) 10); lia.
Qed.

Lemma ring_distance_zero (i x : Z) :
  0 <= i < SEGMENT_BUFFER_SIZE -> 0 <= x < SEGMENT_BUFFER_SIZE ->
  ring_distance i x = 0 -> x = i.
Proof.
  intros Hi Hx. unfold SEGMENT_BUFFER_SIZE in *.
  destruct (ring_distance_cases i x Hi Hx) as [[? E] | [? E]];
    rewrite E; unfold SEGMENT_BUFFER_SIZE; lia.
Qed.

Lemma ring_distance_self (i : Z) : ring_distance i i = 0.
Proof. unfold ring_distance. rewrite Z.sub_diag. reflexivity. Qed.

Lemma ring_distance_range (i x : Z) : 0 <= ring_distance i x < SEGMENT_BUFFER_SIZE.
Proof. unfold ring_distance, SEGMENT_BUFFER_SIZE. apply Z.mod_pos_bound. lia. Qed.

Lemma occupied_distance (m : machine) :
  occupied m = ring_distance (segment_buffer_tail m) (segment_buffer_head m).
Proof. reflexivity. Qed.

(** ** Sums over blocks *)

Lemma total_app (f : plan_block_t -> Z) (l1 l2 : list plan_block_t) :
  total f (l1 ++ l2) = total f l1 + total f l2.
Proof. induction l1 as [| b l1 IH]; cbn; [reflexivity | rewrite IH; lia]. Qed.

Lemma before_zero (f : plan_block_t -> Z) (bs : list plan_block_t) : before f bs 0 = 0.
Proof. reflexivity. Qed.

Lemma before_succ (f : plan_block_t -> Z) (bs : list plan_block_t) (d : Z) (b : plan_block_t) :
  at_index bs d = Some b -> before f bs (d + 1) = before f bs d + f b.
Proof.
  intros H. pose proof (at_index_range _ _ _ H) as Hr.
  unfold at_index in H. destruct (Z.ltb_spec d 0); [discriminate |].
  unfold before. replace (Z.to_nat (d + 1)) with (S (Z.to_nat d)) by lia.
  rewrite (take_S_r _ _ _ H), total_app. cbn. lia.
Qed.

(** ** Chains of segments *)

Lemma after_segment_impl (h : Z) (bs : list plan_block_t) (C C' : Z -> Z -> Prop)
    (r f j owed : Z) :
  (forall j o, C j o -> C' j o) ->
  after_segment h bs C r f j owed -> after_segment h bs C' r f j owed.
Proof.
  intros HC (Hr & Hj & H). split; [exact Hr |]. split; [exact Hj |].
  destruct (r =? owed); destruct H as [He Hc]; split; auto.
Qed.

Lemma chain_weaken (h : Z) (bs : list plan_block_t) (sb : list st_segment_t)
    (T T' : Z -> Z -> Prop) (n : nat) :
  (forall j o, T j o -> T' j o) ->
  forall i j o, chain h bs sb T n i j o -> chain h bs sb T' n i j o.
Proof.
  intros HT. induction n as [| n IH]; intros i j o; cbn.
  - apply HT.
  - intros (seg & Hs & Hd & Hn & Ha). exists seg. split; [exact Hs |]. split; [exact Hd |]. split; [exact Hn |].
    eapply after_segment_impl; [| exact Ha]. intros; apply IH; assumption.
Qed.

(** Whatever the ring holds, the preparation stands at its end. *)
Lemma chain_end (h : Z) (bs : list plan_block_t) (sb : list st_segment_t)
    (T : Z -> Z -> Prop) (n : nat) :
  forall i j o, chain h bs sb T n i j o -> exists j' o', T j' o'.
Proof.
  induction n as [| n IH]; intros i j o; cbn.
  - intros H. exists j, o. exact H.
  - intros (seg & _ & _ & _ & (_ & _ & Ha)).
    destruct (n_step seg =? o); destruct Ha as [_ Hc]; eapply IH; exact Hc.
Qed.

(** Writing the slot [n] places after [i] adds a segment to a chain of [n]. *)
Lemma chain_push (h : Z) (bs : list plan_block_t) (sb : list st_segment_t)
    (T T' : Z -> Z -> Prop) (x : Z) (seg : st_segment_t) :
  0 <= x < SEGMENT_BUFFER_SIZE ->
  length sb = 10%nat ->
  0 <= st_data_index seg < SEGMENT_BUFFER_SIZE ->
  n_step seg <= 255 ->
  (forall j o, T j o -> after_segment h bs T' (n_step seg) (flag seg) j o) ->
  forall (n : nat) i j o,
    0 <= i < SEGMENT_BUFFER_SIZE ->
    ring_distance i x = Z.of_nat n ->
    chain h bs sb T n i j o ->
    chain h bs (store_index sb x seg) T' (S n) i j o.
Proof.
  intros Hx Hlen Hdi Hns HT. unfold SEGMENT_BUFFER_SIZE in Hx.
  induction n as [| n IH]; intros i j o Hi Hdist Hc.
  - apply ring_distance_zero in Hdist; [| assumption | exact Hx]. subst x.
    cbn in Hc. cbn. exists seg.
    rewrite at_index_store_eq by (rewrite Hlen; lia).
    split; [reflexivity |]. split; [exact Hdi |]. split; [exact Hns |]. apply HT, Hc.
  - cbn in Hc. destruct Hc as (s0 & Hs0 & Hd0 & Hn0 & Ha).
    change (chain h bs (store_index sb x seg) T' (S (S n)) i j o) with
      (exists seg0,
         at_index (store_index sb x seg) i = Some seg0 /\
         0 <= st_data_index seg0 < SEGMENT_BUFFER_SIZE /\
         n_step seg0 <= 255 /\
         after_segment h bs
           (chain h bs (store_index sb x seg) T' (S n) (next_block_index i))
           (n_step seg0) (flag seg0) j o).
    exists s0.
    assert (x <> i).
    { intros E. subst x. rewrite ring_distance_self in Hdist. lia. }
    rewrite at_index_store_ne by lia.
    split; [exact Hs0 |]. split; [exact Hd0 |]. split; [exact Hn0 |].
    eapply after_segment_impl; [| exact Ha].
    intros j' o' Hc'. apply IH; [apply next_block_index_range; exact Hi | | exact Hc'].
    rewrite ring_distance_next; [lia | exact Hi | exact Hx | lia].
Qed.

(** Moving the start of a chain does not need the ring: a chain only reads
    its own slots. *)
Lemma chain_store_outside (h : Z) (bs : list plan_block_t) (sb : list st_segment_t)
    (T : Z -> Z -> Prop) (x : Z) (seg : st_segment_t) :
  0 <= x < SEGMENT_BUFFER_SIZE ->
  forall (n : nat) i j o,
    0 <= i < SEGMENT_BUFFER_SIZE ->
    Z.of_nat n <= ring_distance i x ->
    chain h bs sb T n i j o ->
    chain h bs (store_index sb x seg) T n i j o.
Proof.
  intros Hx. induction n as [| n IH]; intros i j o Hi Hdist Hc.
  - exact Hc.
  - cbn in Hc. destruct Hc as (s0 & Hs0 & Hd0 & Hn0 & Ha).
    cbn. exists s0.
    assert (x <> i).
    { intros E. subst x. rewrite ring_distance_self in Hdist. lia. }
    rewrite at_index_store_ne by lia.
    split; [exact Hs0 |]. split; [exact Hd0 |]. split; [exact Hn0 |].
    eapply after_segment_impl; [| exact Ha].
    intros j' o' Hc'. apply IH; [apply next_block_index_range; exact Hi | | exact Hc'].
    rewrite ring_distance_next; [lia | exact Hi | exact Hx | lia].
Qed.

(** ** Bits of the stepping port *)

Lemma bit_pow2 (k : Z) : 0 <= k -> bit k = 2 ^ k.
Proof. intros H. unfold bit. apply Z.shiftl_1_l. Qed.

Lemma testbit_bit (k i : Z) : 0 <= k -> Z.testbit (bit k) i = (k =? i).
Proof. intros H. rewrite bit_pow2 by exact H. apply Z.pow2_bits_eqb. exact H. Qed.

Lemma testbit_u8 (x i : Z) : 0 <= i < 8 -> Z.testbit (u8 x) i = Z.testbit x i.
Proof.
  intros H. unfold u8. change 256 with (2 ^ 8).
  apply Z.mod_pow2_bits_low. lia.
Qed.

Lemma testbit_u8_lor_bit (x k i : Z) :
  0 <= i < 8 -> 0 <= k ->
  Z.testbit (u8 (Z.lor x (bit k))) i = Z.testbit x i || (k =? i).
Proof.
  intros Hi Hk. rewrite testbit_u8 by exact Hi.
  rewrite Z.lor_spec, testbit_bit by exact Hk. reflexivity.
Qed.

Lemma land_bit_eqb (x k : Z) :
  0 <= k -> (Z.land x (bit k) =? 0) = negb (Z.testbit x k).
Proof.
  intros Hk. destruct (Z.testbit x k) eqn:E; cbn.
  - apply Z.eqb_neq. intros H.
    assert (Hb : Z.testbit (Z.land x (bit k)) k = true).
    { rewrite Z.land_spec, E, testbit_bit, Z.eqb_refl by exact Hk. reflexivity. }
    rewrite H, Z.bits_0 in Hb. discriminate.
  - apply Z.eqb_eq. apply Z.bits_inj'. intros n Hn.
    rewrite Z.land_spec, Z.bits_0, testbit_bit by exact Hk.
    destruct (Z.eqb_spec k n) as [-> | _].
    + rewrite E. reflexivity.
    + apply andb_false_r.
Qed.

(** ** What the tick interrupt leaves alone *)


Lemma isr_frame_refl (m : machine) : isr_frame m m.
Proof. constructor; reflexivity. Qed.

Lemma isr_frame_trans (m1 m2 m3 : machine) :
  isr_frame m1 m2 -> isr_frame m2 m3 -> isr_frame m1 m3.
Proof. intros [] []. constructor; congruence. Qed.

Lemma with_st_frame (f : stepper_t -> stepper_t) (m : machine) : isr_frame m (with_st f m).
Proof. constructor; reflexivity. Qed.


Lemma tracer_frame_trans (m1 m2 m3 : machine) :
  tracer_frame m1 m2 -> tracer_frame m2 m3 -> tracer_frame m1 m3.
Proof. intros [] []. constructor; congruence. Qed.

Lemma counter_set_counter (a b : axis) (x : Z) (s : stepper_t) :
  counter b (set_counter a x s) = if axis_eqb b a then x else counter b s.
Proof. destruct a, b; reflexivity. Qed.

Lemma out_bits_set_counter (a : axis) (x : Z) (s : stepper_t) :
  out_bits (set_counter a x s) = out_bits s.
Proof. destruct a; reflexivity. Qed.

Lemma axis_eqb_eq (a b : axis) : axis_eqb a b = true <-> a = b.
Proof. destruct a, b; cbn; split; congruence. Qed.

Lemma axis_eqb_refl (a : axis) : axis_eqb a a = true.
Proof. destruct a; reflexivity. Qed.

Lemma axis_eqb_neq (a b : axis) : a <> b -> axis_eqb a b = false.
Proof. destruct a, b; cbn; congruence. Qed.

Section Running.

Variable cfg : config.
Hypothesis Hcfg : config_ok cfg.
Variable pos0 : axis -> Z.

Lemma bresenham_axis_frame (blk : plan_block_t) (a : axis) (m : machine) :
  isr_frame m (bresenham_axis cfg blk a m) /\
  tracer_frame m (bresenham_axis cfg blk a m).
Proof.
  unfold bresenham_axis.
  cbn [st with_st set_st].
  destruct (counter a (set_counter a (i32 (counter a (st m) - steps blk a)) (st m)) <? 0).
  - match goal with
    | |- context [if ?c then _ else _] => destruct c
    end; split; constructor; destruct a; reflexivity.
  - split; constructor; destruct a; reflexivity.
Qed.

(** What one axis of the tracer does, when its counter is in range. *)
Lemma bresenham_axis_step (blk : plan_block_t) (a : axis) (m : machine) :
  0 < step_event_count blk < 2 ^ 31 ->
  0 <= steps blk a <= step_event_count blk ->
  0 <= counter a (st m) < step_event_count blk ->
  let m' := bresenham_axis cfg blk a m in
  let stepped := counter a (st m) - steps blk a <? 0 in
  counter a (st m') =
    counter a (st m) - steps blk a + (if stepped then step_event_count blk else 0) /\
  position (sys m') a =
    (if stepped
     then if Z.testbit (out_bits (st m)) (direction_bit cfg a)
          then i32 (position (sys m) a - 1) else i32 (position (sys m) a + 1)
     else position (sys m) a) /\
  (forall b, b <> a ->
     counter b (st m') = counter b (st m) /\
     position (sys m') b = position (sys m) b) /\
  (forall i, 0 <= i < 8 ->
     Z.testbit (out_bits (st m')) i =
       Z.testbit (out_bits (st m)) i || (stepped && (step_bit cfg a =? i))).
Proof.
  intros HN Hs Hc. cbv zeta.
  destruct Hcfg as [Hsr Hdr Hsd Hsn _].
  pose proof (Hsr a) as Hsa. pose proof (Hdr a) as Hda. pose proof (Hsn a a) as Hna.
  unfold bresenham_axis.
  destruct m as [s sd sb tl hd nh bz pcb scs scd ppb ppi spd sdpi sy stg pl av lg].
  destruct s, sy.
  destruct a; cbn in *.
  all: rewrite (i32_small (_ - steps blk _)) by lia.
  all: match goal with |- context [?x <? 0] => destruct (Z.ltb_spec x 0) end; cbn.
  all: try (split; [lia |]; split; [reflexivity |]; split;
            [intros b Hb; destruct b; try contradiction; split; reflexivity
            | intros i Hi; rewrite orb_false_r; reflexivity]).
  all: rewrite land_bit_eqb by lia; rewrite negb_involutive.
  all: rewrite testbit_u8_lor_bit by lia.
  all: match goal with |- context [?x =? ?y] => destruct (Z.eqb_spec x y); [contradiction |] end.
  all: rewrite orb_false_r.
  all: match goal with |- context [Z.testbit ?x ?y] => destruct (Z.testbit x y) end; cbn.
  all: rewrite (i32_small (_ + step_event_count blk)) by lia.
  all: split; [lia |]; split; [reflexivity |]; split;
            [intros b Hb; destruct b; try contradiction; split; reflexivity
            | intros i Hi; apply testbit_u8_lor_bit; lia].
Qed.
Lemma prep_tail_frame (m m' : machine) (j o : Z) :
  isr_frame m m' -> prep_tail m j o -> prep_tail m' j o.
Proof.
  intros Hf H. unfold prep_tail in *.
  rewrite (fr_prep_index _ _ Hf), (fr_prep_block _ _ Hf), (fr_prep_data _ _ Hf),
    (fr_data_prep_index _ _ Hf), (fr_data _ _ Hf), (fr_blocks _ _ Hf),
    (fr_blocks_head _ _ Hf).
  exact H.
Qed.

Lemma chain_frame (m m' : machine) (n : nat) (i j o : Z) :
  isr_frame m m' ->
  chain (block_buffer_head (planner m)) (block_buffer (planner m))
    (segment_buffer m) (prep_tail m) n i j o ->
  chain (block_buffer_head (planner m')) (block_buffer (planner m'))
    (segment_buffer m') (prep_tail m') n i j o.
Proof.
  intros Hf H. rewrite (fr_blocks _ _ Hf), (fr_blocks_head _ _ Hf), (fr_buffer _ _ Hf).
  eapply chain_weaken; [| exact H]. intros; eapply prep_tail_frame; eassumption.
Qed.


Lemma occupied_same (m m' : machine) :
  segment_buffer_head m' = segment_buffer_head m ->
  segment_buffer_tail m' = segment_buffer_tail m ->
  occupied m' = occupied m.
Proof. unfold occupied. intros -> ->. reflexivity. Qed.

Lemma invariant_at_same (pc : prep_pc) (owed : Z) (m m' : machine) :
  isr_same cfg m m' ->
  invariant_at cfg pos0 (m, pc) owed -> invariant_at cfg pos0 (m', pc) owed.
Proof.
  intros Hs Hi. destruct Hs as [Hf Hpl Htl Hseg Hblk Hcd Hlf Hst Hctr Hpos Hpul Hev Hdis].
  pose proof (occupied_same m m' (fr_head _ _ Hf) Htl) as Hocc.
  pose proof (ia_view _ _ _ _ Hi) as Hview.
  pose proof (ia_tracer _ _ _ _ Hi) as Htr.
  destruct Hi. cbn [fst snd] in *.
  constructor; cbn [fst snd];
    rewrite ?(fr_data _ _ Hf), ?(fr_buffer _ _ Hf), ?(fr_head _ _ Hf),
      ?(fr_next_head _ _ Hf), ?(fr_prep_block _ _ Hf), ?(fr_prep_index _ _ Hf),
      ?(fr_data_prep_index _ _ Hf), ?Hpl, ?Htl, ?Hlf, ?Hblk, ?Hcd, ?Hev, ?Hdis, ?Hocc;
    try assumption.
  - (* view *)
    unfold isr_view in *. cbn [fst snd] in *. unfold queued in *. cbn [fst snd] in *.
    rewrite Hlf, Hocc, Hseg, Htl, Hst, Hpl, (fr_buffer _ _ Hf).
    destruct (load_flag (st m) =? LOAD_NOOP).
    + destruct Hview as (H1 & H2 & H3 & seg & H4 & H5).
      split; [exact H1 |]. split; [exact H2 |]. split; [exact H3 |].
      exists seg. split; [exact H4 |].
      eapply after_segment_impl; [| exact H5].
      intros j o Hc. eapply chain_weaken; [| exact Hc].
      intros; eapply prep_tail_frame; eassumption.
    + eapply chain_weaken; [| exact Hview].
      intros; eapply prep_tail_frame; eassumption.
  - (* tracer *)
    intros a. specialize (Htr a). unfold tracer in *.
    rewrite Hpl, Hpos, Hpul, Hlf, Hctr. exact Htr.
Qed.


Lemma st_same_refl (s : stepper_t) : st_same s s.
Proof. constructor; reflexivity. Qed.

Lemma st_same_trans (s1 s2 s3 : stepper_t) : st_same s1 s2 -> st_same s2 s3 -> st_same s1 s3.
Proof. intros [] []. constructor; congruence. Qed.

Lemma floor_rate_same (s : stepper_t) : st_same s (floor_rate cfg s).
Proof. unfold floor_rate. destruct (delta_d s <? MINIMUM_STEP_RATE cfg); constructor; reflexivity. Qed.

Lemma ramp_adjust_same (dat : st_data_t) (s : stepper_t) : st_same s (ramp_adjust cfg dat s).
Proof.
  unfold ramp_adjust. eapply st_same_trans; [| apply floor_rate_same].
  repeat match goal with
         | |- context [if ?c then _ else _] => destruct c
         end; constructor; reflexivity.
Qed.

Lemma isr_check_decel_same (seg : st_segment_t) (s : stepper_t) :
  st_same s (isr_check_decel cfg seg s).
Proof.
  unfold isr_check_decel.
  repeat match goal with
         | |- context [if ?c then _ else _] => destruct c
         end; constructor; reflexivity.
Qed.

Lemma latched_same (a : axis) (m m' : machine) :
  execute_step (st m') = execute_step (st m) ->
  out_bits (st m') = out_bits (st m) ->
  settings m' = settings m ->
  latched cfg a m' = latched cfg a m.
Proof. unfold latched. intros -> -> ->. reflexivity. Qed.

Lemma isr_same_refl (m : machine) : isr_same cfg m m.
Proof. constructor; try reflexivity. apply isr_frame_refl. Qed.

Lemma isr_same_trans (m1 m2 m3 : machine) : isr_same cfg m1 m2 -> isr_same cfg m2 m3 -> isr_same cfg m1 m3.
Proof.
  intros H1 H2. constructor;
    try (eapply isr_frame_trans; [apply H1 | apply H2]);
    try (etransitivity; [apply H2 | apply H1]);
    intros a; (etransitivity; [apply H2 | apply H1]).
Qed.

(** A change of [st] that keeps the fields above is not seen. *)
Lemma isr_same_with_st (f : stepper_t -> stepper_t) (m : machine) :
  st_same (st m) (f (st m)) -> isr_same cfg m (with_st f m).
Proof.
  intros []. constructor; cbn; try reflexivity; try assumption.
  - constructor; reflexivity.
  - intros []; cbn; assumption.
  - intros a. f_equal. apply latched_same; cbn; auto.
Qed.

Lemma isr_same_set_busy (b : bool) (m : machine) : isr_same cfg m (set_busy b m).
Proof.
  constructor; try reflexivity. constructor; reflexivity.
Qed.

(** The pulse phase moves the latched pulse to the port. *)
Lemma isr_pulse_same (m : machine) :
  isr_same cfg m (isr_pulse cfg m) /\ execute_step (st (isr_pulse cfg m)) = false.
Proof.
  unfold isr_pulse. destruct (execute_step (st m)) eqn:E.
  - split; [| reflexivity].
    constructor; cbn; try reflexivity; try (constructor; reflexivity);
      try (intros []; reflexivity).
    intros a. unfold latched. cbn. rewrite E. cbn.
      unfold pulse_on. rewrite Z.lor_spec, Z.ldiff_spec.
      rewrite (step_mask_covers cfg Hcfg a). cbn.
      rewrite andb_false_r, orb_false_l. destruct (xorb _ _); lia.
  - split; [apply isr_same_refl | exact E].
Qed.

(** Going idle does not touch the motion. *)
Lemma st_go_idle_same (m : machine) : isr_same cfg m (st_go_idle cfg m).
Proof.
  unfold st_go_idle. cbn.
  destruct (negb (stepper_idle_lock_time (settings m) =? 255)
            || bit_istrue (execute (sys m)) (EXEC_ALARM cfg)).
  - destruct (bit_istrue (flags (settings m)) (BITFLAG_INVERT_ST_ENABLE cfg));
      constructor; cbn; try reflexivity; try (constructor; reflexivity).
  - constructor; cbn; try reflexivity. constructor; reflexivity.
Qed.

Lemma set_execute_same (x : Z) (m : machine) : isr_same cfg m (set_sys (set_execute x (sys m)) m).
Proof.
  constructor; cbn; try reflexivity. constructor; reflexivity.
Qed.

(** The ramp phase. *)
Lemma isr_ramp_same (m : machine) :
  (exists di dat, st_current_data m = Some di /\ at_index (segment_data m) di = Some dat) ->
  exists m', isr_ramp cfg m = Some m' /\ isr_same cfg m m' /\
    execute_step (st m') = execute_step (st m) /\ out_bits (st m') = out_bits (st m) /\
    log m' = log m.
Proof.
  intros (di & dat & Hcur & Hdat). unfold isr_ramp.
  destruct (negb (ramp_type (st m) =? 0));
    [| eexists; split; [reflexivity | split; [apply isr_same_refl | auto]]].
  cbn [st with_st set_st ramp_count set_ramp_count].
  destruct (u8 (ramp_count (st m) - 1) =? 0).
  - cbn [st_current_data with_st set_st segment_data]. rewrite Hcur. cbn [mbind option_bind].
    rewrite Hdat. cbn [mbind option_bind]. eexists. split; [reflexivity |].
    split.
    + eapply isr_same_trans; [| eapply isr_same_trans];
        [| | apply isr_same_with_st; apply ramp_adjust_same];
        apply isr_same_with_st; constructor; reflexivity.
    + cbn [st with_st set_st log].
      match goal with
      | |- context [ramp_adjust cfg dat ?s] =>
          pose proof (ramp_adjust_same dat s) as [Rx Ry Rz Rs Re Ro Rl]
      end.
      rewrite Re, Ro. auto.
  - eexists. split; [reflexivity |]. split; [| auto].
    apply isr_same_with_st. constructor; reflexivity.
Qed.

Lemma occupied_nonempty (m : machine) :
  0 <= segment_buffer_head m < SEGMENT_BUFFER_SIZE ->
  0 <= segment_buffer_tail m < SEGMENT_BUFFER_SIZE ->
  segment_buffer_head m <> segment_buffer_tail m ->
  1 <= occupied m.
Proof.
  intros Hh Ht Hne. rewrite occupied_distance.
  destruct (ring_distance_cases _ _ Ht Hh) as [[? E] | [? E]]; rewrite E;
    unfold SEGMENT_BUFFER_SIZE in *; lia.
Qed.

Lemma occupied_empty (m : machine) :
  segment_buffer_head m = segment_buffer_tail m -> occupied m = 0.
Proof. intros E. rewrite occupied_distance, E. apply ring_distance_self. Qed.

Lemma queued_succ (m : machine) (pc : prep_pc) :
  1 <= occupied m -> exists n, queued (m, pc) = S n.
Proof.
  intros H. unfold queued. cbn [fst snd].
  exists (Nat.pred (Z.to_nat (occupied m + match pc with PrepPubHead => 1 | _ => 0 end))).
  destruct pc; lia.
Qed.

Lemma isr_load_block_run (seg : st_segment_t) (m : machine) (d : Z)
    (blk : plan_block_t) (dat : st_data_t) :
  plan_get_current_block (planner m) = Some d ->
  at_index (block_buffer (planner m)) d = Some blk ->
  at_index (segment_data m) (st_data_index seg) = Some dat ->
  exists s',
    isr_load_block cfg seg m =
      Some (set_st s' (set_st_current_data (Some (st_data_index seg))
                         (set_pl_current_block (Some d) m))) /\
    (forall a, counter a s' = Z.shiftr (step_event_count blk) 1) /\
    out_bits s' = Z.lxor (direction_bits blk) (invert_mask (settings m)) /\
    execute_step s' = true /\
    segment_steps_remaining s' = segment_steps_remaining (st m) /\
    load_flag s' = load_flag (st m).
Proof.
  intros Hget Hblk Hdat. unfold isr_load_block.
  cbn [planner set_pl_current_block set_st_current_data pl_current_block].
  rewrite Hget. cbn [mbind option_bind]. rewrite Hblk. cbn [mbind option_bind].
  cbn -[at_index floor_rate Z.shiftr Z.lxor Z.div]. rewrite Hdat.
  cbn -[at_index floor_rate Z.shiftr Z.lxor Z.div].
  eexists. split; [reflexivity |].
  cbn [st set_st].
  match goal with
  | |- context [floor_rate cfg ?s] =>
      pose proof (floor_rate_same s) as [Hx Hy Hz Hs He Ho Hl]
  end.
  rewrite He, Ho, Hs, Hl.
  split; [intros []; cbn [counter]; rewrite ?Hx, ?Hy, ?Hz; reflexivity |].
  cbn. repeat split; reflexivity.
Qed.

Lemma half_range (n : Z) : 0 < n -> 0 <= Z.shiftr n 1 < n.
Proof.
  intros H. rewrite shiftr_1_half.
  split; [apply Z.div_pos; lia | apply Z.div_lt_upper_bound; lia].
Qed.

Lemma count_at_block (bs : list plan_block_t) (d : Z) (blk : plan_block_t) :
  at_index bs d = Some blk -> count_at bs d = step_event_count blk.
Proof. unfold count_at. intros ->. reflexivity. Qed.

Lemma sign_at_block (bs : list plan_block_t) (d : Z) (blk : plan_block_t) (a : axis) :
  at_index bs d = Some blk -> sign_at cfg bs d a = direction_sign cfg a blk.
Proof. unfold sign_at. intros ->. reflexivity. Qed.

Lemma isr_view_loaded (s : machine * prep_pc) (owed : Z) (seg : st_segment_t) :
  load_flag (st (fst s)) = LOAD_NOOP ->
  1 <= occupied (fst s) ->
  st_current_segment (fst s) = Some (segment_buffer_tail (fst s)) ->
  segment_steps_remaining (st (fst s)) <= 255 ->
  at_index (segment_buffer (fst s)) (segment_buffer_tail (fst s)) = Some seg ->
  after_segment (block_buffer_head (planner (fst s))) (block_buffer (planner (fst s)))
    (chain (block_buffer_head (planner (fst s))) (block_buffer (planner (fst s)))
       (segment_buffer (fst s)) (prep_tail (fst s)) (Nat.pred (queued s))
       (next_block_index (segment_buffer_tail (fst s))))
    (segment_steps_remaining (st (fst s))) (flag seg)
    (block_buffer_tail (planner (fst s))) owed ->
  isr_view s owed.
Proof.
  intros Hl Ho Hs Hr Hseg Ha. unfold isr_view. cbv zeta. rewrite Hl. cbn [Z.eqb LOAD_NOOP].
  split; [exact Ho |]. split; [exact Hs |]. split; [exact Hr |].
  exists seg. split; [exact Hseg | exact Ha].
Qed.

(** The part of the invariant that is about the interrupt's own
    variables; the rest follows from the frame. *)
Lemma invariant_at_isr (pc : prep_pc) (owed owed' : Z) (m m' : machine) :
  invariant_at cfg pos0 (m, pc) owed ->
  isr_frame m m' ->
  0 <= segment_buffer_tail m' < SEGMENT_BUFFER_SIZE ->
  occupied m' <= occupied m ->
  0 <= block_buffer_tail (planner m') <= block_buffer_head (planner m') ->
  (load_flag (st m') = LOAD_NOOP \/ load_flag (st m') = LOAD_LINE \/
   load_flag (st m') = LOAD_BLOCK) ->
  isr_view (m', pc) owed' ->
  (load_flag (st m') <> LOAD_BLOCK ->
   pl_current_block m' = Some (block_buffer_tail (planner m')) /\
   block_buffer_tail (planner m') < block_buffer_head (planner m') /\
   0 < owed' <= count_at (block_buffer (planner m')) (block_buffer_tail (planner m')) /\
   exists di, st_current_data m' = Some di /\ 0 <= di < SEGMENT_BUFFER_SIZE) ->
  (load_flag (st m') = LOAD_BLOCK ->
   owed' = count_at (block_buffer (planner m')) (block_buffer_tail (planner m'))) ->
  (forall a, tracer cfg pos0 m' owed' a) ->
  step_events (log m') =
    before step_event_count (block_buffer (planner m')) (block_buffer_tail (planner m'))
    + (count_at (block_buffer (planner m')) (block_buffer_tail (planner m')) - owed') ->
  discards (log m') = block_buffer_tail (planner m') ->
  invariant_at cfg pos0 (m', pc) owed'.
Proof.
  intros Hi Hf Htl Hocc Hpl Hlf Hview Hcur Hfresh Htr Hev Hdis.
  destruct Hi. cbn [fst snd] in *.
  constructor; cbn [fst snd]; try assumption;
    rewrite ?(fr_data _ _ Hf), ?(fr_buffer _ _ Hf), ?(fr_head _ _ Hf),
      ?(fr_next_head _ _ Hf), ?(fr_prep_block _ _ Hf), ?(fr_prep_index _ _ Hf),
      ?(fr_data_prep_index _ _ Hf), ?(fr_blocks _ _ Hf), ?(fr_blocks_head _ _ Hf);
    try assumption.
  - pose proof (fr_blocks_head _ _ Hf). lia.
  - destruct pc; try exact I; lia.
Qed.

(** Chains do not read what the interrupt writes. *)
Lemma after_chain_frame (m m' : machine) (n : nat) (i r f j o : Z) :
  isr_frame m m' ->
  after_segment (block_buffer_head (planner m)) (block_buffer (planner m))
    (chain (block_buffer_head (planner m)) (block_buffer (planner m))
       (segment_buffer m) (prep_tail m) n i) r f j o ->
  after_segment (block_buffer_head (planner m')) (block_buffer (planner m'))
    (chain (block_buffer_head (planner m')) (block_buffer (planner m'))
       (segment_buffer m') (prep_tail m') n i) r f j o.
Proof.
  intros Hf H. rewrite (fr_blocks _ _ Hf), (fr_blocks_head _ _ Hf), (fr_buffer _ _ Hf).
  eapply after_segment_impl; [| exact H].
  intros j' o' Hc. eapply chain_weaken; [| exact Hc].
  intros; eapply prep_tail_frame; eassumption.
Qed.

Lemma queued_same (m m' : machine) (pc : prep_pc) :
  segment_buffer_head m' = segment_buffer_head m ->
  segment_buffer_tail m' = segment_buffer_tail m ->
  queued (m', pc) = queued (m, pc).
Proof. intros Hh Ht. unfold queued. cbn [fst snd]. rewrite (occupied_same m m' Hh Ht). reflexivity. Qed.

(** Loading the segment at the tail. *)
Lemma isr_load_segment_invariant (pc : prep_pc) (owed : Z) (m : machine) :
  invariant_at cfg pos0 (m, pc) owed ->
  load_flag (st m) <> LOAD_NOOP ->
  segment_buffer_head m <> segment_buffer_tail m ->
  execute_step (st m) = false ->
  exists m',
    isr_load_segment cfg m = Some m' /\
    invariant_at cfg pos0 (m', pc) owed /\
    load_flag (st m') = LOAD_NOOP /\
    (forall a, latched cfg a m' = 0) /\
    isr_frame m m' /\ log m' = log m /\
    segment_buffer_tail m' = segment_buffer_tail m.
Proof.
  intros Hi Hload Hne Hex.
  pose proof (ia_view _ _ _ _ Hi) as Hview.
  pose proof (ia_tracer _ _ _ _ Hi) as Htr.
  pose proof (ia_load _ _ _ _ Hi) as Hlf.
  pose proof (ia_head _ _ _ _ Hi) as Hhead.
  pose proof (ia_tail _ _ _ _ Hi) as Htail.
  pose proof (ia_current _ _ _ _ Hi) as Hcur.
  pose proof (ia_fresh _ _ _ _ Hi) as Hfresh.
  pose proof (ia_blocks _ _ _ _ Hi) as Hblocks.
  pose proof (ia_data _ _ _ _ Hi) as Hdata.
  pose proof (ia_planner _ _ _ _ Hi) as Hplan.
  pose proof (ia_events _ _ _ _ Hi) as Hev.
  pose proof (ia_discards _ _ _ _ Hi) as Hdis.
  cbn [fst snd] in *.
  pose proof (occupied_nonempty m Hhead Htail Hne) as Hocc.
  destruct (queued_succ m pc Hocc) as [n Hq].
  unfold isr_view in Hview. cbn [fst snd] in Hview.
  destruct (Z.eqb_spec (load_flag (st m)) LOAD_NOOP) as [E | _]; [contradiction |].
  rewrite Hq in Hview. cbn [chain] in Hview.
  destruct Hview as (seg & Hseg & Hdi & Hns & Hafter).
  pose proof Hafter as (Hr & Hj & _).
  destruct (at_index_in_range (segment_data m) (st_data_index seg)) as [dat Hdat];
    [rewrite Hdata; unfold SEGMENT_BUFFER_SIZE in Hdi; lia |].
  destruct (Hblocks _ Hj) as (blk & Hblk & Hok).
  pose proof (count_at_block _ _ _ Hblk) as HN.
  pose proof (count_range cfg blk Hok) as HNr.
  unfold isr_load_segment. cbn [segment_buffer segment_buffer_tail set_st_current_segment].
  rewrite Hseg. cbn [mbind option_bind].
  set (m1 := with_st (set_segment_steps_remaining (n_step seg))
               (set_st_current_segment (Some (segment_buffer_tail m)) m)).
  change (load_flag (st m1)) with (load_flag (st m)).
  destruct (Z.eqb_spec (load_flag (st m)) LOAD_BLOCK) as [Eb | Enb].
  - (* a new block *)
    destruct (isr_load_block_run seg m1
                (block_buffer_tail (planner m)) blk dat)
      as (s' & Hrun & Hctr & Hout & Hexe & Hssr & Hlfs); [| exact Hblk | exact Hdat |].
    { unfold plan_get_current_block. cbn [m1 planner with_st set_st set_st_current_segment].
      destruct (Z.eqb_spec (block_buffer_head (planner m)) (block_buffer_tail (planner m)));
        [lia | reflexivity]. }
    rewrite Hrun. cbn [mbind option_bind].
    change (settings m1) with (settings m) in Hout.
    change (segment_steps_remaining (st m1)) with (n_step seg) in Hssr.
    change (load_flag (st m1)) with (load_flag (st m)) in Hlfs.
    pose proof (isr_check_decel_same seg s') as [Dx Dy Dz Ds De Do Dl].
    eexists. split; [reflexivity |].
    match goal with
    | |- invariant_at _ _ (?M, _) _ /\ _ => set (m' := M)
    end.
    assert (Hf : isr_frame m m') by (constructor; reflexivity).
    assert (Hpl : planner m' = planner m) by reflexivity.
    assert (Htl : segment_buffer_tail m' = segment_buffer_tail m) by reflexivity.
    assert (Hlog : log m' = log m) by reflexivity.
    assert (Hsys : sys m' = sys m) by reflexivity.
    assert (Hseg' : st_current_segment m' = Some (segment_buffer_tail m)) by reflexivity.
    assert (Hlf' : load_flag (st m') = LOAD_NOOP) by reflexivity.
    assert (Hssr' : segment_steps_remaining (st m') = n_step seg)
      by (cbn; rewrite Ds, Hssr; reflexivity).
    assert (Hex' : execute_step (st m') = true) by (cbn; rewrite De; exact Hexe).
    assert (Hout' : out_bits (st m') = Z.lxor (direction_bits blk) (invert_mask (settings m)))
      by (cbn; rewrite Do; exact Hout).
    assert (Hctr' : forall a, counter a (st m') = Z.shiftr (step_event_count blk) 1).
    { intros a. rewrite <- (Hctr a). destruct a; cbn; assumption. }
    assert (Hpcb : pl_current_block m' = Some (block_buffer_tail (planner m))) by reflexivity.
    assert (Hscd : st_current_data m' = Some (st_data_index seg)) by reflexivity.
    clearbody m'. clear Hrun m1.
    assert (Hlat : forall a, latched cfg a m' = 0).
    { intros a. unfold latched. rewrite Hex', Hout', (fr_settings _ _ Hf). cbn [andb].
      unfold pulse_on. rewrite Z.lxor_spec, (direction_only cfg blk Hok a).
      cbn. rewrite xorb_nilpotent. reflexivity. }
    split; [| split; [exact Hlf' | split; [exact Hlat | auto]]].
    apply (invariant_at_isr pc owed owed m m' Hi Hf); rewrite ?Hpl, ?Htl, ?Hlog; try assumption.
    + rewrite (occupied_same m m' (fr_head _ _ Hf) Htl). lia.
    + lia.
    + left. exact Hlf'.
    + apply (isr_view_loaded _ _ seg); cbn [fst snd]; rewrite ?Htl, ?Hssr'; try assumption.
      * rewrite (occupied_same m m' (fr_head _ _ Hf) Htl). exact Hocc.
      * rewrite (fr_buffer _ _ Hf). exact Hseg.
      * rewrite (queued_same m m' pc (fr_head _ _ Hf) Htl), Hq, Hpl. cbn [Nat.pred].
        rewrite <- Hpl at 1 2 3 4. apply (after_chain_frame m m' n _ _ _ _ _ Hf).
        exact Hafter.
    + intros _. split; [exact Hpcb |]. split; [lia |].
      split; [rewrite (Hfresh Eb); lia |]. exists (st_data_index seg). auto.
    + intros Hc. rewrite Hlf' in Hc. discriminate Hc.
    + intros a. specialize (Htr a). unfold tracer in *. cbv zeta in *.
      rewrite Hpl, Hsys, Hlog, Hlat, Hlf', (fr_settings _ _ Hf), Hctr'.
      rewrite Eb in Htr. destruct Htr as (k & Hpos & Hpul & Hk).
      cbn in Hk. subst k. exists 0.
      split; [exact Hpos |]. split.
      { unfold latched in Hpul. rewrite Hex in Hpul. exact Hpul. }
      cbn. exists blk. split; [exact Hblk |].
      split; [apply half_range; lia |].
      rewrite (Hfresh Eb), HN. lia.
  - (* the same block goes on *)
    assert (Eline : load_flag (st m) = LOAD_LINE) by (destruct Hlf as [? | [? | ?]]; congruence).
    cbn [mbind option_bind]. subst m1.
    pose proof (isr_check_decel_same seg (set_segment_steps_remaining (n_step seg) (st m)))
      as [Dx Dy Dz Ds De Do Dl].
    eexists. split; [reflexivity |].
    match goal with
    | |- invariant_at _ _ (?M, _) _ /\ _ => set (m' := M)
    end.
    assert (Hf : isr_frame m m') by (constructor; reflexivity).
    assert (Hpl : planner m' = planner m) by reflexivity.
    assert (Htl : segment_buffer_tail m' = segment_buffer_tail m) by reflexivity.
    assert (Hlog : log m' = log m) by reflexivity.
    assert (Hsys : sys m' = sys m) by reflexivity.
    assert (Hseg' : st_current_segment m' = Some (segment_buffer_tail m)) by reflexivity.
    assert (Hlf' : load_flag (st m') = LOAD_NOOP) by reflexivity.
    assert (Hssr' : segment_steps_remaining (st m') = n_step seg)
      by (cbn; rewrite Ds; reflexivity).
    assert (Hex' : execute_step (st m') = false) by (cbn; rewrite De; exact Hex).
    assert (Hctr' : forall a, counter a (st m') = counter a (st m)).
    { intros a. destruct a; cbn; assumption. }
    assert (Hpcb : pl_current_block m' = pl_current_block m) by reflexivity.
    assert (Hscd : st_current_data m' = st_current_data m) by reflexivity.
    clearbody m'. clear Dx Dy Dz Ds De Do Dl.
    assert (Hlat : forall a, latched cfg a m' = 0).
    { intros a. unfold latched. rewrite Hex'. reflexivity. }
    split; [| split; [exact Hlf' | split; [exact Hlat | auto]]].
    destruct (Hcur Enb) as (Hpcb0 & Hdh & Howed & di & Hscd0 & Hdir).
    apply (invariant_at_isr pc owed owed m m' Hi Hf); rewrite ?Hpl, ?Htl, ?Hlog; try assumption.
    + rewrite (occupied_same m m' (fr_head _ _ Hf) Htl). lia.
    + lia.
    + left. exact Hlf'.
    + apply (isr_view_loaded _ _ seg); cbn [fst snd]; rewrite ?Htl, ?Hssr'; try assumption.
      * rewrite (occupied_same m m' (fr_head _ _ Hf) Htl). exact Hocc.
      * rewrite (fr_buffer _ _ Hf). exact Hseg.
      * rewrite (queued_same m m' pc (fr_head _ _ Hf) Htl), Hq, Hpl. cbn [Nat.pred].
        rewrite <- Hpl at 1 2 3 4. apply (after_chain_frame m m' n _ _ _ _ _ Hf).
        exact Hafter.
    + intros _. rewrite Hpcb, Hscd. split; [exact Hpcb0 |]. split; [lia |].
      split; [lia |]. exists di. auto.
    + intros Hc. rewrite Hlf' in Hc. discriminate Hc.
    + intros a. specialize (Htr a). unfold tracer in *. cbv zeta in *.
      rewrite Hpl, Hsys, Hlog, Hlat, Hlf', (fr_settings _ _ Hf), Hctr'.
      destruct (Z.eqb_spec (load_flag (st m)) LOAD_BLOCK) as [? | _]; [contradiction |].
      destruct Htr as (k & Hpos & Hpul & Hk). exists k.
      split; [exact Hpos |]. split.
      { unfold latched in Hpul. rewrite Hex in Hpul. exact Hpul. }
      exact Hk.
Qed.

(** The three axes of a step event together. *)
Lemma bresenham_all (blk : plan_block_t) (m : machine) :
  block_ok cfg blk ->
  (forall a, 0 <= counter a (st m) < step_event_count blk) ->
  let m' := bresenham_axis cfg blk Z_AXIS
              (bresenham_axis cfg blk Y_AXIS (bresenham_axis cfg blk X_AXIS m)) in
  isr_frame m m' /\ tracer_frame m m' /\
  forall a,
    let stepped := counter a (st m) - steps blk a <? 0 in
    counter a (st m') =
      counter a (st m) - steps blk a + (if stepped then step_event_count blk else 0) /\
    position (sys m') a =
      (if stepped
       then if Z.testbit (out_bits (st m)) (direction_bit cfg a)
            then i32 (position (sys m) a - 1) else i32 (position (sys m) a + 1)
       else position (sys m) a) /\
    Z.testbit (out_bits (st m')) (step_bit cfg a) =
      Z.testbit (out_bits (st m)) (step_bit cfg a) || stepped.
Proof.
  intros Hok Hc. cbv zeta.
  pose proof (count_range cfg blk Hok) as HN.
  pose proof (steps_range cfg blk Hok) as Hs.
  set (mX := bresenham_axis cfg blk X_AXIS m).
  set (mY := bresenham_axis cfg blk Y_AXIS mX).
  set (mZ := bresenham_axis cfg blk Z_AXIS mY).
  destruct (bresenham_axis_frame blk X_AXIS m) as [FX TX].
  destruct (bresenham_axis_frame blk Y_AXIS mX) as [FY TY].
  destruct (bresenham_axis_frame blk Z_AXIS mY) as [FZ TZ].
  fold mX in FX, TX. fold mY in FY, TY. fold mZ in FZ, TZ.
  destruct (bresenham_axis_step blk X_AXIS m HN (Hs X_AXIS) (Hc X_AXIS))
    as (CX & PX & OX & BX).
  fold mX in CX, PX, OX, BX.
  assert (HcY : 0 <= counter Y_AXIS (st mX) < step_event_count blk).
  { destruct (OX Y_AXIS) as [E _]; [discriminate |]. rewrite E. apply Hc. }
  destruct (bresenham_axis_step blk Y_AXIS mX HN (Hs Y_AXIS) HcY)
    as (CY & PY & OY & BY).
  fold mY in CY, PY, OY, BY.
  assert (HcZ : 0 <= counter Z_AXIS (st mY) < step_event_count blk).
  { destruct (OY Z_AXIS) as [E _]; [discriminate |]. rewrite E.
    destruct (OX Z_AXIS) as [E' _]; [discriminate |]. rewrite E'. apply Hc. }
  destruct (bresenham_axis_step blk Z_AXIS mY HN (Hs Z_AXIS) HcZ)
    as (CZ & PZ & OZ & BZ).
  fold mZ in CZ, PZ, OZ, BZ.
  split; [eapply isr_frame_trans; [eapply isr_frame_trans |]; eassumption |].
  split; [eapply tracer_frame_trans; [eapply tracer_frame_trans |]; eassumption |].
  destruct Hcfg as [Hsr Hdr Hsd Hsn _].
  assert (Hne : forall a b, a <> b -> (step_bit cfg a =? step_bit cfg b) = false).
  { intros a b Hab. apply Z.eqb_neq. apply Hsd. exact Hab. }
  assert (Hnd : forall a b, (step_bit cfg a =? direction_bit cfg b) = false).
  { intros a b. apply Z.eqb_neq. apply Hsn. }
  destruct (OX Y_AXIS) as [CXY PXY]; [discriminate |].
  destruct (OX Z_AXIS) as [CXZ PXZ]; [discriminate |].
  destruct (OY X_AXIS) as [CYX PYX]; [discriminate |].
  destruct (OY Z_AXIS) as [CYZ PYZ]; [discriminate |].
  destruct (OZ X_AXIS) as [CZX PZX]; [discriminate |].
  destruct (OZ Y_AXIS) as [CZY PZY]; [discriminate |].
  intros a. destruct a.
  - rewrite CZX, CYX, PZX, PYX, CX, PX.
    split; [reflexivity |]. split; [reflexivity |].
    rewrite BZ, BY, BX by apply Hsr.
    rewrite Z.eqb_refl, (Hne Y_AXIS X_AXIS), (Hne Z_AXIS X_AXIS) by discriminate.
    rewrite !andb_false_r, !orb_false_r, andb_true_r. reflexivity.
  - rewrite CZY, CY, PZY, PY, CXY, PXY.
    split; [reflexivity |]. split.
    { rewrite BX by apply Hdr. rewrite Hnd, andb_false_r, orb_false_r. reflexivity. }
    rewrite BZ, BY, BX by apply Hsr.
    rewrite Z.eqb_refl, (Hne X_AXIS Y_AXIS), (Hne Z_AXIS Y_AXIS) by discriminate.
    rewrite !andb_false_r, !orb_false_r, andb_true_r, ?CXY. reflexivity.
  - rewrite CZ, PZ, CYZ, PYZ, CXZ, PXZ.
    split; [reflexivity |]. split.
    { rewrite BY, BX by apply Hdr. rewrite !Hnd, !andb_false_r, !orb_false_r. reflexivity. }
    rewrite BZ, BY, BX by apply Hsr.
    rewrite Z.eqb_refl, (Hne X_AXIS Z_AXIS), (Hne Y_AXIS Z_AXIS) by discriminate.
    rewrite !andb_false_r, !orb_false_r, andb_true_r, ?CYZ, ?CXZ. reflexivity.
Qed.

(** The arithmetic of one step event on one axis. *)
Lemma tracer_advance (N half s c k owed : Z) :
  0 < N -> 0 <= half < N -> 0 <= s <= N -> 0 <= c < N ->
  1 <= owed <= N ->
  c = half - s * (N - owed) + N * k ->
  let stepped := c - s <? 0 in
  let c' := c - s + (if stepped then N else 0) in
  let k' := k + (if stepped then 1 else 0) in
  0 <= c' < N /\
  c' = half - s * (N - (owed - 1)) + N * k' /\
  (owed = 1 -> k' = s).
Proof.
  intros HN Hh Hs Hc Ho Hk. cbv zeta.
  destruct (Z.ltb_spec (c - s) 0).
  - split; [lia |]. split; [nia |]. intros ->. nia.
  - split; [lia |]. split; [nia |]. intros ->. nia.
Qed.

Lemma pulses_step_event (inv : Z) (a : axis) (l : list event) :
  pulses cfg inv a (EvStepEvent :: l) = pulses cfg inv a l.
Proof. reflexivity. Qed.

Lemma pulses_discard (inv : Z) (a : axis) (l : list event) :
  pulses cfg inv a (EvDiscard :: l) = pulses cfg inv a l.
Proof. reflexivity. Qed.

Lemma latched_xor (a : axis) (m : machine) (o : Z) :
  execute_step (st m) = true ->
  out_bits (st m) = Z.lxor o (invert_mask (settings m)) ->
  latched cfg a m = if Z.testbit o (step_bit cfg a) then 1 else 0.
Proof.
  intros He Ho. unfold latched, pulse_on. rewrite He, Ho, Z.lxor_spec. cbn [andb].
  rewrite xorb_assoc, xorb_nilpotent, xorb_false_r. reflexivity.
Qed.

Lemma u8_pred (r : Z) : 1 <= r <= 255 -> u8 (r - 1) = r - 1.
Proof. intros H. apply u8_small. lia. Qed.

(** What a step event has done when the tracer has run and the step is
    counted, before the end of the segment is looked at: [m0] is the machine
    the tracer starts from, [mZ] the one it leaves. *)
Lemma step_event_progress (owed : Z) (m m0 mZ : machine) (blk : plan_block_t) :
  at_index (block_buffer (planner m)) (block_buffer_tail (planner m)) = Some blk ->
  block_ok cfg blk ->
  1 <= owed <= step_event_count blk ->
  load_flag (st m) = LOAD_NOOP ->
  (forall a, latched cfg a m = 0) ->
  (forall a, tracer cfg pos0 m owed a) ->
  (forall a, counter a (st m0) = counter a (st m)) ->
  out_bits (st m0) = direction_bits blk ->
  sys m0 = sys m ->
  (forall a,
    let stepped := counter a (st m0) - steps blk a <? 0 in
    counter a (st mZ) =
      counter a (st m0) - steps blk a + (if stepped then step_event_count blk else 0) /\
    position (sys mZ) a =
      (if stepped
       then if Z.testbit (out_bits (st m0)) (direction_bit cfg a)
            then i32 (position (sys m0) a - 1) else i32 (position (sys m0) a + 1)
       else position (sys m0) a) /\
    Z.testbit (out_bits (st mZ)) (step_bit cfg a) =
      Z.testbit (out_bits (st m0)) (step_bit cfg a) || stepped) ->
  forall a, exists k,
    position (sys mZ) a =
      i32 (pos0 a
           + before (signed_steps cfg a) (block_buffer (planner m))
               (block_buffer_tail (planner m))
           + direction_sign cfg a blk * k) /\
    pulses cfg (invert_mask (settings m)) a (log m)
      + (if Z.testbit (out_bits (st mZ)) (step_bit cfg a) then 1 else 0) =
      before (fun b => steps b a) (block_buffer (planner m))
        (block_buffer_tail (planner m)) + k /\
    0 <= counter a (st mZ) < step_event_count blk /\
    counter a (st mZ) =
      Z.shiftr (step_event_count blk) 1
      - steps blk a * (step_event_count blk - (owed - 1))
      + step_event_count blk * k /\
    (owed = 1 -> k = steps blk a).
Proof.
  intros Hblk Hok Howed Hnoop Hlat Htr Hc0 Ho0 Hs0 HZ a.
  pose proof (count_range cfg blk Hok) as HN.
  pose proof (steps_range cfg blk Hok a) as Hs.
  specialize (HZ a). cbv zeta in HZ. destruct HZ as (Ca & Pa & Ba).
  rewrite Hc0 in Ca, Pa, Ba. rewrite Ho0 in Pa, Ba. rewrite Hs0 in Pa.
  rewrite (direction_only cfg blk Hok a) in Ba. cbn [orb] in Ba.
  specialize (Htr a). unfold tracer in Htr. cbv zeta in Htr.
  rewrite Hnoop in Htr. cbn [Z.eqb LOAD_NOOP LOAD_BLOCK] in Htr.
  destruct Htr as (k & Hpos & Hpul & blk' & Hblk' & Hcr & Hck).
  rewrite Hblk in Hblk'. injection Hblk' as <-.
  rewrite (sign_at_block _ _ _ _ Hblk) in Hpos.
  rewrite Hlat, Z.add_0_r in Hpul.
  destruct (tracer_advance (step_event_count blk) (Z.shiftr (step_event_count blk) 1)
              (steps blk a) (counter a (st m)) k owed)
    as (Hr' & Hc' & Hlast); try assumption; try lia.
  { apply half_range. lia. }
  exists (k + (if counter a (st m) - steps blk a <? 0 then 1 else 0)).
  rewrite Ca, Pa, Ba, Hpos.
  split; [| split; [| split; [exact Hr' | split; [exact Hc' | exact Hlast]]]].
  - unfold direction_sign.
    destruct (counter a (st m) - steps blk a <? 0);
      destruct (Z.testbit (direction_bits blk) (direction_bit cfg a)).
    + change (?x - 1) with (x + -1). rewrite i32_i32_add. f_equal. lia.
    + rewrite i32_i32_add. f_equal. lia.
    + f_equal. lia.
    + f_equal. lia.
  - destruct (counter a (st m) - steps blk a <? 0); lia.
Qed.

Lemma tracer_emit_step (m : machine) (x owed : Z) (a : axis) :
  tracer cfg pos0 m owed a ->
  tracer cfg pos0 (emit EvStepEvent (with_st (set_counter_d x) m)) owed a.
Proof. intros H. destruct a; exact H. Qed.

Lemma latched_emit_step (m : machine) (x : Z) (a : axis) :
  latched cfg a (emit EvStepEvent (with_st (set_counter_d x) m)) = latched cfg a m.
Proof. reflexivity. Qed.

Lemma after_segment_pred (h : Z) (bs : list plan_block_t) (C : Z -> Z -> Prop)
    (r f j owed : Z) :
  after_segment h bs C r f j owed -> 2 <= r ->
  after_segment h bs C (r - 1) f j (owed - 1).
Proof.
  intros (Hr & Hj & H) H2. split; [lia |]. split; [exact Hj |].
  destruct (Z.eqb_spec r owed) as [E | E];
    destruct (Z.eqb_spec (r - 1) (owed - 1)) as [E' | E']; try lia.
  - exact H.
  - replace (owed - 1 - (r - 1)) with (owed - r) by lia. exact H.
Qed.

(** The tail moves on: one segment less in the ring. *)
Lemma queued_pop (m m' : machine) (pc : prep_pc) :
  0 <= segment_buffer_head m < SEGMENT_BUFFER_SIZE ->
  0 <= segment_buffer_tail m < SEGMENT_BUFFER_SIZE ->
  1 <= occupied m ->
  segment_buffer_head m' = segment_buffer_head m ->
  segment_buffer_tail m' = next_block_index (segment_buffer_tail m) ->
  occupied m' = occupied m - 1 /\ queued (m', pc) = Nat.pred (queued (m, pc)).
Proof.
  intros Hh Ht Ho Eh Et.
  assert (E : occupied m' = occupied m - 1).
  { rewrite !occupied_distance, Eh, Et. apply ring_distance_next; assumption. }
  split; [exact E |]. unfold queued. cbn [fst snd]. rewrite E. destruct pc; lia.
Qed.

(** The tracer after a step event that leaves the block unfinished. *)
Lemma tracer_after_step (m mB m' : machine) (owed : Z) (blk : plan_block_t) (a : axis) :
  (exists k,
    position (sys mB) a =
      i32 (pos0 a
           + before (signed_steps cfg a) (block_buffer (planner m))
               (block_buffer_tail (planner m))
           + direction_sign cfg a blk * k) /\
    pulses cfg (invert_mask (settings m)) a (log m)
      + (if Z.testbit (out_bits (st mB)) (step_bit cfg a) then 1 else 0) =
      before (fun b => steps b a) (block_buffer (planner m))
        (block_buffer_tail (planner m)) + k /\
    0 <= counter a (st mB) < step_event_count blk /\
    counter a (st mB) =
      Z.shiftr (step_event_count blk) 1
      - steps blk a * (step_event_count blk - (owed - 1))
      + step_event_count blk * k /\
    (owed = 1 -> k = steps blk a)) ->
  at_index (block_buffer (planner m)) (block_buffer_tail (planner m)) = Some blk ->
  planner m' = planner m ->
  sys m' = sys mB ->
  settings m' = settings m ->
  pulses cfg (invert_mask (settings m)) a (log m') =
    pulses cfg (invert_mask (settings m)) a (log m) ->
  execute_step (st m') = true ->
  out_bits (st m') = Z.lxor (out_bits (st mB)) (invert_mask (settings m')) ->
  counter a (st m') = counter a (st mB) ->
  load_flag (st m') <> LOAD_BLOCK ->
  tracer cfg pos0 m' (owed - 1) a.
Proof.
  intros (k & Hpos & Hpul & Hcr & Hck & _) Hblk Hpl Hsys Hset Hlog Hex Hout Hctr Hlf.
  unfold tracer. cbv zeta. rewrite Hpl, Hsys, Hset, Hlog, Hctr.
  rewrite (latched_xor a m' _ Hex Hout).
  rewrite (sign_at_block _ _ _ _ Hblk).
  exists k. split; [exact Hpos |]. split; [exact Hpul |].
  destruct (Z.eqb_spec (load_flag (st m')) LOAD_BLOCK) as [E | _]; [contradiction |].
  exists blk. split; [exact Hblk |]. split; [exact Hcr | exact Hck].
Qed.

(** The tracer after the step event that finishes the block. *)
Lemma tracer_after_block (m mB m' : machine) (blk : plan_block_t) (a : axis) :
  (exists k,
    position (sys mB) a =
      i32 (pos0 a
           + before (signed_steps cfg a) (block_buffer (planner m))
               (block_buffer_tail (planner m))
           + direction_sign cfg a blk * k) /\
    pulses cfg (invert_mask (settings m)) a (log m)
      + (if Z.testbit (out_bits (st mB)) (step_bit cfg a) then 1 else 0) =
      before (fun b => steps b a) (block_buffer (planner m))
        (block_buffer_tail (planner m)) + k /\
    0 <= counter a (st mB) < step_event_count blk /\
    counter a (st mB) =
      Z.shiftr (step_event_count blk) 1
      - steps blk a * (step_event_count blk - (1 - 1))
      + step_event_count blk * k /\
    (1 = 1 -> k = steps blk a)) ->
  at_index (block_buffer (planner m)) (block_buffer_tail (planner m)) = Some blk ->
  planner m' = set_block_buffer_tail (block_buffer_tail (planner m) + 1) (planner m) ->
  sys m' = sys mB ->
  settings m' = settings m ->
  pulses cfg (invert_mask (settings m)) a (log m') =
    pulses cfg (invert_mask (settings m)) a (log m) ->
  execute_step (st m') = true ->
  out_bits (st m') = Z.lxor (out_bits (st mB)) (invert_mask (settings m')) ->
  load_flag (st m') = LOAD_BLOCK ->
  forall owed', tracer cfg pos0 m' owed' a.
Proof.
  intros (k & Hpos & Hpul & _ & _ & Hk) Hblk Hpl Hsys Hset Hlog Hex Hout Hlf owed'.
  specialize (Hk eq_refl). subst k.
  unfold tracer. cbv zeta. rewrite Hpl, Hsys, Hset, Hlog, Hlf.
  cbn [block_buffer block_buffer_tail set_block_buffer_tail].
  rewrite (latched_xor a m' _ Hex Hout).
  rewrite !(before_succ _ _ _ _ Hblk).
  exists 0. split; [| split; [| reflexivity]].
  - rewrite Hpos. unfold signed_steps. f_equal. lia.
  - lia.
Qed.

Lemma option_bind_some {A B} (k : A -> option B) (x : A) : (Some x ≫= k) = k x.
Proof. reflexivity. Qed.

Lemma pl_current_block_emit_st (e : event) (f : stepper_t -> stepper_t) (m : machine) :
  pl_current_block (emit e (with_st f m)) = pl_current_block m.
Proof. reflexivity. Qed.

Lemma planner_emit_st (e : event) (f : stepper_t -> stepper_t) (m : machine) :
  planner (emit e (with_st f m)) = planner m.
Proof. reflexivity. Qed.

(** The step event with its pointers resolved. *)
Lemma isr_step_event_eq (m : machine) (di : Z) (dat : st_data_t) (pb : Z) (blk : plan_block_t) :
  st_current_data m = Some di ->
  at_index (segment_data m) di = Some dat ->
  pl_current_block m = Some pb ->
  at_index (block_buffer (planner m)) pb = Some blk ->
  isr_step_event cfg m =
    let me := emit EvStepEvent
                (with_st (set_counter_d (i32 (counter_d (st m) + d_next dat))) m) in
    let mZ := bresenham_axis cfg blk Z_AXIS
                (bresenham_axis cfg blk Y_AXIS
                   (bresenham_axis cfg blk X_AXIS
                      (with_st (set_execute_step true)
                         (with_st (set_out_bits (direction_bits blk)) me)))) in
    let mB := with_st (set_segment_steps_remaining
                         (u8 (segment_steps_remaining (st mZ) - 1))) mZ in
    m' ← (if segment_steps_remaining (st mB) =? 0 then isr_segment_done mB else Some mB);
    Some (with_st (set_out_bits (Z.lxor (out_bits (st m')) (invert_mask (settings m')))) m').
Proof.
  intros H1 H2 H3 H4. unfold isr_step_event.
  rewrite H1, option_bind_some, H2, option_bind_some. cbv zeta.
  rewrite pl_current_block_emit_st, H3, option_bind_some.
  rewrite planner_emit_st, H4, option_bind_some.
  reflexivity.
Qed.

(** The end of a step event, from the machine [mZ] the tracer leaves. *)
Lemma isr_step_event_close (pc : prep_pc) (owed : Z) (m mZ : machine)
    (blk : plan_block_t) (di : Z) :
  invariant_at cfg pos0 (m, pc) owed ->
  load_flag (st m) = LOAD_NOOP ->
  at_index (block_buffer (planner m)) (block_buffer_tail (planner m)) = Some blk ->
  block_ok cfg blk ->
  st_current_data m = Some di ->
  isr_frame m mZ ->
  log mZ = EvStepEvent :: log m ->
  planner mZ = planner m ->
  segment_buffer_tail mZ = segment_buffer_tail m ->
  st_current_segment mZ = st_current_segment m ->
  pl_current_block mZ = pl_current_block m ->
  st_current_data mZ = st_current_data m ->
  load_flag (st mZ) = load_flag (st m) ->
  execute_step (st mZ) = true ->
  segment_steps_remaining (st mZ) = segment_steps_remaining (st m) ->
  (forall a, exists k,
    position (sys mZ) a =
      i32 (pos0 a
           + before (signed_steps cfg a) (block_buffer (planner m))
               (block_buffer_tail (planner m))
           + direction_sign cfg a blk * k) /\
    pulses cfg (invert_mask (settings m)) a (log m)
      + (if Z.testbit (out_bits (st mZ)) (step_bit cfg a) then 1 else 0) =
      before (fun b => steps b a) (block_buffer (planner m))
        (block_buffer_tail (planner m)) + k /\
    0 <= counter a (st mZ) < step_event_count blk /\
    counter a (st mZ) =
      Z.shiftr (step_event_count blk) 1
      - steps blk a * (step_event_count blk - (owed - 1))
      + step_event_count blk * k /\
    (owed = 1 -> k = steps blk a)) ->
  exists m' owed',
    (m' ← (if segment_steps_remaining
                (st (with_st (set_segment_steps_remaining
                                (u8 (segment_steps_remaining (st mZ) - 1))) mZ)) =? 0
           then isr_segment_done
                  (with_st (set_segment_steps_remaining
                              (u8 (segment_steps_remaining (st mZ) - 1))) mZ)
           else Some (with_st (set_segment_steps_remaining
                                 (u8 (segment_steps_remaining (st mZ) - 1))) mZ));
     Some (with_st (set_out_bits (Z.lxor (out_bits (st m')) (invert_mask (settings m')))) m'))
    = Some m' /\
    invariant_at cfg pos0 (m', pc) owed' /\
    discard_report m m' /\
    consumes m m'.
Proof.
  intros Hi Hnoop Hblk Hok Hscd FZ ZL ZP ZT ZS ZB ZD ZF ZE ZR HprogZ.
  pose proof (ia_view _ _ _ _ Hi) as Hview.
  pose proof (ia_head _ _ _ _ Hi) as Hhead.
  pose proof (ia_tail _ _ _ _ Hi) as Htail.
  pose proof (ia_current _ _ _ _ Hi) as Hcur.
  pose proof (ia_planner _ _ _ _ Hi) as Hplan.
  pose proof (ia_events _ _ _ _ Hi) as Hev.
  pose proof (ia_discards _ _ _ _ Hi) as Hdis.
  cbn [fst snd] in *.
  unfold isr_view in Hview. cbn [fst snd] in Hview. rewrite Hnoop in Hview.
  cbn [Z.eqb LOAD_NOOP] in Hview.
  destruct Hview as (Hocc & Hseg & Hr255 & seg & Hsegat & Hafter).
  pose proof Hafter as (Hr & Hj & Hbranch).
  destruct Hcur as (Hpcb & Hdh & Howed & di' & Hscd0 & Hdir);
    [rewrite Hnoop; discriminate |].
  rewrite Hscd in Hscd0. injection Hscd0 as <-.
  pose proof (count_at_block _ _ _ Hblk) as HN.
  pose proof (count_range cfg blk Hok) as HNr.
  rewrite HN in Howed, Hev.
  set (mB := with_st (set_segment_steps_remaining
                        (u8 (segment_steps_remaining (st mZ) - 1))) mZ).
  assert (Hprog : forall a, exists k,
    position (sys mB) a =
      i32 (pos0 a
           + before (signed_steps cfg a) (block_buffer (planner m))
               (block_buffer_tail (planner m))
           + direction_sign cfg a blk * k) /\
    pulses cfg (invert_mask (settings m)) a (log m)
      + (if Z.testbit (out_bits (st mB)) (step_bit cfg a) then 1 else 0) =
      before (fun b => steps b a) (block_buffer (planner m))
        (block_buffer_tail (planner m)) + k /\
    0 <= counter a (st mB) < step_event_count blk /\
    counter a (st mB) =
      Z.shiftr (step_event_count blk) 1
      - steps blk a * (step_event_count blk - (owed - 1))
      + step_event_count blk * k /\
    (owed = 1 -> k = steps blk a)).
  { intros a. destruct (HprogZ a) as (k & H). exists k. destruct a; exact H. }
  assert (FB : isr_frame m mB).
  { eapply isr_frame_trans; [exact FZ | apply with_st_frame]. }
  assert (Hlog : log mB = EvStepEvent :: log m) by exact ZL.
  assert (Hpl : planner mB = planner m) by exact ZP.
  assert (Htl : segment_buffer_tail mB = segment_buffer_tail m) by exact ZT.
  assert (Hseg' : st_current_segment mB = Some (segment_buffer_tail m))
    by (rewrite <- Hseg; exact ZS).
  assert (Hpcb' : pl_current_block mB = Some (block_buffer_tail (planner m)))
    by (rewrite <- Hpcb; exact ZB).
  assert (Hscd' : st_current_data mB = Some di) by (rewrite <- Hscd; exact ZD).
  assert (Hlf' : load_flag (st mB) = LOAD_NOOP) by (rewrite <- Hnoop; exact ZF).
  assert (Hex' : execute_step (st mB) = true) by exact ZE.
  assert (Hssr' : segment_steps_remaining (st mB) = segment_steps_remaining (st m) - 1).
  { change (segment_steps_remaining (st mB))
      with (u8 (segment_steps_remaining (st mZ) - 1)).
    rewrite ZR. apply u8_pred. lia. }
  clearbody mB. clear HprogZ FZ ZL ZP ZT ZS ZB ZD ZF ZE ZR mZ.
  rewrite Hssr'.
  destruct (Z.eqb_spec (segment_steps_remaining (st m) - 1) 0) as [Hdone | Hmore].
  - (* the segment is complete *)
    unfold isr_segment_done. rewrite Hseg'. cbn [mbind option_bind].
    rewrite (fr_buffer _ _ FB), Hsegat. cbn [mbind option_bind].
    assert (Hr1 : segment_steps_remaining (st m) = 1) by lia.
    rewrite Hr1 in Hbranch.
    destruct (Z.eqb_spec 1 owed) as [Ho1 | Ho1].
    + (* and so is the block *)
      destruct Hbranch as [Heob Hchain]. unfold eob in Heob. rewrite Heob.
      eexists. exists (count_at (block_buffer (planner m)) (block_buffer_tail (planner m) + 1)).
      split; [reflexivity |].
      match goal with
      | |- invariant_at _ _ (?M, _) _ /\ _ => set (m' := M)
      end.
      assert (Hpl' : planner m' =
                set_block_buffer_tail (block_buffer_tail (planner m) + 1) (planner m)).
      { cbn. rewrite Hpl. unfold plan_discard_current_block.
        destruct (Z.eqb_spec (block_buffer_head (planner m)) (block_buffer_tail (planner m)));
          [lia |].
        rewrite next_block_pl_index_succ by (unfold BLOCK_BUFFER_SIZE in *; lia).
        reflexivity. }
      assert (Hf : isr_frame m m').
      { eapply isr_frame_trans; [exact FB |].
        constructor; try reflexivity; rewrite Hpl', Hpl; reflexivity. }
      assert (Htl' : segment_buffer_tail m' = next_block_index (segment_buffer_tail m))
        by (cbn; rewrite Htl; reflexivity).
      assert (Hlog' : log m' = EvDiscard :: EvStepEvent :: log m)
        by (cbn; rewrite Hlog; reflexivity).
      assert (Hlf'' : load_flag (st m') = LOAD_BLOCK) by reflexivity.
      assert (Hsys' : sys m' = sys mB) by reflexivity.
      assert (Hex'' : execute_step (st m') = true) by (cbn; exact Hex').
      assert (Hout'' : out_bits (st m') = Z.lxor (out_bits (st mB)) (invert_mask (settings m')))
        by reflexivity.
      assert (Hctr'' : forall a, counter a (st m') = counter a (st mB))
        by (intros []; reflexivity).
      assert (Hset' : settings m' = settings m) by apply (fr_settings _ _ Hf).
      clearbody m'.
      destruct (queued_pop m m' pc Hhead Htail Hocc (fr_head _ _ Hf) Htl') as [Hocc' Hq'].
      split; [| split; [| split; [exact Hf | lia]]].
      2:{ intros seg' Hseg'at. rewrite Hsegat in Hseg'at. injection Hseg'at as <-.
          rewrite Hlog', Htl'. unfold eob. rewrite Heob.
          rewrite (proj2 (Z.eqb_neq _ _) (next_block_index_neq _ Htail)).
          cbn. lia. }
      apply (invariant_at_isr pc owed _ m m' Hi Hf).
      * rewrite Htl'. apply next_block_index_range. exact Htail.
      * lia.
      * rewrite Hpl'. cbn. lia.
      * right. right. exact Hlf''.
      * unfold isr_view. cbn [fst snd]. rewrite Hlf''. cbn [Z.eqb LOAD_BLOCK LOAD_NOOP].
        rewrite Hq', Htl', Hpl'. cbn [block_buffer block_buffer_head block_buffer_tail
                                      set_block_buffer_tail].
        rewrite (fr_buffer _ _ Hf).
        eapply chain_weaken; [| exact Hchain].
        intros; eapply prep_tail_frame; eassumption.
      * intros Hc. contradiction.
      * intros _. rewrite Hpl'. reflexivity.
      * intros a.
        apply (tracer_after_block m mB m' blk a); try assumption.
        -- rewrite <- Ho1 in Hprog. exact (Hprog a).
        -- rewrite Hlog'. reflexivity.
      * rewrite Hlog', Hpl'. cbn [block_buffer block_buffer_tail set_block_buffer_tail
                                   step_events].
        rewrite (before_succ _ _ _ _ Hblk), Hev. lia.
      * rewrite Hlog', Hpl'. cbn [block_buffer_tail set_block_buffer_tail discards]. lia.
    + (* the block goes on with the next segment *)
      destruct Hbranch as [Heob Hchain]. unfold eob in Heob. rewrite Heob.
      eexists. exists (owed - 1).
      split; [reflexivity |].
      match goal with
      | |- invariant_at _ _ (?M, _) _ /\ _ => set (m' := M)
      end.
      assert (Hpl' : planner m' = planner m) by (cbn; exact Hpl).
      assert (Hf : isr_frame m m').
      { eapply isr_frame_trans; [exact FB |]. constructor; reflexivity. }
      assert (Htl' : segment_buffer_tail m' = next_block_index (segment_buffer_tail m))
        by (cbn; rewrite Htl; reflexivity).
      assert (Hlog' : log m' = EvStepEvent :: log m) by (cbn; exact Hlog).
      assert (Hlf'' : load_flag (st m') = LOAD_LINE) by reflexivity.
      assert (Hsys' : sys m' = sys mB) by reflexivity.
      assert (Hex'' : execute_step (st m') = true) by (cbn; exact Hex').
      assert (Hout'' : out_bits (st m') = Z.lxor (out_bits (st mB)) (invert_mask (settings m')))
        by reflexivity.
      assert (Hctr'' : forall a, counter a (st m') = counter a (st mB))
        by (intros []; reflexivity).
      assert (Hpcb'' : pl_current_block m' = Some (block_buffer_tail (planner m)))
        by (cbn; exact Hpcb').
      assert (Hscd'' : st_current_data m' = Some di) by (cbn; exact Hscd').
      assert (Hset' : settings m' = settings m) by apply (fr_settings _ _ Hf).
      clearbody m'.
      destruct (queued_pop m m' pc Hhead Htail Hocc (fr_head _ _ Hf) Htl') as [Hocc' Hq'].
      split; [| split; [| split; [exact Hf | lia]]].
      2:{ intros seg' Hseg'at. rewrite Hsegat in Hseg'at. injection Hseg'at as <-.
          rewrite Hlog'. unfold eob. rewrite Heob. cbn. lia. }
      apply (invariant_at_isr pc owed _ m m' Hi Hf).
      * rewrite Htl'. apply next_block_index_range. exact Htail.
      * lia.
      * rewrite Hpl'. lia.
      * right. left. exact Hlf''.
      * unfold isr_view. cbn [fst snd]. rewrite Hlf''. cbn [Z.eqb LOAD_LINE LOAD_NOOP].
        rewrite Hq', Htl', Hpl', (fr_buffer _ _ Hf).
        eapply chain_weaken; [| exact Hchain].
        intros; eapply prep_tail_frame; eassumption.
      * intros _. rewrite Hpl', HN. split; [exact Hpcb'' |]. split; [lia |].
        split; [lia |]. exists di. auto.
      * intros Hc. rewrite Hlf'' in Hc. discriminate Hc.
      * intros a.
        apply (tracer_after_step m mB m' owed blk a); try assumption.
        -- exact (Hprog a).
        -- rewrite Hlog'. reflexivity.
        -- apply Hctr''.
        -- rewrite Hlf''. discriminate.
      * rewrite Hlog', Hpl', HN. cbn [step_events]. rewrite Hev. lia.
      * rewrite Hlog', Hpl'. cbn [discards]. exact Hdis.
  - (* the segment goes on *)
    eexists. exists (owed - 1).
    split; [reflexivity |].
    match goal with
    | |- invariant_at _ _ (?M, _) _ /\ _ => set (m' := M)
    end.
    assert (Hpl' : planner m' = planner m) by (cbn; exact Hpl).
    assert (Hf : isr_frame m m').
    { eapply isr_frame_trans; [exact FB |]. constructor; reflexivity. }
    assert (Htl' : segment_buffer_tail m' = segment_buffer_tail m) by (cbn; exact Htl).
    assert (Hlog' : log m' = EvStepEvent :: log m) by (cbn; exact Hlog).
    assert (Hlf'' : load_flag (st m') = LOAD_NOOP) by (cbn; exact Hlf').
    assert (Hsys' : sys m' = sys mB) by reflexivity.
    assert (Hex'' : execute_step (st m') = true) by (cbn; exact Hex').
    assert (Hout'' : out_bits (st m') = Z.lxor (out_bits (st mB)) (invert_mask (settings m')))
      by reflexivity.
    assert (Hctr'' : forall a, counter a (st m') = counter a (st mB))
      by (intros []; reflexivity).
    assert (Hpcb'' : pl_current_block m' = Some (block_buffer_tail (planner m)))
      by (cbn; exact Hpcb').
    assert (Hscd'' : st_current_data m' = Some di) by (cbn; exact Hscd').
    assert (Hseg'' : st_current_segment m' = Some (segment_buffer_tail m))
      by (cbn; exact Hseg').
    assert (Hssr'' : segment_steps_remaining (st m') = segment_steps_remaining (st m) - 1)
      by (cbn; exact Hssr').
    assert (Hset' : settings m' = settings m) by apply (fr_settings _ _ Hf).
    clearbody m'.
    pose proof (occupied_same m m' (fr_head _ _ Hf) Htl') as Hocc'.
    split; [| split; [| split; [exact Hf | lia]]].
    2:{ intros seg' _. rewrite Hlog', Htl', Z.eqb_refl, andb_false_r. cbn. lia. }
    apply (invariant_at_isr pc owed _ m m' Hi Hf).
    + rewrite Htl'. exact Htail.
    + lia.
    + rewrite Hpl'. lia.
    + left. exact Hlf''.
    + apply (isr_view_loaded _ _ seg); cbn [fst snd];
        rewrite ?Htl', ?Hssr'', ?Hocc'; try assumption.
      * lia.
      * rewrite (fr_buffer _ _ Hf). exact Hsegat.
      * rewrite (queued_same m m' pc (fr_head _ _ Hf) Htl'), Hpl'.
        rewrite <- Hpl' at 1 2 3 4. apply (after_chain_frame m m' _ _ _ _ _ _ Hf).
        apply after_segment_pred; [exact Hafter | lia].
    + intros _. rewrite Hpl', HN. split; [exact Hpcb'' |]. split; [lia |].
      split; [lia |]. exists di. auto.
    + intros Hc. rewrite Hlf'' in Hc. discriminate Hc.
    + intros a.
      apply (tracer_after_step m mB m' owed blk a); try assumption.
      * exact (Hprog a).
      * rewrite Hlog'. reflexivity.
      * apply Hctr''.
      * rewrite Hlf''. discriminate.
    + rewrite Hlog', Hpl', HN. cbn [step_events]. rewrite Hev. lia.
    + rewrite Hlog', Hpl'. cbn [discards]. exact Hdis.
Qed.


(** A step event. *)
Lemma isr_step_event_invariant (pc : prep_pc) (owed : Z) (m : machine) :
  invariant_at cfg pos0 (m, pc) owed ->
  load_flag (st m) = LOAD_NOOP ->
  (forall a, latched cfg a m = 0) ->
  exists m' owed',
    isr_step_event cfg m = Some m' /\
    invariant_at cfg pos0 (m', pc) owed' /\
    discard_report m m' /\
    consumes m m'.
Proof.
  intros Hi Hnoop Hlat.
  pose proof (ia_view _ _ _ _ Hi) as Hview.
  pose proof (ia_tracer _ _ _ _ Hi) as Htr.
  pose proof (ia_current _ _ _ _ Hi) as Hcur.
  pose proof (ia_blocks _ _ _ _ Hi) as Hblocks.
  pose proof (ia_data _ _ _ _ Hi) as Hdata.
  cbn [fst snd] in *.
  unfold isr_view in Hview. cbn [fst snd] in Hview. rewrite Hnoop in Hview.
  cbn [Z.eqb LOAD_NOOP] in Hview.
  destruct Hview as (_ & _ & _ & seg & _ & (Hr & Hj & _)).
  destruct Hcur as (Hpcb & Hdh & Howed & di & Hscd & Hdir);
    [rewrite Hnoop; discriminate |].
  destruct (at_index_in_range (segment_data m) di) as [dat Hdat];
    [rewrite Hdata; unfold SEGMENT_BUFFER_SIZE in Hdir; lia |].
  destruct (Hblocks _ Hj) as (blk & Hblk & Hok).
  pose proof (count_at_block _ _ _ Hblk) as HN.
  rewrite HN in Howed.
  rewrite (isr_step_event_eq m di dat _ blk Hscd Hdat Hpcb Hblk). cbv zeta.
  set (m0 := with_st (set_execute_step true)
               (with_st (set_out_bits (direction_bits blk))
                  (emit EvStepEvent
                     (with_st (set_counter_d (i32 (counter_d (st m) + d_next dat))) m)))).
  assert (Hc0 : forall b, 0 <= counter b (st m0) < step_event_count blk).
  { intros b. specialize (Htr b). unfold tracer in Htr. cbv zeta in Htr.
    rewrite Hnoop in Htr. cbn [Z.eqb LOAD_NOOP LOAD_BLOCK] in Htr.
    destruct Htr as (k & _ & _ & blk' & Hblk' & Hcr & _).
    rewrite Hblk in Hblk'. injection Hblk' as <-.
    destruct b; exact Hcr. }
  assert (F0 : isr_frame m m0) by (constructor; reflexivity).
  assert (L0 : log m0 = EvStepEvent :: log m) by reflexivity.
  assert (P0 : planner m0 = planner m) by reflexivity.
  assert (T0 : segment_buffer_tail m0 = segment_buffer_tail m) by reflexivity.
  assert (S0 : st_current_segment m0 = st_current_segment m) by reflexivity.
  assert (B0 : pl_current_block m0 = pl_current_block m) by reflexivity.
  assert (D0 : st_current_data m0 = st_current_data m) by reflexivity.
  assert (LF0 : load_flag (st m0) = load_flag (st m)) by reflexivity.
  assert (E0 : execute_step (st m0) = true) by reflexivity.
  assert (R0 : segment_steps_remaining (st m0) = segment_steps_remaining (st m))
    by reflexivity.
  assert (C0 : forall a, counter a (st m0) = counter a (st m)) by (intros []; reflexivity).
  assert (O0 : out_bits (st m0) = direction_bits blk) by reflexivity.
  assert (Y0 : sys m0 = sys m) by reflexivity.
  clearbody m0.
  destruct (bresenham_all blk m0 Hok Hc0) as (FZ & TZ & HZ).
  apply (isr_step_event_close pc owed m _ blk di Hi Hnoop Hblk Hok Hscd).
  - eapply isr_frame_trans; [exact F0 | exact FZ].
  - rewrite (tf_log _ _ TZ). exact L0.
  - rewrite (tf_planner _ _ TZ). exact P0.
  - rewrite (tf_tail _ _ TZ). exact T0.
  - rewrite (tf_segment _ _ TZ). exact S0.
  - rewrite (tf_block _ _ TZ). exact B0.
  - rewrite (tf_cur_data _ _ TZ). exact D0.
  - rewrite (tf_load_flag _ _ TZ). exact LF0.
  - rewrite (tf_execute_step _ _ TZ). exact E0.
  - rewrite (tf_steps _ _ TZ). exact R0.
  - apply (step_event_progress owed m m0 _ blk Hblk Hok); try assumption. lia.
Qed.

(** *** The whole tick *)

Lemma discard_report_same (m m' : machine) : isr_same cfg m m' -> discard_report m m'.
Proof.
  intros Hs seg _. rewrite (sm_discards _ _ _ Hs), (sm_tail _ _ _ Hs), Z.eqb_refl, andb_false_r.
  lia.
Qed.

Lemma discard_report_quiet (m m' : machine) :
  log m' = log m -> segment_buffer_tail m' = segment_buffer_tail m -> discard_report m m'.
Proof.
  intros Hl Ht seg _. rewrite Hl, Ht, Z.eqb_refl, andb_false_r. lia.
Qed.

Lemma discard_report_trans (m1 m2 m3 : machine) :
  discard_report m1 m2 ->
  segment_buffer m2 = segment_buffer m1 ->
  segment_buffer_tail m2 = segment_buffer_tail m1 ->
  discard_report m2 m3 -> discard_report m1 m3.
Proof.
  intros H12 Hb Ht H23 seg Hseg.
  specialize (H12 seg Hseg). rewrite <- Hb, <- Ht in Hseg. specialize (H23 seg Hseg).
  rewrite Ht, Z.eqb_refl, andb_false_r in H12. rewrite Ht in H23. lia.
Qed.

Lemma discard_report_after (m1 m2 m3 : machine) :
  isr_same cfg m1 m2 -> discard_report m2 m3 -> discard_report m1 m3.
Proof.
  intros Hs H. apply (discard_report_trans m1 m2 m3).
  - apply discard_report_same. exact Hs.
  - apply (fr_buffer _ _ (sm_frame _ _ _ Hs)).
  - apply (sm_tail _ _ _ Hs).
  - exact H.
Qed.

Lemma consumes_same (m m' : machine) : isr_same cfg m m' -> consumes m m'.
Proof.
  intros Hs. split; [apply (sm_frame _ _ _ Hs) |].
  rewrite (occupied_same m m' (fr_head _ _ (sm_frame _ _ _ Hs)) (sm_tail _ _ _ Hs)). lia.
Qed.

Lemma consumes_after (m1 m2 m3 : machine) :
  isr_same cfg m1 m2 -> consumes m2 m3 -> consumes m1 m3.
Proof.
  intros Hs [Hf Ho]. split.
  - eapply isr_frame_trans; [apply (sm_frame _ _ _ Hs) | exact Hf].
  - rewrite <- (occupied_same m1 m2 (fr_head _ _ (sm_frame _ _ _ Hs)) (sm_tail _ _ _ Hs)).
    exact Ho.
Qed.

(** The inverse-time counter and, when it fires, the step event. *)
Lemma isr_step_invariant (pc : prep_pc) (owed : Z) (m : machine) :
  invariant_at cfg pos0 (m, pc) owed ->
  load_flag (st m) = LOAD_NOOP ->
  (forall a, latched cfg a m = 0) ->
  exists m' owed',
    isr_step cfg m = Some m' /\
    invariant_at cfg pos0 (m', pc) owed' /\
    discard_report m m' /\
    consumes m m'.
Proof.
  intros Hi Hnoop Hlat. unfold isr_step.
  set (m1 := with_st (set_counter_d (i32 (counter_d (st m) - d_per_tick (st m)))) m).
  assert (Hs : isr_same cfg m m1).
  { apply isr_same_with_st. constructor; reflexivity. }
  assert (Hnoop1 : load_flag (st m1) = LOAD_NOOP) by exact Hnoop.
  assert (Hlat1 : forall a, latched cfg a m1 = 0) by exact Hlat.
  clearbody m1.
  destruct (counter_d (st m1) <? 0).
  - destruct (isr_step_event_invariant pc owed m1) as (m' & owed' & Hrun & Hi' & Hrep & Hcon).
    + apply (invariant_at_same pc owed m m1 Hs Hi).
    + exact Hnoop1.
    + exact Hlat1.
    + exists m', owed'. split; [exact Hrun |]. split; [exact Hi' |].
      split; [apply (discard_report_after m m1 m' Hs Hrep) | apply (consumes_after m m1 m' Hs Hcon)].
  - exists m1, owed. split; [reflexivity |].
    split; [apply (invariant_at_same pc owed m m1 Hs Hi) |].
    split; [apply discard_report_same; exact Hs | apply consumes_same; exact Hs].
Qed.

(** Lines 294-380, with a segment loaded. *)
Lemma isr_run_invariant (pc : prep_pc) (owed : Z) (m : machine) :
  invariant_at cfg pos0 (m, pc) owed ->
  load_flag (st m) = LOAD_NOOP ->
  (forall a, latched cfg a m = 0) ->
  exists m',
    isr_run cfg m = Some m' /\
    invariant cfg pos0 (m', pc) /\
    discard_report m m' /\
    consumes m m'.
Proof.
  intros Hi Hnoop Hlat. unfold isr_run.
  destruct (ia_current _ _ _ _ Hi) as (_ & _ & _ & di & Hscd & Hdir);
    [cbn [fst]; rewrite Hnoop; discriminate |].
  cbn [fst] in Hscd.
  destruct (at_index_in_range (segment_data m) di) as [dat Hdat].
  { pose proof (ia_data _ _ _ _ Hi) as Hdata. cbn [fst] in Hdata. rewrite Hdata.
    unfold SEGMENT_BUFFER_SIZE in Hdir. lia. }
  destruct (isr_ramp_same m) as (m2 & Hramp & Hs2 & He2 & Ho2 & Hl2); [eauto |].
  rewrite Hramp, option_bind_some.
  destruct (isr_step_invariant pc owed m2) as (m3 & owed' & Hstep & Hi3 & Hrep & Hcon).
  - apply (invariant_at_same pc owed m m2 Hs2 Hi).
  - rewrite (sm_load_flag _ _ _ Hs2). exact Hnoop.
  - intros a. rewrite (latched_same a m m2 He2 Ho2 (fr_settings _ _ (sm_frame _ _ _ Hs2))).
    apply Hlat.
  - rewrite Hstep, option_bind_some.
    pose proof (isr_same_set_busy false m3) as Hs3.
    exists (set_busy false m3). split; [reflexivity |]. split; [| split].
    + split; [reflexivity |]. exists owed'.
      apply (invariant_at_same pc owed' m3 _ Hs3 Hi3).
    + apply (discard_report_after m m2 _ Hs2). intros seg Hseg.
      rewrite (sm_discards _ _ _ Hs3), (sm_tail _ _ _ Hs3). apply Hrep. exact Hseg.
    + apply (consumes_after m m2 _ Hs2). destruct Hcon as [Hf Ho]. split.
      * eapply isr_frame_trans; [exact Hf | apply (sm_frame _ _ _ Hs3)].
      * rewrite (occupied_same m3 _ (fr_head _ _ (sm_frame _ _ _ Hs3)) (sm_tail _ _ _ Hs3)).
        exact Ho.
Qed.

(** The tick interrupt keeps the invariant, and never reads through a null
    pointer or outside an array. *)
Lemma tick_invariant (s : machine * prep_pc) :
  invariant cfg pos0 s ->
  exists m',
    ISR_TIMER2_COMPA cfg (fst s) = Some m' /\
    invariant cfg pos0 (m', snd s) /\
    discard_report (fst s) m' /\
    consumes (fst s) m'.
Proof.
  destruct s as [m pc]. intros [Hbusy [owed Hi]]. cbn [fst snd] in *.
  unfold ISR_TIMER2_COMPA. rewrite Hbusy.
  destruct (isr_pulse_same m) as [Hsp Hex].
  set (m1 := set_busy true (isr_pulse cfg m)).
  assert (Hs1 : isr_same cfg m m1).
  { eapply isr_same_trans; [exact Hsp | apply isr_same_set_busy]. }
  assert (Hi1 : invariant_at cfg pos0 (m1, pc) owed)
    by apply (invariant_at_same pc owed m m1 Hs1 Hi).
  assert (Hex1 : execute_step (st m1) = false) by exact Hex.
  clearbody m1.
  assert (Hlat : forall a, latched cfg a m1 = 0).
  { intros a. unfold latched. rewrite Hex1. reflexivity. }
  destruct (Z.eqb_spec (load_flag (st m1)) LOAD_NOOP) as [Hnoop | Hload]; cbn [negb].
  - destruct (isr_run_invariant pc owed m1 Hi1 Hnoop Hlat) as (m' & Hrun & Hinv & Hrep & Hcon).
    exists m'. split; [exact Hrun |]. split; [exact Hinv |].
    split; [apply (discard_report_after m m1 m' Hs1 Hrep) | apply (consumes_after m m1 m' Hs1 Hcon)].
  - destruct (Z.eqb_spec (segment_buffer_head m1) (segment_buffer_tail m1)) as [Hempty | Hne];
      cbn [negb].
    + (* nothing to load *)
      eexists. split; [reflexivity |].
      assert (Hs2 : isr_same cfg m
                (set_sys (set_execute (bit_true (execute (sys (st_go_idle cfg m1)))
                                         (EXEC_CYCLE_STOP cfg)) (sys (st_go_idle cfg m1)))
                   (st_go_idle cfg m1))).
      { eapply isr_same_trans; [exact Hs1 |].
        eapply isr_same_trans; [apply st_go_idle_same | apply set_execute_same]. }
      split; [| split; [apply discard_report_same; exact Hs2 | apply consumes_same; exact Hs2]].
      split.
      * cbn [fst busy set_sys]. apply (st_go_idle_frame cfg m1).
      * exists owed. apply (invariant_at_same pc owed m _ Hs2 Hi).
    + (* a segment to load *)
      destruct (isr_load_segment_invariant pc owed m1 Hi1 Hload Hne Hex1)
        as (m2 & Hrun2 & Hi2 & Hnoop2 & Hlat2 & Hf2 & Hlog2 & Htl2).
      rewrite Hrun2, option_bind_some.
      destruct (isr_run_invariant pc owed m2 Hi2 Hnoop2 Hlat2) as (m' & Hrun & Hinv & Hrep & Hcon).
      exists m'. split; [exact Hrun |]. split; [exact Hinv |]. split.
      * apply (discard_report_after m m1 m' Hs1).
        apply (discard_report_trans m1 m2 m');
          [apply discard_report_quiet; assumption
          | apply (fr_buffer _ _ Hf2) | exact Htl2 | exact Hrep].
      * apply (consumes_after m m1 m' Hs1). destruct Hcon as [Hf Ho]. split.
        -- eapply isr_frame_trans; [exact Hf2 | exact Hf].
        -- rewrite <- (occupied_same m1 m2 (fr_head _ _ Hf2) Htl2). exact Ho.
Qed.

(** *** The steps of the main program *)

Lemma main_frame_refl (m : machine) : main_frame m m.
Proof. constructor; reflexivity. Qed.

Lemma tracer_main (m m' : machine) (owed : Z) (a : axis) :
  main_frame m m' -> tracer cfg pos0 m owed a -> tracer cfg pos0 m' owed a.
Proof.
  intros F H. unfold tracer, latched in *. cbv zeta in *.
  rewrite (mf_planner _ _ F), (mf_sys _ _ F), (mf_settings _ _ F), (mf_log _ _ F),
    (mf_st _ _ F).
  exact H.
Qed.

(** What a step of the main program has to show for the invariant. *)
Lemma invariant_at_main (pc pc' : prep_pc) (owed : Z) (m m' : machine) :
  invariant_at cfg pos0 (m, pc) owed ->
  main_frame m m' ->
  length (segment_data m') = 10%nat ->
  length (segment_buffer m') = 10%nat ->
  0 <= segment_buffer_head m' < SEGMENT_BUFFER_SIZE ->
  0 <= st_data_prep_index m' < SEGMENT_BUFFER_SIZE ->
  0 <= pl_prep_index m' <= block_buffer_head (planner m') ->
  match pc' with
  | PrepPubNext => True
  | _ => segment_next_head m' = next_block_index (segment_buffer_head m')
  end ->
  match pc' with
  | PrepFetch | PrepSlice | PrepPubHead => occupied m' <= 8
  | _ => True
  end ->
  (pc' = PrepSlice -> pl_prep_block m' <> None) ->
  isr_view (m', pc') owed ->
  invariant_at cfg pos0 (m', pc') owed.
Proof.
  intros Hi F Hd Hb Hh Hp Hx Hn Hr Hs Hv.
  constructor; cbn [fst snd].
  - exact Hd.
  - exact Hb.
  - exact Hh.
  - rewrite (mf_tail _ _ F). apply (ia_tail _ _ _ _ Hi).
  - exact Hp.
  - rewrite (mf_planner _ _ F). apply (ia_planner _ _ _ _ Hi).
  - exact Hx.
  - rewrite (mf_planner _ _ F). apply (ia_blocks _ _ _ _ Hi).
  - rewrite (mf_st _ _ F). apply (ia_load _ _ _ _ Hi).
  - exact Hn.
  - exact Hr.
  - exact Hs.
  - exact Hv.
  - rewrite (mf_st _ _ F), (mf_planner _ _ F), (mf_block _ _ F), (mf_cur_data _ _ F).
    apply (ia_current _ _ _ _ Hi).
  - rewrite (mf_st _ _ F), (mf_planner _ _ F). apply (ia_fresh _ _ _ _ Hi).
  - intros a. apply (tracer_main m m' owed a F). apply (ia_tracer _ _ _ _ Hi).
  - rewrite (mf_log _ _ F), (mf_planner _ _ F). apply (ia_events _ _ _ _ Hi).
  - rewrite (mf_log _ _ F), (mf_planner _ _ F). apply (ia_discards _ _ _ _ Hi).
Qed.

(** The interrupt's view when the main program has moved without touching
    the segments. *)
Lemma isr_view_move (pc pc' : prep_pc) (owed : Z) (m m' : machine) :
  main_frame m m' ->
  segment_buffer m' = segment_buffer m ->
  queued (m', pc') = queued (m, pc) ->
  occupied m <= occupied m' ->
  (forall j o, prep_tail m j o -> prep_tail m' j o) ->
  isr_view (m, pc) owed -> isr_view (m', pc') owed.
Proof.
  intros F Hb Hq Ho HT. unfold isr_view. cbn [fst snd].
  rewrite (mf_st _ _ F), (mf_planner _ _ F), (mf_tail _ _ F), (mf_segment _ _ F), Hb, Hq.
  destruct (load_flag (st m) =? LOAD_NOOP).
  - intros (H1 & H2 & H3 & seg & H4 & H5).
    split; [lia |]. split; [exact H2 |]. split; [exact H3 |]. exists seg.
    split; [exact H4 |].
    eapply after_segment_impl; [| exact H5]. intros j o. apply chain_weaken. exact HT.
  - apply chain_weaken. exact HT.
Qed.

(** The main program moves on and leaves the machine as it is. *)
Lemma invariant_at_pc (pc pc' : prep_pc) (owed : Z) (m : machine) :
  invariant_at cfg pos0 (m, pc) owed ->
  match pc' with
  | PrepPubNext => True
  | _ => segment_next_head m = next_block_index (segment_buffer_head m)
  end ->
  match pc' with
  | PrepFetch | PrepSlice | PrepPubHead => occupied m <= 8
  | _ => True
  end ->
  (pc' = PrepSlice -> pl_prep_block m <> None) ->
  queued (m, pc') = queued (m, pc) ->
  invariant_at cfg pos0 (m, pc') owed.
Proof.
  intros Hi Hn Hr Hs Hq.
  apply (invariant_at_main pc pc' owed m m Hi (main_frame_refl m)); try assumption.
  - apply (ia_data _ _ _ _ Hi).
  - apply (ia_buffer _ _ _ _ Hi).
  - apply (ia_head _ _ _ _ Hi).
  - apply (ia_prep_data _ _ _ _ Hi).
  - apply (ia_prep_index _ _ _ _ Hi).
  - apply (isr_view_move pc pc' owed m m (main_frame_refl m) eq_refl Hq (Z.le_refl _)).
    + auto.
    + apply (ia_view _ _ _ _ Hi).
Qed.

(** The loop test of [st_prep_buffer] lets the main program on only when a
    slot is free beside the one that is always kept empty. *)
Lemma occupied_room (m : machine) :
  0 <= segment_buffer_head m < SEGMENT_BUFFER_SIZE ->
  0 <= segment_buffer_tail m < SEGMENT_BUFFER_SIZE ->
  next_block_index (segment_buffer_head m) <> segment_buffer_tail m ->
  occupied m <= 8.
Proof.
  intros Hh Ht Hne. rewrite occupied_distance.
  destruct (next_block_index_range _ Hh) as [_ E]. rewrite E in Hne.
  unfold SEGMENT_BUFFER_SIZE in *.
  destruct (ring_distance_cases _ _ Ht Hh) as [[H1 H2] | [H1 H2]]; rewrite H2;
    unfold SEGMENT_BUFFER_SIZE.
  - destruct (Z.eq_dec (segment_buffer_head m) 9) as [E9 | N9]; [| lia].
    rewrite E9 in Hne. change ((9 + 1) mod 10) with 0 in Hne. lia.
  - rewrite Z.mod_small in Hne by lia. lia.
Qed.

Lemma occupied_full (m : machine) :
  0 <= segment_buffer_head m < SEGMENT_BUFFER_SIZE ->
  0 <= segment_buffer_tail m < SEGMENT_BUFFER_SIZE ->
  next_block_index (segment_buffer_head m) = segment_buffer_tail m ->
  occupied m = 9.
Proof.
  intros Hh Ht He. rewrite occupied_distance.
  destruct (next_block_index_range _ Hh) as [_ E]. rewrite E in He.
  unfold SEGMENT_BUFFER_SIZE in *.
  destruct (ring_distance_cases _ _ Ht Hh) as [[H1 H2] | [H1 H2]]; rewrite H2;
    unfold SEGMENT_BUFFER_SIZE.
  - destruct (Z.eq_dec (segment_buffer_head m) 9) as [E9 | N9].
    + rewrite E9 in He. change ((9 + 1) mod 10) with 0 in He. lia.
    + rewrite Z.mod_small in He by lia. lia.
  - destruct (Z.eq_dec (segment_buffer_head m) 9) as [E9 | N9]; [lia |].
    rewrite Z.mod_small in He by lia. lia.
Qed.

(** Publishing the head adds one segment to the ring. *)
Lemma occupied_push (m m' : machine) :
  0 <= segment_buffer_head m < SEGMENT_BUFFER_SIZE ->
  0 <= segment_buffer_tail m < SEGMENT_BUFFER_SIZE ->
  occupied m <= 8 ->
  segment_buffer_head m' = next_block_index (segment_buffer_head m) ->
  segment_buffer_tail m' = segment_buffer_tail m ->
  occupied m' = occupied m + 1.
Proof.
  intros Hh Ht Ho Eh Et. rewrite !occupied_distance, Eh, Et in *.
  destruct (next_block_index_range _ Hh) as [Hr E].
  unfold SEGMENT_BUFFER_SIZE in *.
  destruct (ring_distance_cases _ _ Ht Hr) as [[H1 H2] | [H1 H2]];
    destruct (ring_distance_cases _ _ Ht Hh) as [[H3 H4] | [H3 H4]];
    rewrite H2; rewrite H4 in *; unfold SEGMENT_BUFFER_SIZE in *; rewrite E in *;
    destruct (Z.eq_dec (segment_buffer_head m) 9) as [E9 | N9];
    try (rewrite E9 in *; change ((9 + 1) mod 10) with 0 in *; lia);
    rewrite Z.mod_small in * by lia; lia.
Qed.

Lemma isr_view_end (s : machine * prep_pc) (owed : Z) :
  isr_view s owed -> exists j o, prep_tail (fst s) j o.
Proof.
  unfold isr_view. cbv zeta. destruct (load_flag (st (fst s)) =? LOAD_NOOP).
  - intros (_ & _ & _ & seg & _ & (_ & _ & H)).
    destruct (_ =? _); destruct H as [_ H]; eapply chain_end; exact H.
  - apply chain_end.
Qed.

Lemma eob_slice_flag (d : st_data_t) :
  eob (slice_flag d) = (step_events_remaining d =? 0).
Proof.
  unfold slice_flag, eob.
  destruct (step_events_remaining d =? 0); destruct (decelerate_after d =? 0); reflexivity.
Qed.

(** The interrupt's view when the main program has written a segment into
    the slot at the head. *)
Lemma isr_view_push (owed : Z) (m m' : machine) (seg : st_segment_t) :
  invariant_at cfg pos0 (m, PrepSlice) owed ->
  main_frame m m' ->
  segment_buffer m' = store_index (segment_buffer m) (segment_buffer_head m) seg ->
  segment_buffer_head m' = segment_buffer_head m ->
  0 <= st_data_index seg < SEGMENT_BUFFER_SIZE ->
  n_step seg <= 255 ->
  (forall j o, prep_tail m j o ->
     after_segment (block_buffer_head (planner m)) (block_buffer (planner m))
       (prep_tail m') (n_step seg) (flag seg) j o) ->
  isr_view (m', PrepPubHead) owed.
Proof.
  intros Hi F Hb Hh Hdi Hn HT.
  pose proof (ia_view _ _ _ _ Hi) as Hv.
  pose proof (ia_head _ _ _ _ Hi) as Hhead.
  pose proof (ia_tail _ _ _ _ Hi) as Htail.
  pose proof (ia_buffer _ _ _ _ Hi) as Hlen.
  pose proof (ia_room _ _ _ _ Hi) as Hroom.
  cbn [fst snd] in *.
  pose proof (occupied_same m m' Hh (mf_tail _ _ F)) as Hocc.
  assert (Hq : queued (m', PrepPubHead) = S (queued (m, PrepSlice))).
  { unfold queued. cbn [fst snd]. rewrite Hocc.
    pose proof (ring_distance_range (segment_buffer_tail m) (segment_buffer_head m)) as R.
    rewrite <- occupied_distance in R. lia. }
  pose proof (ring_distance_range (segment_buffer_tail m) (segment_buffer_head m)) as R.
  rewrite <- occupied_distance in R.
  revert Hv. unfold isr_view. cbn [fst snd].
  rewrite (mf_st _ _ F), (mf_planner _ _ F), (mf_tail _ _ F), (mf_segment _ _ F), Hb, Hq, Hocc.
  destruct (load_flag (st m) =? LOAD_NOOP).
  - intros (H1 & H2 & H3 & segt & H4 & H5).
    split; [exact H1 |]. split; [exact H2 |]. split; [exact H3 |]. exists segt.
    assert (Hne : segment_buffer_head m <> segment_buffer_tail m).
    { intros E. rewrite (occupied_empty m E) in H1. lia. }
    split.
    + rewrite at_index_store_ne by lia. exact H4.
    + eapply after_segment_impl; [| exact H5]. intros j o Hc.
      cbn [Nat.pred].
      assert (Hqs : queued (m, PrepSlice) = S (Nat.pred (queued (m, PrepSlice)))).
      { unfold queued. cbn [fst snd]. lia. }
      rewrite Hqs.
      apply (chain_push _ _ _ (prep_tail m) (prep_tail m') _ seg Hhead Hlen Hdi Hn HT).
      * apply next_block_index_range. exact Htail.
      * rewrite ring_distance_next by (rewrite <- ?occupied_distance; assumption).
        rewrite <- occupied_distance. unfold queued. cbn [fst snd]. lia.
      * exact Hc.
  - intros Hc.
    apply (chain_push _ _ _ (prep_tail m) (prep_tail m') _ seg Hhead Hlen Hdi Hn HT).
    + exact Htail.
    + rewrite <- occupied_distance. unfold queued. cbn [fst snd]. lia.
    + exact Hc.
Qed.

(** Staging the next planner block, lines 518-549. *)
Lemma prep_fetch_block_invariant (owed : Z) (m : machine) :
  invariant_at cfg pos0 (m, PrepFetch) owed ->
  pl_prep_block m = None ->
  prep_fetch_block cfg m = Some None \/
  exists m',
    prep_fetch_block cfg m = Some (Some m') /\
    invariant_at cfg pos0 (m', PrepSlice) owed /\
    main_frame m m'.
Proof.
  intros Hi Hnone.
  pose proof (ia_prep_index _ _ _ _ Hi) as Hpi.
  pose proof (ia_prep_data _ _ _ _ Hi) as Hpd.
  pose proof (ia_data _ _ _ _ Hi) as Hdata.
  pose proof (ia_blocks _ _ _ _ Hi) as Hblocks.
  cbn [fst snd] in *.
  unfold prep_fetch_block, plan_get_block_by_index. cbv zeta.
  cbn [pl_prep_block set_pl_prep_block planner pl_prep_index].
  destruct (Z.eqb_spec (block_buffer_head (planner m)) (pl_prep_index m)) as [E | N];
    [left; reflexivity | right].
  destruct (Hblocks (pl_prep_index m)) as (blk & Hblk & Hok); [lia |].
  destruct (next_block_index_range _ Hpd) as [Hni _].
  destruct (at_index_in_range (segment_data m) (next_block_index (st_data_prep_index m)))
    as [dold Hdold].
  { rewrite Hdata. unfold SEGMENT_BUFFER_SIZE in Hni. lia. }
  cbn [planner set_st_prep_data set_st_data_prep_index set_pl_prep_block segment_data
       st_data_prep_index pl_prep_index].
  rewrite Hblk, option_bind_some, Hdold, option_bind_some.
  eexists. split; [reflexivity |].
  match goal with
  | |- invariant_at _ _ (?M, _) _ /\ _ => set (m' := M)
  end.
  assert (F : main_frame m m') by (constructor; reflexivity).
  split; [| exact F].
  apply (invariant_at_main PrepFetch PrepSlice owed m m' Hi F).
  - cbn. rewrite length_store_index. exact Hdata.
  - apply (ia_buffer _ _ _ _ Hi).
  - apply (ia_head _ _ _ _ Hi).
  - exact Hni.
  - exact Hpi.
  - apply (ia_next_head _ _ _ _ Hi).
  - apply (ia_room _ _ _ _ Hi).
  - intros _. discriminate.
  - apply (isr_view_move PrepFetch PrepSlice owed m m' F eq_refl eq_refl (Z.le_refl _)).
    + intros j o. unfold prep_tail. rewrite Hnone.
      intros [Hj Ho]. split; [exact Hj |].
      cbn [pl_prep_block m' set_segment_data set_st_prep_data set_st_data_prep_index
           set_pl_prep_block planner st_prep_data st_data_prep_index segment_data].
      split; [symmetry; exact Hj |]. split; [lia |]. split; [reflexivity |].
      eexists. split.
      * apply at_index_store_eq. rewrite Hdata. unfold SEGMENT_BUFFER_SIZE in Hni. lia.
      * cbn [step_events_remaining]. rewrite Ho, Hj, (count_at_block _ _ _ Hblk).
        pose proof (count_range cfg blk Hok). split; [reflexivity | lia].
    + apply (ia_view _ _ _ _ Hi).
Qed.

(** Cutting a segment, lines 567-628. *)
Lemma prep_segment_invariant (owed : Z) (m : machine) :
  invariant_at cfg pos0 (m, PrepSlice) owed ->
  exists m',
    prep_segment m = Some m' /\
    invariant_at cfg pos0 (m', PrepPubHead) owed /\
    main_frame m m'.
Proof.
  intros Hi.
  pose proof (ia_prep_index _ _ _ _ Hi) as Hpi.
  pose proof (ia_prep_data _ _ _ _ Hi) as Hpd.
  pose proof (ia_data _ _ _ _ Hi) as Hdata.
  pose proof (ia_buffer _ _ _ _ Hi) as Hlen.
  pose proof (ia_head _ _ _ _ Hi) as Hhead.
  pose proof (ia_planner _ _ _ _ Hi) as Hplan.
  pose proof (ia_blocks _ _ _ _ Hi) as Hblocks.
  pose proof (ia_staged _ _ _ _ Hi eq_refl) as Hstaged.
  destruct (isr_view_end _ _ (ia_view _ _ _ _ Hi)) as (j & o & Hj & HT).
  cbn [fst snd] in *.
  destruct (pl_prep_block m) as [pb |] eqn:Hpb; [| contradiction].
  destruct HT as (Epb & Hjh & Hspd & dat & Hdat & Hrem & Ho).
  destruct (Hblocks j) as (blk & Hblk & Hok); [lia |].
  pose proof (count_at_block _ _ _ Hblk) as HN.
  pose proof (count_range cfg blk Hok) as HNr.
  destruct (at_index_in_range (segment_buffer m) (segment_buffer_head m)) as [old Hold].
  { rewrite Hlen. unfold SEGMENT_BUFFER_SIZE in Hhead. lia. }
  unfold prep_segment.
  rewrite Hold, option_bind_some, Hspd, option_bind_some, Hdat, option_bind_some.
  unfold slice. cbv zeta.
  destruct (slice_n_step_range 250 dat) as (Hn1 & Hn2 & _); [lia | lia |].
  cbv zeta in Hn1, Hn2.
  set (n := slice_n_step 250 dat) in *.
  assert (Hi32 : i32 (step_events_remaining dat - n) = o - n).
  { rewrite Hrem. apply i32_small. lia. }
  cbn [step_events_remaining set_step_events_remaining set_decelerate_after
       decelerate_after].
  rewrite Hi32.
  set (seg := mk_st_segment n (st_data_prep_index m)
                (slice_flag (set_step_events_remaining (o - n) dat))).
  set (dat' := mk_st_data (o - n) (d_next dat) (initial_rate dat) (nominal_rate dat)
                 (rate_delta dat) (i32 (decelerate_after dat - n)) (mm_per_step dat)).
  assert (Heob : eob (flag seg) = (o - n =? 0)) by apply eob_slice_flag.
  assert (Hpush : forall m',
    main_frame m m' ->
    segment_buffer m' = store_index (segment_buffer m) (segment_buffer_head m) seg ->
    segment_data m' = store_index (segment_data m) (st_data_prep_index m) dat' ->
    segment_buffer_head m' = segment_buffer_head m ->
    segment_next_head m' = segment_next_head m ->
    st_data_prep_index m' = st_data_prep_index m ->
    st_prep_data m' = st_prep_data m ->
    (if o - n =? 0
     then pl_prep_index m' = j + 1 /\ pl_prep_block m' = None
     else pl_prep_index m' = j /\ pl_prep_block m' = Some pb) ->
    invariant_at cfg pos0 (m', PrepPubHead) owed).
  { intros m' F Hb Hd Hh Hnh Hdp Hsp Hcase.
    apply (invariant_at_main PrepSlice PrepPubHead owed m m' Hi F).
    - rewrite Hd, length_store_index. exact Hdata.
    - rewrite Hb, length_store_index. exact Hlen.
    - rewrite Hh. exact Hhead.
    - rewrite Hdp. exact Hpd.
    - rewrite (mf_planner _ _ F).
      destruct (o - n =? 0); destruct Hcase as [-> _]; lia.
    - rewrite Hnh, Hh. apply (ia_next_head _ _ _ _ Hi).
    - rewrite (occupied_same m m' Hh (mf_tail _ _ F)). apply (ia_room _ _ _ _ Hi).
    - discriminate.
    - apply (isr_view_push owed m m' seg Hi F Hb Hh).
      + exact Hpd.
      + cbn [n_step seg]. lia.
      + intros j2 o2 [Hj2 HT2]. rewrite Hpb in HT2.
        destruct HT2 as (_ & _ & _ & dat2 & Hdat2 & Hrem2 & _).
        rewrite Hdat in Hdat2. injection Hdat2 as <-.
        rewrite Hrem in Hrem2. subst o2. rewrite <- Hj in Hj2. subst j2.
        split; [cbn [n_step seg]; lia |]. split; [lia |].
        cbn [n_step seg]. rewrite Heob.
        destruct (Z.eqb_spec n o) as [E1 | N1];
          destruct (Z.eqb_spec (o - n) 0) as [E2 | N2]; try lia;
          (split; [reflexivity |]); destruct Hcase as [Hc1 Hc2];
          unfold prep_tail; rewrite Hc1, Hc2, (mf_planner _ _ F).
        * split; reflexivity.
        * split; [reflexivity |]. split; [exact Epb |]. split; [exact Hjh |].
          split; [rewrite Hsp, Hdp; exact Hspd |].
          exists dat'. split.
          -- rewrite Hd, Hdp. apply at_index_store_eq. rewrite Hdata.
             unfold SEGMENT_BUFFER_SIZE in Hpd. lia.
          -- split; [reflexivity | lia]. }
  destruct (Z.eqb_spec (o - n) 0) as [E | N].
  - eexists. split; [reflexivity |].
    match goal with
    | |- invariant_at _ _ (?M, _) _ /\ _ => set (m' := M)
    end.
    assert (F : main_frame m m') by (constructor; reflexivity).
    split; [| exact F].
    apply (Hpush m' F); try reflexivity.
    + split; [| reflexivity].
      cbn. rewrite <- Hj. apply next_block_pl_index_succ. unfold BLOCK_BUFFER_SIZE in *. lia.
  - eexists. split; [reflexivity |].
    match goal with
    | |- invariant_at _ _ (?M, _) _ /\ _ => set (m' := M)
    end.
    assert (F : main_frame m m') by (constructor; reflexivity).
    split; [| exact F].
    apply (Hpush m' F); try reflexivity.
    + split; [symmetry; exact Hj | exact Hpb].
Qed.

(** One step of the main program through [st_prep_buffer]. *)
Lemma main_step_invariant (s : machine * prep_pc) :
  invariant cfg pos0 s ->
  exists s',
    main_step cfg s = Some s' /\
    invariant cfg pos0 s' /\
    main_frame (fst s) (fst s').
Proof.
  destruct s as [m pc]. intros [Hbusy [owed Hi]].
  pose proof (ia_head _ _ _ _ Hi) as Hhead.
  pose proof (ia_tail _ _ _ _ Hi) as Htail.
  cbn [fst snd] in *.
  destruct pc; cbn [main_step].
  - (* outside: enter *)
    eexists. split; [reflexivity |]. split; [| apply main_frame_refl].
    split; [exact Hbusy |]. exists owed.
    apply (invariant_at_pc PrepIdle PrepCheck owed m Hi); try exact I; try reflexivity.
    + apply (ia_next_head _ _ _ _ Hi).
    + discriminate.
  - (* the loop test *)
    pose proof (ia_next_head _ _ _ _ Hi) as Hnh. cbn [fst snd] in Hnh.
    destruct (Z.eqb_spec (segment_buffer_tail m) (segment_next_head m)) as [E | N];
      (eexists; split; [reflexivity |]; split; [| apply main_frame_refl]);
      (split; [exact Hbusy |]); exists owed.
    + apply (invariant_at_pc PrepCheck PrepIdle owed m Hi); try exact I; try reflexivity.
      * exact Hnh.
      * discriminate.
    + apply (invariant_at_pc PrepCheck PrepFetch owed m Hi); try reflexivity.
      * exact Hnh.
      * apply occupied_room; try assumption. rewrite <- Hnh. auto.
      * discriminate.
  - (* the block to cut *)
    destruct (pl_prep_block m) as [pb |] eqn:Hpb.
    + eexists. split; [reflexivity |]. split; [| apply main_frame_refl].
      split; [exact Hbusy |]. exists owed.
      apply (invariant_at_pc PrepFetch PrepSlice owed m Hi); try reflexivity.
      * apply (ia_next_head _ _ _ _ Hi).
      * apply (ia_room _ _ _ _ Hi).
      * intros _. rewrite Hpb. discriminate.
    + destruct (prep_fetch_block_invariant owed m Hi Hpb) as [E | (m' & E & Hi' & F)];
        rewrite E, option_bind_some.
      * eexists. split; [reflexivity |]. split; [| apply main_frame_refl].
        split; [exact Hbusy |]. exists owed.
        apply (invariant_at_pc PrepFetch PrepIdle owed m Hi); try exact I; try reflexivity.
        -- apply (ia_next_head _ _ _ _ Hi).
        -- discriminate.
      * eexists. split; [reflexivity |]. split; [| exact F].
        split; [cbn [fst]; rewrite (mf_busy _ _ F); exact Hbusy |]. exists owed. exact Hi'.
  - (* the segment *)
    destruct (prep_segment_invariant owed m Hi) as (m' & E & Hi' & F).
    rewrite E, option_bind_some.
    eexists. split; [reflexivity |]. split; [| exact F].
    split; [cbn [fst]; rewrite (mf_busy _ _ F); exact Hbusy |]. exists owed. exact Hi'.
  - (* publish the head *)
    pose proof (ia_next_head _ _ _ _ Hi) as Hnh.
    pose proof (ia_room _ _ _ _ Hi) as Hroom. cbn [fst snd] in Hnh, Hroom.
    assert (F : main_frame m (prep_publish_head m)) by (constructor; reflexivity).
    assert (Hocc : occupied (prep_publish_head m) = occupied m + 1).
    { apply (occupied_push m (prep_publish_head m) Hhead Htail Hroom Hnh eq_refl). }
    eexists. split; [reflexivity |]. split; [| exact F].
    split; [exact Hbusy |]. exists owed.
    apply (invariant_at_main PrepPubHead PrepPubNext owed m _ Hi F); try exact I.
    + apply (ia_data _ _ _ _ Hi).
    + apply (ia_buffer _ _ _ _ Hi).
    + change (segment_buffer_head (prep_publish_head m)) with (segment_next_head m).
      rewrite Hnh. apply next_block_index_range. exact Hhead.
    + apply (ia_prep_data _ _ _ _ Hi).
    + apply (ia_prep_index _ _ _ _ Hi).
    + discriminate.
    + apply (isr_view_move PrepPubHead PrepPubNext owed m _ F eq_refl).
      * unfold queued. cbn [fst snd]. rewrite Hocc. f_equal. lia.
      * lia.
      * intros j o H. exact H.
      * apply (ia_view _ _ _ _ Hi).
  - (* and the slot after it *)
    assert (F : main_frame m (prep_publish_next m)) by (constructor; reflexivity).
    eexists. split; [reflexivity |]. split; [| exact F].
    split; [exact Hbusy |]. exists owed.
    apply (invariant_at_main PrepPubNext PrepCheck owed m _ Hi F); try exact I.
    + apply (ia_data _ _ _ _ Hi).
    + apply (ia_buffer _ _ _ _ Hi).
    + exact Hhead.
    + apply (ia_prep_data _ _ _ _ Hi).
    + apply (ia_prep_index _ _ _ _ Hi).
    + reflexivity.
    + discriminate.
    + apply (isr_view_move PrepPubNext PrepCheck owed m _ F eq_refl eq_refl (Z.le_refl _)).
      * intros j o H. exact H.
      * apply (ia_view _ _ _ _ Hi).
Qed.

(** The port reset interrupt writes the stepping port and nothing else. *)
Lemma ISR_TIMER0_OVF_same (m : machine) : isr_same cfg m (ISR_TIMER0_OVF cfg m).
Proof.
  constructor; try reflexivity. constructor; reflexivity.
Qed.

Lemma same_job_refl (m : machine) : same_job m m.
Proof. repeat split. Qed.

Lemma same_job_trans (m1 m2 m3 : machine) :
  same_job m1 m2 -> same_job m2 m3 -> same_job m1 m3.
Proof.
  intros (A1 & B1 & C1) (A2 & B2 & C2). repeat split; congruence.
Qed.

Lemma same_job_isr (m m' : machine) : isr_frame m m' -> same_job m m'.
Proof.
  intros F. split; [apply (fr_settings _ _ F) |].
  split; [apply (fr_blocks _ _ F) | apply (fr_blocks_head _ _ F)].
Qed.

Lemma same_job_main (m m' : machine) : main_frame m m' -> same_job m m'.
Proof.
  intros F. unfold same_job. rewrite (mf_settings _ _ F), (mf_planner _ _ F). auto.
Qed.

(** Every action keeps the invariant and is defined: no action of the
    driver reads through a null pointer or outside an array. *)
Lemma exec1_invariant (a : action) (s : machine * prep_pc) :
  invariant cfg pos0 s ->
  exists s',
    exec1 cfg a s = Some s' /\ invariant cfg pos0 s' /\ same_job (fst s) (fst s').
Proof.
  intros Hinv. destruct a; cbn [exec1].
  - destruct (tick_invariant s Hinv) as (m' & E & Hinv' & _ & [F _]).
    rewrite E, option_bind_some. eexists. split; [reflexivity |].
    split; [exact Hinv' | apply same_job_isr; exact F].
  - destruct (main_step_invariant s Hinv) as (s' & E & Hinv' & F).
    exists s'. split; [exact E |]. split; [exact Hinv' | apply same_job_main; exact F].
  - destruct s as [m pc]. destruct Hinv as [Hbusy [owed Hi]]. cbn [fst snd] in *.
    pose proof (ISR_TIMER0_OVF_same m) as Hs.
    eexists. split; [reflexivity |]. split.
    + split; [exact Hbusy |]. exists owed. apply (invariant_at_same pc owed m _ Hs Hi).
    + apply same_job_isr. apply (sm_frame _ _ _ Hs).
Qed.

Lemma run_invariant (acts : list action) :
  forall s, invariant cfg pos0 s ->
  exists s',
    run cfg acts s = Some s' /\ invariant cfg pos0 s' /\ same_job (fst s) (fst s').
Proof.
  induction acts as [| a acts IH]; intros s Hinv; cbn [run].
  - exists s. split; [reflexivity |]. split; [exact Hinv | apply same_job_refl].
  - destruct (exec1_invariant a s Hinv) as (s1 & E1 & Hinv1 & J1).
    rewrite E1, option_bind_some.
    destruct (IH s1 Hinv1) as (s' & E' & Hinv' & J').
    exists s'. split; [exact E' |]. split; [exact Hinv' |].
    apply (same_job_trans _ _ _ J1 J').
Qed.

(** The driver starts in the invariant. *)
Lemma boot_invariant (m0 : machine) :
  power_on cfg m0 ->
  (forall a, pos0 a = position (sys m0) a) ->
  invariant cfg pos0 (boot m0).
Proof.
  intros Hpo Hpos. unfold boot. split; [reflexivity |].
  exists (count_at (block_buffer (planner m0)) 0).
  pose proof (po_tail _ _ Hpo) as Ht.
  pose proof (po_head _ _ Hpo) as Hh.
  pose proof (po_blocks _ _ Hpo) as Hb.
  constructor; cbn [fst snd].
  - apply (po_data _ _ Hpo).
  - apply (po_buffer _ _ Hpo).
  - change (segment_buffer_head (st_reset m0)) with (segment_buffer_head m0).
    rewrite Hh. unfold SEGMENT_BUFFER_SIZE. lia.
  - cbn. unfold SEGMENT_BUFFER_SIZE. lia.
  - cbn. unfold SEGMENT_BUFFER_SIZE. lia.
  - change (planner (st_reset m0)) with (planner m0). rewrite Ht. lia.
  - change (planner (st_reset m0)) with (planner m0). cbn. lia.
  - apply (po_block_ok _ _ Hpo).
  - right. right. reflexivity.
  - change (segment_buffer_head (st_reset m0)) with (segment_buffer_head m0).
    rewrite Hh. reflexivity.
  - exact I.
  - discriminate.
  - unfold isr_view. cbn [fst snd].
    change (load_flag (st (st_reset m0))) with LOAD_BLOCK.
    cbn [Z.eqb LOAD_BLOCK LOAD_NOOP].
    unfold queued, occupied. cbn [fst snd].
    change (segment_buffer_head (st_reset m0)) with (segment_buffer_head m0).
    change (segment_buffer_tail (st_reset m0)) with 0.
    rewrite Hh. cbn [chain Z.to_nat Z.sub Z.add Z.modulo Z.div_eucl].
    change (Z.to_nat ((0 - 0) mod SEGMENT_BUFFER_SIZE + 0)) with O. cbn [chain].
    unfold prep_tail. change (planner (st_reset m0)) with (planner m0).
    change (pl_prep_block (st_reset m0)) with (@None Z).
    change (pl_prep_index (st_reset m0)) with 0. rewrite Ht. split; reflexivity.
  - intros H. exfalso. apply H. reflexivity.
  - intros _. change (planner (st_reset m0)) with (planner m0). rewrite Ht. reflexivity.
  - intros a. unfold tracer. cbv zeta.
    change (planner (st_reset m0)) with (planner m0).
    change (sys (st_reset m0)) with (sys m0).
    change (settings (st_reset m0)) with (settings m0).
    change (log (st_reset m0)) with (log m0).
    change (load_flag (st (st_reset m0))) with LOAD_BLOCK.
    rewrite Ht, (po_log _ _ Hpo), !before_zero.
    exists 0. split; [| split; [reflexivity | reflexivity]].
    rewrite Z.mul_0_r, !Z.add_0_r, Hpos. symmetry. apply i32_small.
    apply (po_position _ _ Hpo).
  - change (planner (st_reset m0)) with (planner m0).
    change (log (st_reset m0)) with (log m0).
    rewrite Ht, (po_log _ _ Hpo), before_zero. cbn [step_events]. lia.
  - change (planner (st_reset m0)) with (planner m0).
    change (log (st_reset m0)) with (log m0).
    rewrite Ht, (po_log _ _ Hpo). reflexivity.
Qed.

(** *** [st_prep_buffer] run through *)

Lemma prep_fetch_block_none (m : machine) :
  prep_fetch_block cfg m = Some None ->
  pl_prep_index m = block_buffer_head (planner m).
Proof.
  unfold prep_fetch_block, plan_get_block_by_index. cbv zeta.
  cbn [pl_prep_block set_pl_prep_block planner pl_prep_index].
  destruct (Z.eqb_spec (block_buffer_head (planner m)) (pl_prep_index m)) as [E | N].
  - intros _. symmetry. exact E.
  - cbn [planner set_st_prep_data set_st_data_prep_index set_pl_prep_block segment_data
         st_data_prep_index pl_prep_index].
    destruct (at_index (block_buffer (planner m)) (pl_prep_index m)); [| discriminate].
    rewrite option_bind_some.
    destruct (at_index (segment_data m) (next_block_index (st_data_prep_index m)));
      discriminate.
Qed.

Lemma prep_fetch_block_ring (m m' : machine) :
  prep_fetch_block cfg m = Some (Some m') ->
  segment_buffer_head m' = segment_buffer_head m /\
  segment_next_head m' = segment_next_head m.
Proof.
  unfold prep_fetch_block, plan_get_block_by_index. cbv zeta.
  cbn [pl_prep_block set_pl_prep_block planner pl_prep_index].
  destruct (block_buffer_head (planner m) =? pl_prep_index m); [discriminate |].
  cbn [planner set_st_prep_data set_st_data_prep_index set_pl_prep_block segment_data
       st_data_prep_index pl_prep_index].
  destruct (at_index (block_buffer (planner m)) (pl_prep_index m)); [| discriminate].
  rewrite option_bind_some.
  destruct (at_index (segment_data m) (next_block_index (st_data_prep_index m)));
    [| discriminate].
  rewrite option_bind_some. intros E. injection E as <-. split; reflexivity.
Qed.

Lemma prep_segment_ring (m m' : machine) :
  prep_segment m = Some m' ->
  segment_buffer_head m' = segment_buffer_head m /\
  segment_next_head m' = segment_next_head m.
Proof.
  unfold prep_segment.
  destruct (at_index (segment_buffer m) (segment_buffer_head m)); [| discriminate].
  rewrite option_bind_some.
  destruct (st_prep_data m) as [pi |]; [| discriminate]. rewrite option_bind_some.
  destruct (at_index (segment_data m) pi) as [dat |]; [| discriminate].
  rewrite option_bind_some.
  destruct (slice 250 (st_data_prep_index m) dat) as [seg dat'].
  destruct (step_events_remaining dat' =? 0); intros E; injection E as <-;
    split; reflexivity.
Qed.

Lemma main_frame_trans (m1 m2 m3 : machine) :
  main_frame m1 m2 -> main_frame m2 m3 -> main_frame m1 m3.
Proof.
  intros [] []. constructor; congruence.
Qed.

(** The loop of [st_prep_buffer], entered at its test with [fuel] turns to
    go: it comes to its end, with the ring full or the planner's blocks all cut.  *)
Lemma st_prep_buffer_invariant (fuel : nat) :
  forall m,
    invariant cfg pos0 (m, PrepCheck) ->
    (Z.to_nat (9 - occupied m) < fuel)%nat ->
    exists m',
      st_prep_buffer cfg fuel m = Some m' /\
      invariant cfg pos0 (m', PrepIdle) /\
      main_frame m m' /\
      (ring_full m' \/
       (pl_prep_block m' = None /\ pl_prep_index m' = block_buffer_head (planner m'))).
Proof.
  induction fuel as [| fuel IH]; intros m Hinv Hfuel; [lia |].
  pose proof Hinv as [_ [owed Hi]].
  pose proof (ia_next_head _ _ _ _ Hi) as Hnh.
  pose proof (ia_head _ _ _ _ Hi) as Hhead.
  pose proof (ia_tail _ _ _ _ Hi) as Htail.
  cbn [fst snd] in *.
  destruct (main_step_invariant _ Hinv) as (s1 & E1 & Hinv1 & _).
  cbn [st_prep_buffer]. cbn [main_step] in E1.
  destruct (Z.eqb_spec (segment_buffer_tail m) (segment_next_head m)) as [E | N].
  - (* full *)
    injection E1 as <-. exists m. split; [reflexivity |]. split; [exact Hinv1 |].
    split; [apply main_frame_refl |]. left. unfold ring_full. rewrite <- Hnh, E. reflexivity.
  - injection E1 as <-.
    assert (Hroom : occupied m <= 8).
    { apply occupied_room; try assumption. rewrite <- Hnh. auto. }
    destruct (main_step_invariant _ Hinv1) as (s2 & E2 & Hinv2 & F2).
    cbn [main_step] in E2.
    assert (Hstage : exists m1,
      match pl_prep_block m with
      | None => prep_fetch_block cfg m
      | Some _ => Some (Some m)
      end = Some m1 /\
      match m1 with
      | None => invariant cfg pos0 (m, PrepIdle) /\ pl_prep_block m = None /\
                pl_prep_index m = block_buffer_head (planner m)
      | Some m1 => invariant cfg pos0 (m1, PrepSlice) /\ main_frame m m1 /\
                   segment_buffer_head m1 = segment_buffer_head m /\
                   segment_next_head m1 = segment_next_head m
      end).
    { destruct (pl_prep_block m) as [pb |] eqn:Hpb.
      - injection E2 as <-. cbn [fst] in F2. exists (Some m). split; [reflexivity |].
        split; [exact Hinv2 |]. split; [apply main_frame_refl | split; reflexivity].
      - destruct (prep_fetch_block cfg m) as [[m1 |] |] eqn:Ef; [| | discriminate].
        + rewrite option_bind_some in E2. injection E2 as <-. cbn [fst] in F2.
          exists (Some m1). split; [reflexivity |]. split; [exact Hinv2 |].
          split; [exact F2 |]. apply prep_fetch_block_ring. exact Ef.
        + rewrite option_bind_some in E2. injection E2 as <-.
          exists None. split; [reflexivity |]. split; [exact Hinv2 |].
          split; [reflexivity |]. apply prep_fetch_block_none. exact Ef. }
    destruct Hstage as (r & Er & Hr). rewrite Er, option_bind_some.
    destruct r as [m1 |].
    + destruct Hr as (Hinv1' & F1 & Hh1 & Hn1).
      destruct (main_step_invariant _ Hinv1') as (s3 & E3 & Hinv3 & F3).
      cbn [main_step] in E3.
      destruct (prep_segment m1) as [m2 |] eqn:Es; [| discriminate].
      rewrite option_bind_some in E3. injection E3 as <-. cbn [fst] in F3.
      rewrite option_bind_some.
      destruct (prep_segment_ring m1 m2 Es) as [Hh2 Hn2].
      destruct (main_step_invariant _ Hinv3) as (s4 & E4 & Hinv4 & F4).
      cbn [main_step] in E4. cbn [fst] in F4. injection E4 as <-.
      destruct (main_step_invariant _ Hinv4) as (s5 & E5 & Hinv5 & F5).
      cbn [main_step] in E5. cbn [fst] in F5. injection E5 as <-.
      assert (Hocc : occupied (prep_publish_next (prep_publish_head m2)) = occupied m + 1).
      { apply occupied_push; try assumption.
        - change (segment_buffer_head (prep_publish_next (prep_publish_head m2)))
            with (segment_next_head m2).
          rewrite Hn2, Hn1. exact Hnh.
        - change (segment_buffer_tail (prep_publish_next (prep_publish_head m2)))
            with (segment_buffer_tail m2).
          rewrite (mf_tail _ _ F3), (mf_tail _ _ F1). reflexivity. }
      destruct (IH _ Hinv5) as (m' & E' & Hinv' & F' & Hend); [lia |].
      exists m'. split; [exact E' |]. split; [exact Hinv' |]. split; [| exact Hend].
      eapply main_frame_trans; [exact F1 |]. eapply main_frame_trans; [exact F3 |].
      eapply main_frame_trans; [exact F4 |]. eapply main_frame_trans; [exact F5 | exact F'].
    + destruct Hr as (Hinv' & Hpb & Hpi).
      exists m. split; [reflexivity |]. split; [exact Hinv' |].
      split; [apply main_frame_refl |]. right. split; assumption.
Qed.

End Running.

(** * The driver as a whole *)

Lemma demo_config_ok : config_ok demo_cfg.
Proof.
  constructor.
  - intros []; cbn; lia.
  - intros []; cbn; lia.
  - intros [] []; cbn; intros H; try (exfalso; apply H; reflexivity); discriminate.
  - intros [] []; cbn; discriminate.
  - intros []; reflexivity.
Qed.

Lemma demo_block_ok : block_ok demo_cfg demo_block.
Proof.
  constructor.
  - cbn. lia.
  - intros []; cbn; lia.
  - intros []; reflexivity.
Qed.

Lemma demo_power_on_ok : power_on demo_cfg demo_power_on.
Proof.
  constructor; try reflexivity.
  - cbn. unfold BLOCK_BUFFER_SIZE. lia.
  - intros j Hj. cbn in Hj. exists demo_block. split; [| apply demo_block_ok].
    assert (E : j = 0 \/ j = 1) by lia. destruct E as [-> | ->]; reflexivity.
  - intros a. unfold is_i32. cbn. lia.
Qed.

(** From power-on, whatever the actions and their order, the driver is
    defined and in its invariant, and the job is what it was. *)
Lemma reachable_invariant (cfg : config) (m0 : machine) (acts : list action)
    (s : machine * prep_pc) :
  config_ok cfg ->
  power_on cfg m0 ->
  run cfg acts (boot m0) = Some s ->
  invariant cfg (fun a => position (sys m0) a) s /\ same_job m0 (fst s).
Proof.
  intros Hcfg Hpo Hrun.
  destruct (run_invariant cfg Hcfg _ acts (boot m0)
              (boot_invariant cfg _ m0 Hpo (fun a => eq_refl)))
    as (s' & Hrun' & Hinv & Hjob).
  rewrite Hrun in Hrun'. injection Hrun' as <-. split; [exact Hinv | exact Hjob].
Qed.

(** At a block boundary, where the interrupt is to load a new block, the
    position, the pulses and the step events are those of the blocks
    discarded so far. *)
Lemma block_boundary (cfg : config) (pos0 : axis -> Z) (s : machine * prep_pc) :
  invariant cfg pos0 s ->
  load_flag (st (fst s)) = LOAD_BLOCK ->
  let m := fst s in
  let bs := block_buffer (planner m) in
  let d := block_buffer_tail (planner m) in
  step_events (log m) = before step_event_count bs d /\
  forall a,
    position (sys m) a = i32 (pos0 a + before (signed_steps cfg a) bs d) /\
    pulses cfg (invert_mask (settings m)) a (log m) + latched cfg a m =
      before (fun b => steps b a) bs d.
Proof.
  intros [_ [owed Hi]] Hlf. cbv zeta. split.
  - rewrite (ia_events _ _ _ _ Hi), (ia_fresh _ _ _ _ Hi Hlf). lia.
  - intros a. destruct (ia_tracer _ _ _ _ Hi a) as (k & Hpos & Hpul & Hk).
    rewrite Hlf in Hk. cbn [Z.eqb LOAD_BLOCK] in Hk.
    rewrite Pos.eqb_refl in Hk. subst k.
    rewrite Hpos, Hpul. split; [f_equal; lia | lia].
Qed.

(** X19. Within one cycle, from [st_reset] through any order of ticks, port
    resets and steps of the main program with no call of [st_wake_up] in
    between, a planner block that the interrupt consumes from one block
    boundary to the next puts on every axis exactly the block's step count
    of pulses, moves the position counter of the axis by that count in the
    block's direction, and takes the block's number of step events, whatever
    rate the ramp chooses.  It ends where the cycle is started again in the
    middle of a block. *)
Theorem block_steps_exact (cfg : config) (m0 : machine) (acts1 acts2 : list action)
    (s1 s2 : machine * prep_pc) (blk : plan_block_t) :
  config_ok cfg ->
  power_on cfg m0 ->
  run cfg acts1 (boot m0) = Some s1 ->
  run cfg acts2 s1 = Some s2 ->
  load_flag (st (fst s1)) = LOAD_BLOCK ->
  load_flag (st (fst s2)) = LOAD_BLOCK ->
  block_buffer_tail (planner (fst s2)) = block_buffer_tail (planner (fst s1)) + 1 ->
  at_index (block_buffer (planner m0)) (block_buffer_tail (planner (fst s1))) = Some blk ->
  step_events (log (fst s2)) - step_events (log (fst s1)) = step_event_count blk /\
  forall a,
    (pulses cfg (invert_mask (settings m0)) a (log (fst s2)) + latched cfg a (fst s2))
    - (pulses cfg (invert_mask (settings m0)) a (log (fst s1)) + latched cfg a (fst s1))
      = steps blk a /\
    position (sys (fst s2)) a = i32 (position (sys (fst s1)) a + signed_steps cfg a blk).
Proof.
  intros Hcfg Hpo Hrun1 Hrun2 Hlf1 Hlf2 Htail Hblk.
  destruct (reachable_invariant cfg m0 acts1 s1 Hcfg Hpo Hrun1) as [Hinv1 (JS1 & JB1 & _)].
  assert (Hrun : run cfg (acts1 ++ acts2) (boot m0) = Some s2).
  { clear - Hrun1 Hrun2. revert Hrun1. generalize (boot m0).
    induction acts1 as [| a acts1 IH]; intros s0 H; cbn [run app] in *.
    - injection H as ->. exact Hrun2.
    - destruct (exec1 cfg a s0) as [s |]; [| discriminate]. apply IH. exact H. }
  destruct (reachable_invariant cfg m0 _ s2 Hcfg Hpo Hrun) as [Hinv2 (JS2 & JB2 & _)].
  destruct (block_boundary cfg _ s1 Hinv1 Hlf1) as [He1 Ha1].
  destruct (block_boundary cfg _ s2 Hinv2 Hlf2) as [He2 Ha2].
  cbv zeta in *. rewrite JB1 in *. rewrite JB2 in *. rewrite Htail in *.
  rewrite (before_succ _ _ _ _ Hblk) in He2. split; [lia |].
  intros a. destruct (Ha1 a) as [P1 U1]. destruct (Ha2 a) as [P2 U2].
  rewrite JS1 in U1. rewrite JS2 in U2.
  rewrite (before_succ _ _ _ _ Hblk) in P2. rewrite (before_succ _ _ _ _ Hblk) in U2.
  split; [lia |].
  rewrite P2, P1, i32_i32_add. f_equal. lia.
Qed.

Lemma block_steps_exact_witness :
  step_events (log (fst (demo_state 34))) - step_events (log (fst (demo_state 19)))
    = step_event_count demo_block /\
  forall a,
    (pulses demo_cfg (invert_mask (settings demo_power_on)) a (log (fst (demo_state 34)))
       + latched demo_cfg a (fst (demo_state 34)))
    - (pulses demo_cfg (invert_mask (settings demo_power_on)) a (log (fst (demo_state 19)))
       + latched demo_cfg a (fst (demo_state 19)))
      = steps demo_block a /\
    position (sys (fst (demo_state 34))) a =
      i32 (position (sys (fst (demo_state 19))) a + signed_steps demo_cfg a demo_block).
Proof.
  apply (block_steps_exact demo_cfg demo_power_on (demo_schedule 19) (demo_schedule 15)
           (demo_state 19) (demo_state 34) demo_block demo_config_ok demo_power_on_ok).
  - vm_compute. reflexivity.
  - vm_compute. reflexivity.
  - vm_compute. reflexivity.
  - vm_compute. reflexivity.
  - vm_compute. reflexivity.
  - vm_compute. reflexivity.
Defined.

(** C9. In every state the driver reaches, the discards logged so far are
    as many as the planner blocks whose step events have all been executed:
    one discard for each such block.  A tick from that state logs a discard
    exactly when it moves the ring tail past a segment flagged as the last of
    its block, which it does when the last step of that segment is taken; it
    logs none past a segment flagged otherwise, and never more than one. *)
Theorem discard_once_per_block (cfg : config) (m0 : machine) (acts : list action)
    (s : machine * prep_pc) :
  config_ok cfg ->
  power_on cfg m0 ->
  run cfg acts (boot m0) = Some s ->
  let m := fst s in
  let bs := block_buffer (planner m0) in
  let d := discards (log m) in
  d = block_buffer_tail (planner m) /\
  before step_event_count bs d <= step_events (log m) /\
  (d < block_buffer_head (planner m0) ->
   step_events (log m) < before step_event_count bs (d + 1)) /\
  (d = block_buffer_head (planner m0) ->
   step_events (log m) = before step_event_count bs d) /\
  exists m' seg,
    ISR_TIMER2_COMPA cfg m = Some m' /\
    at_index (segment_buffer m) (segment_buffer_tail m) = Some seg /\
    discards (log m') =
      d + (if eob (flag seg) && negb (segment_buffer_tail m' =? segment_buffer_tail m)
           then 1 else 0).
Proof.
  intros Hcfg Hpo Hrun. cbv zeta.
  destruct (reachable_invariant cfg m0 acts s Hcfg Hpo Hrun) as [Hinv (JS & JB & JH)].
  pose proof Hinv as [_ [owed Hi]].
  pose proof (ia_discards _ _ _ _ Hi) as Hd.
  pose proof (ia_events _ _ _ _ Hi) as He.
  pose proof (ia_planner _ _ _ _ Hi) as Hp.
  pose proof (ia_current _ _ _ _ Hi) as Hc.
  pose proof (ia_fresh _ _ _ _ Hi) as Hf.
  pose proof (ia_load _ _ _ _ Hi) as Hl.
  pose proof (ia_blocks _ _ _ _ Hi) as Hb.
  rewrite JB, ?JH in *. rewrite Hd.
  set (d := block_buffer_tail (planner (fst s))) in *.
  assert (Howed : 0 < owed <= count_at (block_buffer (planner m0)) d \/
                  (load_flag (st (fst s)) = LOAD_BLOCK /\
                   owed = count_at (block_buffer (planner m0)) d)).
  { destruct (Z.eq_dec (load_flag (st (fst s))) LOAD_BLOCK) as [E | N].
    - right. split; [exact E | apply Hf; exact E].
    - left. apply Hc. exact N. }
  split; [reflexivity |]. split; [lia |]. split; [| split].
  - intros Hlt. destruct (Hb d) as (b & Hat & Hok); [lia |].
    rewrite (before_succ _ _ _ _ Hat). pose proof (count_range cfg b Hok).
    rewrite (count_at_block _ _ _ Hat) in *. lia.
  - intros Heq. destruct Howed as [Hpos | [E Ho]]; [| lia].
    destruct (Z.eq_dec (load_flag (st (fst s))) LOAD_BLOCK) as [E | N]; [rewrite (Hf E) in *; lia |].
    destruct (Hc N) as (_ & Hlt & _). lia.
  - destruct (tick_invariant cfg Hcfg _ s Hinv) as (m' & Htick & _ & Hrep & _).
    destruct (at_index_in_range (segment_buffer (fst s)) (segment_buffer_tail (fst s)))
      as [seg Hseg].
    { rewrite (ia_buffer _ _ _ _ Hi). pose proof (ia_tail _ _ _ _ Hi) as Ht.
      unfold SEGMENT_BUFFER_SIZE in Ht. lia. }
    exists m', seg. split; [exact Htick |]. split; [exact Hseg |].
    rewrite (Hrep seg Hseg), Hd. reflexivity.
Qed.

Lemma discard_once_per_block_witness :
  let m := fst (demo_state 18) in
  let bs := block_buffer (planner demo_power_on) in
  let d := discards (log m) in
  d = block_buffer_tail (planner m) /\
  before step_event_count bs d <= step_events (log m) /\
  (d < block_buffer_head (planner demo_power_on) ->
   step_events (log m) < before step_event_count bs (d + 1)) /\
  (d = block_buffer_head (planner demo_power_on) ->
   step_events (log m) = before step_event_count bs d) /\
  exists m' seg,
    ISR_TIMER2_COMPA demo_cfg m = Some m' /\
    at_index (segment_buffer m) (segment_buffer_tail m) = Some seg /\
    discards (log m') =
      d + (if eob (flag seg) && negb (segment_buffer_tail m' =? segment_buffer_tail m)
           then 1 else 0).
Proof.
  apply (discard_once_per_block demo_cfg demo_power_on (demo_schedule 18) (demo_state 18)
           demo_config_ok demo_power_on_ok).
  vm_compute. reflexivity.
Defined.

(** C5. In every state the driver reaches, under every interleaving, the
    ring holds between 0 and 9 segments, it is empty exactly at 0 and full
    exactly at 9, so never both; the loop of [st_prep_buffer] leaves exactly
    when the ring is full; where the main program is about to publish a
    segment there is room, and publishing adds one segment; and a tick takes
    at most one segment off the ring and leaves the head alone. *)
Theorem ring_never_overruns (cfg : config) (m0 : machine) (acts : list action)
    (s : machine * prep_pc) :
  config_ok cfg ->
  power_on cfg m0 ->
  run cfg acts (boot m0) = Some s ->
  let m := fst s in
  0 <= occupied m <= SEGMENT_BUFFER_SIZE - 1 /\
  (ring_empty m <-> occupied m = 0) /\
  (ring_full m <-> occupied m = SEGMENT_BUFFER_SIZE - 1) /\
  ~ (ring_full m /\ ring_empty m) /\
  (snd s = PrepCheck -> (main_step cfg s = Some (m, PrepIdle) <-> ring_full m)) /\
  (snd s = PrepPubHead ->
   occupied m <= SEGMENT_BUFFER_SIZE - 2 /\
   occupied (prep_publish_head m) = occupied m + 1) /\
  exists m',
    ISR_TIMER2_COMPA cfg m = Some m' /\
    segment_buffer_head m' = segment_buffer_head m /\
    occupied m - 1 <= occupied m' <= occupied m.
Proof.
  intros Hcfg Hpo Hrun. cbv zeta.
  destruct (reachable_invariant cfg m0 acts s Hcfg Hpo Hrun) as [Hinv _].
  pose proof Hinv as [_ [owed Hi]].
  pose proof (ia_head _ _ _ _ Hi) as Hh.
  pose proof (ia_tail _ _ _ _ Hi) as Ht.
  pose proof (ia_next_head _ _ _ _ Hi) as Hnh.
  pose proof (ia_room _ _ _ _ Hi) as Hroom.
  pose proof (ring_distance_range (segment_buffer_tail (fst s)) (segment_buffer_head (fst s)))
    as Hr.
  rewrite <- occupied_distance in Hr.
  assert (Hempty : ring_empty (fst s) <-> occupied (fst s) = 0).
  { unfold ring_empty. split.
    - apply occupied_empty.
    - intros E. rewrite occupied_distance in E.
      apply (ring_distance_zero _ _ Ht Hh E). }
  assert (Hfull : ring_full (fst s) <-> occupied (fst s) = SEGMENT_BUFFER_SIZE - 1).
  { unfold ring_full. split.
    - apply (occupied_full (fst s) Hh Ht).
    - intros E.
      destruct (Z.eq_dec (next_block_index (segment_buffer_head (fst s)))
                  (segment_buffer_tail (fst s))) as [E' | N]; [exact E' |].
      pose proof (occupied_room (fst s) Hh Ht N). unfold SEGMENT_BUFFER_SIZE in E. lia. }
  split; [unfold SEGMENT_BUFFER_SIZE in *; lia |].
  split; [exact Hempty |]. split; [exact Hfull |].
  split; [intros [F E]; apply Hfull in F; apply Hempty in E;
          unfold SEGMENT_BUFFER_SIZE in F; lia |].
  split; [| split].
  - destruct s as [m pc]. cbn [fst snd] in *. intros ->. cbn [main_step].
    unfold ring_full. rewrite <- Hnh.
    destruct (Z.eqb_spec (segment_buffer_tail m) (segment_next_head m)) as [E | N].
    + split; [intros _; symmetry; exact E | reflexivity].
    + split; [discriminate | intros E; exfalso; apply N; symmetry; exact E].
  - destruct s as [m pc]. cbn [fst snd] in *. intros ->.
    split; [unfold SEGMENT_BUFFER_SIZE; lia |].
    apply (occupied_push m (prep_publish_head m) Hh Ht Hroom Hnh eq_refl).
  - destruct (tick_invariant cfg Hcfg _ s Hinv) as (m' & Htick & _ & _ & [F Ho]).
    exists m'. split; [exact Htick |]. split; [apply (fr_head _ _ F) | exact Ho].
Qed.

Lemma ring_never_overruns_witness :
  let m := fst (demo_state 9) in
  0 <= occupied m <= SEGMENT_BUFFER_SIZE - 1 /\
  (ring_empty m <-> occupied m = 0) /\
  (ring_full m <-> occupied m = SEGMENT_BUFFER_SIZE - 1) /\
  ~ (ring_full m /\ ring_empty m) /\
  (snd (demo_state 9) = PrepCheck ->
   (main_step demo_cfg (demo_state 9) = Some (m, PrepIdle) <-> ring_full m)) /\
  (snd (demo_state 9) = PrepPubHead ->
   occupied m <= SEGMENT_BUFFER_SIZE - 2 /\
   occupied (prep_publish_head m) = occupied m + 1) /\
  exists m',
    ISR_TIMER2_COMPA demo_cfg m = Some m' /\
    segment_buffer_head m' = segment_buffer_head m /\
    occupied m - 1 <= occupied m' <= occupied m.
Proof.
  apply (ring_never_overruns demo_cfg demo_power_on (demo_schedule 9) (demo_state 9)
           demo_config_ok demo_power_on_ok).
  vm_compute. reflexivity.
Defined.

(** C4. What [st_reset] leaves: the runtime state zeroed with [load_flag]
    at [LOAD_BLOCK], the staged-block pointers and the preparation indices
    cleared, the ring tail at 0 and [segment_next_head] at 1, and
    [segment_buffer_head] as it was; so the ring reads as empty after the
    call only if the head was 0 before it. *)
Theorem st_reset_keeps_head (m : machine) :
  st (st_reset m) = set_load_flag LOAD_BLOCK stepper_zero /\
  pl_current_block (st_reset m) = None /\
  pl_prep_block (st_reset m) = None /\
  pl_prep_index (st_reset m) = 0 /\
  st_data_prep_index (st_reset m) = 0 /\
  busy (st_reset m) = false /\
  segment_buffer_tail (st_reset m) = 0 /\
  segment_next_head (st_reset m) = 1 /\
  segment_buffer_head (st_reset m) = segment_buffer_head m /\
  (ring_empty (st_reset m) <-> segment_buffer_head m = 0).
Proof.
  repeat (split; [reflexivity |]). unfold ring_empty. cbn. reflexivity.
Qed.

(** A reset after the main program has queued segments: the head stays at 4
    over a tail of 0, and the next tick loads a segment of the old job. *)
Lemma st_reset_stale_ring :
  exists m,
    st_prep_buffer demo_cfg 10 (st_reset demo_power_on) = Some m /\
    segment_buffer_head (st_reset m) = 4 /\
    segment_buffer_tail (st_reset m) = 0 /\
    negb (segment_buffer_head (st_reset m) =? segment_buffer_tail (st_reset m)) = true /\
    exists m', ISR_TIMER2_COMPA demo_cfg (st_reset m) = Some m' /\
               st_current_segment m' = Some 0 /\ load_flag (st m') = LOAD_NOOP.
Proof.
  eexists. split; [vm_compute; reflexivity |].
  split; [vm_compute; reflexivity |]. split; [reflexivity |].
  split; [vm_compute; reflexivity |].
  eexists. split; [vm_compute; reflexivity |]. split; reflexivity.
Qed.

(** * Further properties of the driver *)

(** X1. From power-on, whatever ticks, port resets and steps of the main
    program come and in whatever order, every one of them is defined: the
    interrupt and [st_prep_buffer] never read through a null pointer nor
    index an array outside its bounds; and between two actions [busy] is
    clear, so no tick is ever skipped. *)
Theorem run_defined (cfg : config) (m0 : machine) (acts : list action) :
  config_ok cfg ->
  power_on cfg m0 ->
  exists s,
    run cfg acts (boot m0) = Some s /\
    busy (fst s) = false /\
    (exists m', ISR_TIMER2_COMPA cfg (fst s) = Some m' /\ busy m' = false).
Proof.
  intros Hcfg Hpo.
  destruct (run_invariant cfg Hcfg _ acts (boot m0)
              (boot_invariant cfg _ m0 Hpo (fun a => eq_refl)))
    as (s & Hrun & Hinv & _).
  exists s. split; [exact Hrun |]. split; [apply Hinv |].
  destruct (tick_invariant cfg Hcfg _ s Hinv) as (m' & E & Hinv' & _).
  exists m'. split; [exact E | apply Hinv'].
Qed.

Lemma run_defined_witness :
  exists s,
    run demo_cfg (demo_schedule 12) (boot demo_power_on) = Some s /\
    busy (fst s) = false /\
    (exists m', ISR_TIMER2_COMPA demo_cfg (fst s) = Some m' /\ busy m' = false).
Proof.
  apply (run_defined demo_cfg demo_power_on (demo_schedule 12) demo_config_ok demo_power_on_ok).
Defined.

(** X2. Called in any state the driver reaches with the main program outside
    it, [st_prep_buffer] returns within ten turns of its loop, and it returns
    with the ring full or with every block of the planner cut into segments;
    it has written none of the interrupt's variables. *)
Theorem st_prep_buffer_terminates (cfg : config) (m0 : machine) (acts : list action)
    (m : machine) :
  config_ok cfg ->
  power_on cfg m0 ->
  run cfg acts (boot m0) = Some (m, PrepIdle) ->
  exists m',
    st_prep_buffer cfg 10 m = Some m' /\
    (ring_full m' \/
     (pl_prep_block m' = None /\ pl_prep_index m' = block_buffer_head (planner m'))) /\
    main_frame m m'.
Proof.
  intros Hcfg Hpo Hrun.
  destruct (reachable_invariant cfg m0 acts _ Hcfg Hpo Hrun) as [Hinv _].
  destruct (main_step_invariant cfg _ _ Hinv) as (s1 & E1 & Hinv1 & _).
  cbn [main_step] in E1. injection E1 as <-.
  destruct (st_prep_buffer_invariant cfg _ 10 m Hinv1) as (m' & E & _ & F & Hend).
  { pose proof (ring_distance_range (segment_buffer_tail m) (segment_buffer_head m)) as R.
    rewrite <- occupied_distance in R. lia. }
  exists m'. split; [exact E |]. split; [exact Hend | exact F].
Qed.

Lemma st_prep_buffer_terminates_witness :
  exists m',
    st_prep_buffer demo_cfg 10 (fst (demo_state 23)) = Some m' /\
    (ring_full m' \/
     (pl_prep_block m' = None /\ pl_prep_index m' = block_buffer_head (planner m'))) /\
    main_frame (fst (demo_state 23)) m'.
Proof.
  apply (st_prep_buffer_terminates demo_cfg demo_power_on (demo_schedule 23)
           (fst (demo_state 23)) demo_config_ok demo_power_on_ok).
  vm_compute. reflexivity.
Defined.

Lemma run_cons (cfg : config) (a : action) (acts : list action) (s : machine * prep_pc) :
  run cfg (a :: acts) s = exec1 cfg a s ≫= run cfg acts.
Proof. reflexivity. Qed.

Lemma run_app (cfg : config) (acts1 acts2 : list action) :
  forall s s1,
    run cfg acts1 s = Some s1 -> run cfg (acts1 ++ acts2) s = run cfg acts2 s1.
Proof.
  induction acts1 as [| a acts1 IH]; intros s s1 H; cbn [run app] in *.
  - injection H as ->. reflexivity.
  - destruct (exec1 cfg a s) as [s' |]; [| discriminate].
    rewrite option_bind_some in *. apply IH. exact H.
Qed.

(** X3. [st_prep_buffer] run without interruption does what the main program
    does place by place: whenever it returns a machine, the steps of the main
    program taken one after the other from outside [st_prep_buffer] come back
    outside it with that same machine. *)
Theorem st_prep_buffer_as_steps (cfg : config) (fuel : nat) (m m' : machine) :
  st_prep_buffer cfg fuel m = Some m' ->
  exists n, run cfg (repeat Main (S n)) (m, PrepIdle) = Some (m', PrepIdle).
Proof.
  intros H.
  assert (G : exists n, run cfg (repeat Main n) (m, PrepCheck) = Some (m', PrepIdle)).
  { revert m H. induction fuel as [| fuel IH]; intros m H; [discriminate |].
    cbn [st_prep_buffer] in H.
    destruct (segment_buffer_tail m =? segment_next_head m) eqn:Et.
    - injection H as <-. exists 1%nat. cbn [repeat]. rewrite run_cons.
      cbn [exec1 main_step]. rewrite Et. reflexivity.
    - destruct (pl_prep_block m) as [pb |] eqn:Hpb.
      + rewrite option_bind_some in H.
        destruct (prep_segment m) as [m2 |] eqn:Es; [| discriminate].
        rewrite option_bind_some in H.
        destruct (IH _ H) as [n Hn]. exists (5 + n)%nat. cbn [repeat Nat.add].
        rewrite run_cons. cbn [exec1 main_step]. rewrite Et, option_bind_some.
        rewrite run_cons. cbn [exec1 main_step]. rewrite Hpb, option_bind_some.
        rewrite run_cons. cbn [exec1 main_step]. rewrite Es, !option_bind_some.
        rewrite run_cons. cbn [exec1 main_step]. rewrite option_bind_some.
        rewrite run_cons. cbn [exec1 main_step]. rewrite option_bind_some. exact Hn.
      + destruct (prep_fetch_block cfg m) as [[m1 |] |] eqn:Ef; [| | discriminate].
        * rewrite option_bind_some in H.
          destruct (prep_segment m1) as [m2 |] eqn:Es; [| discriminate].
          rewrite option_bind_some in H.
          destruct (IH _ H) as [n Hn]. exists (5 + n)%nat. cbn [repeat Nat.add].
          rewrite run_cons. cbn [exec1 main_step]. rewrite Et, option_bind_some.
          rewrite run_cons. cbn [exec1 main_step]. rewrite Hpb, Ef, !option_bind_some.
          rewrite run_cons. cbn [exec1 main_step]. rewrite Es, !option_bind_some.
          rewrite run_cons. cbn [exec1 main_step]. rewrite option_bind_some.
          rewrite run_cons. cbn [exec1 main_step]. rewrite option_bind_some. exact Hn.
        * rewrite option_bind_some in H. injection H as <-. exists 2%nat.
          cbn [repeat].
          rewrite run_cons. cbn [exec1 main_step]. rewrite Et, option_bind_some.
          rewrite run_cons. cbn [exec1 main_step]. rewrite Hpb, Ef, !option_bind_some.
          reflexivity. }
  destruct G as [n Hn]. exists n. cbn [repeat]. rewrite run_cons.
  cbn [exec1 main_step]. rewrite option_bind_some. exact Hn.
Qed.

Lemma st_prep_buffer_as_steps_witness :
  exists n,
    run demo_cfg (repeat Main (S n)) (st_reset demo_power_on, PrepIdle) =
      Some (match st_prep_buffer demo_cfg 10 (st_reset demo_power_on) with
            | Some m' => m'
            | None => st_reset demo_power_on
            end, PrepIdle).
Proof.
  apply (st_prep_buffer_as_steps demo_cfg 10 (st_reset demo_power_on)).
  vm_compute. reflexivity.
Defined.

(** X4. A second call of [st_prep_buffer] right after the first changes
    nothing: what the first call leaves, full ring or planner cut to its end,
    makes the second return at once. *)
Theorem st_prep_buffer_idempotent (cfg : config) (m0 : machine) (acts : list action)
    (m m' : machine) :
  config_ok cfg ->
  power_on cfg m0 ->
  run cfg acts (boot m0) = Some (m, PrepIdle) ->
  st_prep_buffer cfg 10 m = Some m' ->
  st_prep_buffer cfg 10 m' = Some m'.
Proof.
  intros Hcfg Hpo Hrun Hprep.
  destruct (reachable_invariant cfg m0 acts _ Hcfg Hpo Hrun) as [Hinv _].
  destruct (main_step_invariant cfg _ _ Hinv) as (s1 & E1 & Hinv1 & _).
  cbn [main_step] in E1. injection E1 as <-.
  destruct (st_prep_buffer_invariant cfg _ 10 m Hinv1) as (m2 & E & Hinv' & _ & Hend).
  { pose proof (ring_distance_range (segment_buffer_tail m) (segment_buffer_head m)) as R.
    rewrite <- occupied_distance in R. lia. }
  rewrite Hprep in E. injection E as <-.
  destruct Hinv' as [_ [owed Hi]].
  pose proof (ia_next_head _ _ _ _ Hi) as Hnh. cbn [fst snd] in Hnh.
  cbn [st_prep_buffer].
  destruct (Z.eqb_spec (segment_buffer_tail m') (segment_next_head m')) as [E | N];
    [reflexivity |].
  destruct Hend as [Hfull | [Hpb Hpi]].
  - exfalso. apply N. unfold ring_full in Hfull. rewrite Hnh, Hfull. reflexivity.
  - rewrite Hpb. unfold prep_fetch_block, plan_get_block_by_index. cbv zeta.
    cbn [pl_prep_block set_pl_prep_block planner pl_prep_index].
    rewrite Hpi, Z.eqb_refl. reflexivity.
Qed.

Lemma st_prep_buffer_idempotent_witness :
  st_prep_buffer demo_cfg 10
    (match st_prep_buffer demo_cfg 10 (st_reset demo_power_on) with
     | Some m' => m'
     | None => st_reset demo_power_on
     end) =
  Some (match st_prep_buffer demo_cfg 10 (st_reset demo_power_on) with
        | Some m' => m'
        | None => st_reset demo_power_on
        end).
Proof.
  apply (st_prep_buffer_idempotent demo_cfg demo_power_on [] (st_reset demo_power_on) _
           demo_config_ok demo_power_on_ok).
  - reflexivity.
  - vm_compute. reflexivity.
Defined.

(** X5. The two contexts keep to their own variables, in every state the
    driver reaches.  A tick writes neither ring content, nor the head, nor
    anything that [st_prep_buffer] keeps for itself, nor the settings, nor the
    planner's blocks; a step of the main program writes neither the runtime
    state [st], nor the system state, nor the ring tail, nor the pointers of
    the interrupt, nor the planner, nor the log. *)
Theorem contexts_keep_apart (cfg : config) (m0 : machine) (acts : list action)
    (s : machine * prep_pc) :
  config_ok cfg ->
  power_on cfg m0 ->
  run cfg acts (boot m0) = Some s ->
  (exists m', ISR_TIMER2_COMPA cfg (fst s) = Some m' /\ isr_frame (fst s) m') /\
  (exists s', main_step cfg s = Some s' /\ main_frame (fst s) (fst s')).
Proof.
  intros Hcfg Hpo Hrun.
  destruct (reachable_invariant cfg m0 acts s Hcfg Hpo Hrun) as [Hinv _].
  split.
  - destruct (tick_invariant cfg Hcfg _ s Hinv) as (m' & E & _ & _ & [F _]).
    exists m'. split; [exact E | exact F].
  - destruct (main_step_invariant cfg _ s Hinv) as (s' & E & _ & F).
    exists s'. split; [exact E | exact F].
Qed.

Lemma contexts_keep_apart_witness :
  (exists m', ISR_TIMER2_COMPA demo_cfg (fst (demo_state 8)) = Some m' /\
              isr_frame (fst (demo_state 8)) m') /\
  (exists s', main_step demo_cfg (demo_state 8) = Some s' /\
              main_frame (fst (demo_state 8)) (fst s')).
Proof.
  apply (contexts_keep_apart demo_cfg demo_power_on (demo_schedule 8) (demo_state 8)
           demo_config_ok demo_power_on_ok).
  vm_compute. reflexivity.
Defined.

Lemma eob_slice (n0 idx : Z) (d : st_data_t) :
  eob (flag (fst (slice n0 idx d))) = (step_events_remaining (snd (slice n0 idx d)) =? 0).
Proof.
  unfold slice. cbv zeta. cbn [fst snd flag step_events_remaining set_decelerate_after].
  unfold slice_flag, eob.
  destruct (step_events_remaining _ =? 0); destruct (decelerate_after _ =? 0); reflexivity.
Qed.

(** X6. Slicing loses no step: whatever chunks are asked for, between 1 and
    255 steps each, the segments cut from a block carry together exactly the
    block's step events, each between 1 and 255 of them and each naming the
    block's data slot, and the last segment cut, and no other, is flagged as
    the end of the block. *)
Theorem slices_cover_block (policy : nat -> Z) (idx : Z) (fuel k : nat) (d : st_data_t) :
  (forall i, 1 <= policy i <= 255) ->
  0 < step_events_remaining d < 2 ^ 31 ->
  step_events_remaining d <= Z.of_nat fuel ->
  let l := slices policy idx k fuel d in
  steps_of l = step_events_remaining d /\
  Forall (fun sd => 1 <= n_step (fst sd) <= 255 /\ st_data_index (fst sd) = idx) l /\
  forall i sd, l !! i = Some sd -> (eob (flag (fst sd)) = true <-> S i = length l).
Proof.
  intros Hpol. revert k d.
  induction fuel as [| fuel IH]; intros k d Hrem Hfuel; [lia |].
  cbv zeta. rewrite slices_unfold.
  destruct (slice_n_step_range (policy k) d (Hpol k)) as (H1 & H2 & _); [lia |].
  cbv zeta in H1, H2.
  pose proof (eob_slice (policy k) idx d) as Heob.
  assert (Hn : n_step (fst (slice (policy k) idx d)) = slice_n_step (policy k) d)
    by reflexivity.
  assert (Hi : st_data_index (fst (slice (policy k) idx d)) = idx) by reflexivity.
  assert (Hr : step_events_remaining (snd (slice (policy k) idx d)) =
               step_events_remaining d - slice_n_step (policy k) d).
  { unfold slice. cbv zeta. cbn [snd step_events_remaining set_decelerate_after
                                  set_step_events_remaining].
    apply i32_small. pose proof (Hpol k). lia. }
  set (sd := slice (policy k) idx d) in *. clearbody sd.
  set (n := slice_n_step (policy k) d) in *. clearbody n.
  pose proof (Hpol k) as Hk.
  destruct (Z.eqb_spec (step_events_remaining (snd sd)) 0) as [Hz | Hnz].
  - split; [| split].
    + unfold steps_of. cbn [foldr]. lia.
    + constructor; [| constructor]. split; [lia | exact Hi].
    + intros [| i] x Hx; cbn in Hx; [| discriminate]. injection Hx as <-.
      cbn [length]. rewrite Heob. split; reflexivity.
  - destruct (IH (S k) (snd sd)) as (Hsum & Hall & Hlast); [lia | lia |].
    cbv zeta in Hsum, Hall, Hlast.
    assert (Hlen : slices policy idx (S k) fuel (snd sd) <> []).
    { destruct fuel; [lia |]. rewrite slices_unfold. discriminate. }
    split; [| split].
    + unfold steps_of in *. cbn [foldr]. rewrite Hsum. lia.
    + constructor; [| exact Hall]. split; [lia | exact Hi].
    + intros [| i] x Hx; cbn in Hx.
      * injection Hx as <-. rewrite Heob. cbn [length].
        destruct (slices policy idx (S k) fuel (snd sd)); [contradiction |].
        split; [discriminate | cbn [length]; lia].
      * rewrite (Hlast i x Hx). cbn [length]. lia.
Qed.

Lemma slices_cover_block_witness :
  let l := slices (fun _ => 250) 1 0 100 demo_data_100 in
  steps_of l = step_events_remaining demo_data_100 /\
  Forall (fun sd => 1 <= n_step (fst sd) <= 255 /\ st_data_index (fst sd) = 1) l /\
  forall i sd, l !! i = Some sd -> (eob (flag (fst sd)) = true <-> S i = length l).
Proof.
  apply (slices_cover_block (fun _ => 250) 1 100 0 demo_data_100).
  - intros _. lia.
  - cbn. lia.
  - cbn. lia.
Defined.

Lemma before_le (f : plan_block_t -> Z) (bs : list plan_block_t) (d : Z) (n : nat) :
  0 <= d ->
  (forall j, d <= j < d + Z.of_nat n -> exists b, at_index bs j = Some b /\ 0 <= f b) ->
  before f bs d <= before f bs (d + Z.of_nat n).
Proof.
  intros Hd. induction n as [| n IH]; intros H.
  - rewrite Z.add_0_r. lia.
  - destruct (H (d + Z.of_nat n)) as (b & Hb & Hf); [lia |].
    replace (d + Z.of_nat (S n)) with (d + Z.of_nat n + 1) by lia.
    rewrite (before_succ _ _ _ _ Hb).
    assert (before f bs d <= before f bs (d + Z.of_nat n)); [| lia].
    apply IH. intros j Hj. apply H. lia.
Qed.

(** X7. Within one cycle, from [st_reset] through any order of ticks, port
    resets and steps of the main program with no call of [st_wake_up] in
    between, the driver does no more than the planner asked for: it has
    discarded no more blocks than the planner holds, executed no more step
    events than these blocks count together, and put on no axis more pulses
    than their steps on that axis.  Across a restart in the middle of a block
    the Bresenham counters start afresh and the bound on the pulses need not
    hold. *)
Theorem never_more_than_planned (cfg : config) (m0 : machine) (acts : list action)
    (s : machine * prep_pc) :
  config_ok cfg ->
  power_on cfg m0 ->
  run cfg acts (boot m0) = Some s ->
  let m := fst s in
  let bs := block_buffer (planner m0) in
  let h := block_buffer_head (planner m0) in
  discards (log m) <= h /\
  step_events (log m) <= before step_event_count bs h /\
  forall a,
    pulses cfg (invert_mask (settings m0)) a (log m) + latched cfg a m
      <= before (fun b => steps b a) bs h.
Proof.
  intros Hcfg Hpo Hrun. cbv zeta.
  destruct (reachable_invariant cfg m0 acts s Hcfg Hpo Hrun) as [Hinv (JS & JB & JH)].
  pose proof Hinv as [_ [owed Hi]].
  pose proof (ia_discards _ _ _ _ Hi) as Hd.
  pose proof (ia_events _ _ _ _ Hi) as He.
  pose proof (ia_planner _ _ _ _ Hi) as Hp.
  pose proof (ia_current _ _ _ _ Hi) as Hc.
  pose proof (ia_fresh _ _ _ _ Hi) as Hf.
  pose proof (ia_blocks _ _ _ _ Hi) as Hb.
  pose proof (ia_tracer _ _ _ _ Hi) as Ht.
  rewrite JB, ?JH in *.
  set (d := block_buffer_tail (planner (fst s))) in *.
  set (h := block_buffer_head (planner m0)) in *.
  assert (Hmono : forall f d', 0 <= d' <= h ->
            (forall b, block_ok cfg b -> 0 <= f b) ->
            before f (block_buffer (planner m0)) d' <= before f (block_buffer (planner m0)) h).
  { intros f d' Hd' Hpos.
    assert (Eh : h = d' + Z.of_nat (Z.to_nat (h - d'))) by lia.
    rewrite Eh at 1.
    apply before_le; [lia |]. intros j Hj.
    destruct (Hb j) as (b & Hat & Hok); [lia |]. exists b. split; [exact Hat | auto]. }
  split; [lia |].
  destruct (Z.eq_dec (load_flag (st (fst s))) LOAD_BLOCK) as [E | N].
  - split.
    + rewrite He, (Hf E).
      assert (before step_event_count (block_buffer (planner m0)) d
              <= before step_event_count (block_buffer (planner m0)) h); [| lia].
      apply Hmono; [lia |]. intros b Hok. pose proof (count_range cfg b Hok). lia.
    + intros a. destruct (Ht a) as (k & _ & Hpul & Hk).
      rewrite E in Hk. cbn [Z.eqb LOAD_BLOCK] in Hk. rewrite Pos.eqb_refl in Hk. subst k.
      rewrite JS, JB in Hpul. fold d in Hpul. rewrite Hpul, Z.add_0_r.
      apply Hmono; [lia |]. intros b Hok. apply (steps_range cfg b Hok a).
  - destruct (Hc N) as (_ & Hlt & Howed & _).
    destruct (Hb d) as (blk & Hat & Hok); [lia |].
    pose proof (count_range cfg blk Hok) as HN.
    rewrite (count_at_block _ _ _ Hat) in *.
    split.
    + rewrite He.
      assert (before step_event_count (block_buffer (planner m0)) (d + 1)
              <= before step_event_count (block_buffer (planner m0)) h).
      { apply Hmono; [lia |]. intros b Hokb. pose proof (count_range cfg b Hokb). lia. }
      rewrite (before_succ _ _ _ _ Hat) in H. lia.
    + intros a. destruct (Ht a) as (k & _ & Hpul & Hk).
      destruct (Z.eqb_spec (load_flag (st (fst s))) LOAD_BLOCK) as [E | _]; [contradiction |].
      destruct Hk as (blk' & Hat' & Hcr & Hck).
      rewrite JB in Hat'. fold d in Hat'. rewrite Hat in Hat'. injection Hat' as <-.
      rewrite JS, JB in Hpul. fold d in Hpul. rewrite Hpul.
      pose proof (steps_range cfg blk Hok a) as Hs.
      assert (Hhalf : 0 <= Z.shiftr (step_event_count blk) 1).
      { apply Z.shiftr_nonneg. lia. }
      assert (Hk : k <= steps blk a) by nia.
      assert (before (fun b => steps b a) (block_buffer (planner m0)) (d + 1)
              <= before (fun b => steps b a) (block_buffer (planner m0)) h).
      { apply Hmono; [lia |]. intros b Hokb. apply (steps_range cfg b Hokb a). }
      rewrite (before_succ _ _ _ _ Hat) in H. lia.
Qed.

Lemma never_more_than_planned_witness :
  let m := fst (demo_state 30) in
  let bs := block_buffer (planner demo_power_on) in
  let h := block_buffer_head (planner demo_power_on) in
  discards (log m) <= h /\
  step_events (log m) <= before step_event_count bs h /\
  forall a,
    pulses demo_cfg (invert_mask (settings demo_power_on)) a (log m) + latched demo_cfg a m
      <= before (fun b => steps b a) bs h.
Proof.
  apply (never_more_than_planned demo_cfg demo_power_on (demo_schedule 30) (demo_state 30)
           demo_config_ok demo_power_on_ok).
  vm_compute. reflexivity.
Defined.

(** X8. The port reset interrupt ends the pulse and does nothing else:
    after it every bit of the stepping port under [STEP_MASK] is at the level
    the invert mask gives it, so the step line of every axis under the mask
    is idle; every bit outside [STEP_MASK], the direction bits among them,
    is as it was; Timer0 is stopped; the other registers and every variable
    of the machine are unchanged. *)
Theorem port_reset_ends_pulse (cfg : config) (m : machine) (a : axis) :
  Z.testbit (STEP_MASK cfg) (step_bit cfg a) = true ->
  let m' := ISR_TIMER0_OVF cfg m in
  pulse_on cfg (invert_mask (settings m)) a (STEPPING_PORT (avr m')) = false /\
  (forall b, Z.testbit (STEP_MASK cfg) b = true ->
     Z.testbit (STEPPING_PORT (avr m')) b = Z.testbit (invert_mask (settings m)) b) /\
  (forall b, Z.testbit (STEP_MASK cfg) b = false ->
     Z.testbit (STEPPING_PORT (avr m')) b = Z.testbit (STEPPING_PORT (avr m)) b) /\
  TCCR0B (avr m') = 0 /\
  STEPPERS_DISABLE_PORT (avr m') = STEPPERS_DISABLE_PORT (avr m) /\
  TCNT0 (avr m') = TCNT0 (avr m) /\
  TIMSK2 (avr m') = TIMSK2 (avr m) /\
  TCCR2B (avr m') = TCCR2B (avr m) /\
  set_avr (avr m) m' = m.
Proof.
  intros Hmask. cbv zeta. unfold ISR_TIMER0_OVF. cbn.
  split; [| split; [| split; [| repeat (split; [reflexivity |])]]].
  - unfold pulse_on. rewrite Z.lor_spec, Z.ldiff_spec, Z.land_spec, Hmask.
    cbn. rewrite andb_false_r, andb_true_r. cbn. apply xorb_nilpotent.
  - intros b Hb. rewrite Z.lor_spec, Z.ldiff_spec, Z.land_spec, Hb.
    cbn. rewrite andb_false_r, andb_true_r. reflexivity.
  - intros b Hb. rewrite Z.lor_spec, Z.ldiff_spec, Z.land_spec, Hb.
    cbn. rewrite andb_true_r, andb_false_r, orb_false_r. reflexivity.
  - destruct m; reflexivity.
Qed.

Lemma port_reset_ends_pulse_witness :
  let m := fst (demo_state 10) in
  let m' := ISR_TIMER0_OVF demo_cfg m in
  pulse_on demo_cfg (invert_mask (settings m)) X_AXIS (STEPPING_PORT (avr m')) = false /\
  (forall b, Z.testbit (STEP_MASK demo_cfg) b = true ->
     Z.testbit (STEPPING_PORT (avr m')) b = Z.testbit (invert_mask (settings m)) b) /\
  (forall b, Z.testbit (STEP_MASK demo_cfg) b = false ->
     Z.testbit (STEPPING_PORT (avr m')) b = Z.testbit (STEPPING_PORT (avr m)) b) /\
  TCCR0B (avr m') = 0 /\
  STEPPERS_DISABLE_PORT (avr m') = STEPPERS_DISABLE_PORT (avr m) /\
  TCNT0 (avr m') = TCNT0 (avr m) /\
  TIMSK2 (avr m') = TIMSK2 (avr m) /\
  TCCR2B (avr m') = TCCR2B (avr m) /\
  set_avr (avr m) m' = m.
Proof.
  apply (port_reset_ends_pulse demo_cfg (fst (demo_state 10)) X_AXIS).
  reflexivity.
Defined.

(** X9. [st_go_idle] stops the driver interrupt and nothing of the motion:
    it clears [OCIE2A] in [TIMSK2] and no other bit, stops Timer2 and clears
    [busy].  With the idle lock time at 255 and no alarm it leaves the
    stepper enable pin and adds no dwell; otherwise it dwells for the lock
    time and puts the enable pin at its disabling level, high unless the
    setting inverts it. *)
Theorem st_go_idle_stops (cfg : config) (m : machine) :
  0 <= STEPPERS_DISABLE_BIT cfg ->
  let m' := st_go_idle cfg m in
  Z.testbit (TIMSK2 (avr m')) OCIE2A = false /\
  (forall b, b <> OCIE2A -> Z.testbit (TIMSK2 (avr m')) b = Z.testbit (TIMSK2 (avr m)) b) /\
  TCCR2B (avr m') = 0 /\
  busy m' = false /\
  st m' = st m /\ sys m' = sys m /\
  segment_buffer_tail m' = segment_buffer_tail m /\
  (if negb (stepper_idle_lock_time (settings m) =? 255)
      || bit_istrue (execute (sys m)) (EXEC_ALARM cfg)
   then
     log m' = EvDelay (stepper_idle_lock_time (settings m)) :: log m /\
     Z.testbit (STEPPERS_DISABLE_PORT (avr m')) (STEPPERS_DISABLE_BIT cfg) =
       negb (bit_istrue (flags (settings m)) (BITFLAG_INVERT_ST_ENABLE cfg))
   else
     log m' = log m /\
     STEPPERS_DISABLE_PORT (avr m') = STEPPERS_DISABLE_PORT (avr m)).
Proof.
  intros Hbit. cbv zeta. unfold st_go_idle. cbn.
  assert (Hclr : forall x, Z.testbit (Z.ldiff x (bit OCIE2A)) OCIE2A = false).
  { intros x. rewrite Z.ldiff_spec, testbit_bit by (unfold OCIE2A; lia).
    rewrite Z.eqb_refl. apply andb_false_r. }
  assert (Hkeep : forall x b, b <> OCIE2A ->
            Z.testbit (Z.ldiff x (bit OCIE2A)) b = Z.testbit x b).
  { intros x b Hb. rewrite Z.ldiff_spec, testbit_bit by (unfold OCIE2A; lia).
    rewrite (proj2 (Z.eqb_neq _ _)) by auto. apply andb_true_r. }
  destruct (negb (stepper_idle_lock_time (settings m) =? 255)
            || bit_istrue (execute (sys m)) (EXEC_ALARM cfg)).
  - destruct (bit_istrue (flags (settings m)) (BITFLAG_INVERT_ST_ENABLE cfg)); cbn;
      repeat (split; [first [apply Hclr | exact (Hkeep _) | reflexivity] |]).
    + rewrite Z.ldiff_spec, testbit_bit, Z.eqb_refl by exact Hbit. apply andb_false_r.
    + rewrite Z.lor_spec, testbit_bit, Z.eqb_refl by exact Hbit. apply orb_true_r.
  - cbn. repeat (split; [first [apply Hclr | exact (Hkeep _) | reflexivity] |]).
    reflexivity.
Qed.

Lemma st_go_idle_stops_witness :
  let m := fst (demo_state 10) in
  let m' := st_go_idle demo_cfg m in
  Z.testbit (TIMSK2 (avr m')) OCIE2A = false /\
  (forall b, b <> OCIE2A -> Z.testbit (TIMSK2 (avr m')) b = Z.testbit (TIMSK2 (avr m)) b) /\
  TCCR2B (avr m') = 0 /\
  busy m' = false /\
  st m' = st m /\ sys m' = sys m /\
  segment_buffer_tail m' = segment_buffer_tail m /\
  (if negb (stepper_idle_lock_time (settings m) =? 255)
      || bit_istrue (execute (sys m)) (EXEC_ALARM demo_cfg)
   then
     log m' = EvDelay (stepper_idle_lock_time (settings m)) :: log m /\
     Z.testbit (STEPPERS_DISABLE_PORT (avr m')) (STEPPERS_DISABLE_BIT demo_cfg) =
       negb (bit_istrue (flags (settings m)) (BITFLAG_INVERT_ST_ENABLE demo_cfg))
   else
     log m' = log m /\
     STEPPERS_DISABLE_PORT (avr m') = STEPPERS_DISABLE_PORT (avr m)).
Proof.
  apply (st_go_idle_stops demo_cfg (fst (demo_state 10))).
  cbn. lia.
Defined.

(** X10. The pulse phase of the tick puts on the port exactly the pulse that
    the step event before it latched: for every axis the pulses on the port
    grow by the latched one and nothing stays latched.  When it writes the
    port, every bit outside [DIRECTION_MASK | STEP_MASK] keeps its level
    unless [out_bits] sets it, Timer0 is loaded with [step_pulse_time] and
    started; with nothing latched the phase does nothing. *)
Theorem pulse_phase_emits_latched (cfg : config) (m : machine) :
  config_ok cfg ->
  let m' := isr_pulse cfg m in
  execute_step (st m') = false /\
  (forall a, latched cfg a m' = 0 /\
     pulses cfg (invert_mask (settings m)) a (log m') =
       pulses cfg (invert_mask (settings m)) a (log m) + latched cfg a m) /\
  (if execute_step (st m)
   then TCNT0 (avr m') = step_pulse_time (st m) /\
        TCCR0B (avr m') = bit CS21 /\
        forall b, Z.testbit (Z.lor (DIRECTION_MASK cfg) (STEP_MASK cfg)) b = false ->
          Z.testbit (STEPPING_PORT (avr m')) b =
            Z.testbit (STEPPING_PORT (avr m)) b || Z.testbit (out_bits (st m)) b
   else m' = m).
Proof.
  intros Hcfg. cbv zeta. unfold isr_pulse, latched.
  destruct (execute_step (st m)) eqn:E.
  - cbn. split; [reflexivity |]. split; [| split; [reflexivity | split; [reflexivity |]]].
    + intros a. split; [reflexivity |].
      unfold pulse_on. rewrite Z.lor_spec, Z.ldiff_spec.
      rewrite (step_mask_covers cfg Hcfg a). cbn.
      rewrite andb_false_r, orb_false_l. destruct (xorb _ _); lia.
    + intros b Hb. rewrite Z.lor_spec, Z.ldiff_spec, Hb. cbn.
      rewrite andb_true_r. reflexivity.
  - rewrite E. cbn. split; [reflexivity |]. split; [| reflexivity].
    intros a. split; [reflexivity | lia].
Qed.

Lemma pulse_phase_emits_latched_witness :
  let m := fst (demo_state 9) in
  let m' := isr_pulse demo_cfg m in
  execute_step (st m') = false /\
  (forall a, latched demo_cfg a m' = 0 /\
     pulses demo_cfg (invert_mask (settings m)) a (log m') =
       pulses demo_cfg (invert_mask (settings m)) a (log m) + latched demo_cfg a m) /\
  (if execute_step (st m)
   then TCNT0 (avr m') = step_pulse_time (st m) /\
        TCCR0B (avr m') = bit CS21 /\
        forall b, Z.testbit (Z.lor (DIRECTION_MASK demo_cfg) (STEP_MASK demo_cfg)) b = false ->
          Z.testbit (STEPPING_PORT (avr m')) b =
            Z.testbit (STEPPING_PORT (avr m)) b || Z.testbit (out_bits (st m)) b
   else m' = m).
Proof.
  apply (pulse_phase_emits_latched demo_cfg (fst (demo_state 9)) demo_config_ok).
Defined.

(** X11. One step event of the Bresenham tracer, lines 333-354, on counters
    that lie between 0 and the block's event count: every counter stays in
    that range, an axis steps exactly when taking its steps off its counter
    goes below zero, the counter then gets the event count back, and the
    position of the axis moves by one, down when the direction bit of the
    axis is set in [out_bits] and up otherwise; an axis that does not step
    keeps its position. *)
Theorem bresenham_step_event (cfg : config) (blk : plan_block_t) (m : machine) :
  config_ok cfg ->
  block_ok cfg blk ->
  (forall a, 0 <= counter a (st m) < step_event_count blk) ->
  (forall a, Z.testbit (out_bits (st m)) (step_bit cfg a) = false) ->
  let m' := bresenham_axis cfg blk Z_AXIS
              (bresenham_axis cfg blk Y_AXIS (bresenham_axis cfg blk X_AXIS m)) in
  forall a,
    let stepped := Z.testbit (out_bits (st m')) (step_bit cfg a) in
    0 <= counter a (st m') < step_event_count blk /\
    stepped = (counter a (st m) - steps blk a <? 0) /\
    counter a (st m') =
      counter a (st m) - steps blk a + (if stepped then step_event_count blk else 0) /\
    position (sys m') a =
      (if stepped
       then if Z.testbit (out_bits (st m)) (direction_bit cfg a)
            then i32 (position (sys m) a - 1) else i32 (position (sys m) a + 1)
       else position (sys m) a).
Proof.
  intros Hcfg Hok Hc Hout. cbv zeta. intros a.
  destruct (bresenham_all cfg Hcfg blk m Hok Hc) as (_ & _ & H).
  destruct (H a) as (Ca & Pa & Ba). cbv zeta in Ca, Pa, Ba.
  rewrite (Hout a) in Ba. cbn [orb] in Ba. rewrite Ba.
  pose proof (Hc a) as Hca. pose proof (steps_range cfg blk Hok a) as Hs.
  split; [| split; [reflexivity | split; [exact Ca | exact Pa]]].
  rewrite Ca. destruct (Z.ltb_spec (counter a (st m) - steps blk a) 0); lia.
Qed.

Lemma bresenham_step_event_witness :
  let m := with_st (set_counter_x 2) (with_st (set_counter_y 2) (st_reset demo_power_on)) in
  let m' := bresenham_axis demo_cfg demo_block Z_AXIS
              (bresenham_axis demo_cfg demo_block Y_AXIS
                 (bresenham_axis demo_cfg demo_block X_AXIS m)) in
  let stepped := Z.testbit (out_bits (st m')) (step_bit demo_cfg X_AXIS) in
  0 <= counter X_AXIS (st m') < step_event_count demo_block /\
  stepped = (counter X_AXIS (st m) - steps demo_block X_AXIS <? 0) /\
  counter X_AXIS (st m') =
    counter X_AXIS (st m) - steps demo_block X_AXIS
    + (if stepped then step_event_count demo_block else 0) /\
  position (sys m') X_AXIS =
    (if stepped
     then if Z.testbit (out_bits (st m)) (direction_bit demo_cfg X_AXIS)
          then i32 (position (sys m) X_AXIS - 1) else i32 (position (sys m) X_AXIS + 1)
     else position (sys m) X_AXIS).
Proof.
  apply (bresenham_step_event demo_cfg demo_block
           (with_st (set_counter_x 2) (with_st (set_counter_y 2) (st_reset demo_power_on)))
           demo_config_ok demo_block_ok).
  - intros []; cbn; lia.
  - intros []; reflexivity.
Defined.

(** X12. Every rate adjustment of the ramp, lines 299-319, leaves
    [d_per_tick] at the larger of the new rate [delta_d] and
    [MINIMUM_STEP_RATE]: the inverse-time counter never advances by less
    than the minimum, whatever the ramp does to the rate. *)
Theorem ramp_adjust_floor (cfg : config) (dat : st_data_t) (s : stepper_t) :
  let s' := ramp_adjust cfg dat s in
  d_per_tick s' = Z.max (delta_d s') (MINIMUM_STEP_RATE cfg) /\
  MINIMUM_STEP_RATE cfg <= d_per_tick s' /\
  delta_d s' <= d_per_tick s' /\
  counter_d s' = counter_d s /\
  segment_steps_remaining s' = segment_steps_remaining s.
Proof.
  cbv zeta. unfold ramp_adjust, floor_rate.
  repeat match goal with
         | |- context [if ?c then _ else _] => destruct c eqn:?
         end; cbn in *; repeat split; try lia.
Qed.

(** X13. [next_block_index] walks the segment ring: from an index of the
    ring it gives the next one, wrapping from 9 to 0, never the index it was
    given, and ten applications come back to the start. *)
Theorem next_block_index_cycle (i : Z) :
  0 <= i < SEGMENT_BUFFER_SIZE ->
  0 <= next_block_index i < SEGMENT_BUFFER_SIZE /\
  next_block_index i = (i + 1) mod SEGMENT_BUFFER_SIZE /\
  next_block_index i <> i /\
  Nat.iter 10 next_block_index i = i /\
  forall k, (0 < k < 10)%nat -> Nat.iter k next_block_index i <> i.
Proof.
  unfold SEGMENT_BUFFER_SIZE. intros H.
  assert (E : i = 0 \/ i = 1 \/ i = 2 \/ i = 3 \/ i = 4 \/ i = 5 \/ i = 6 \/ i = 7
              \/ i = 8 \/ i = 9) by lia.
  assert (K : forall k, (0 < k < 10)%nat ->
            (k = 1 \/ k = 2 \/ k = 3 \/ k = 4 \/ k = 5 \/ k = 6 \/ k = 7 \/ k = 8
             \/ k = 9)%nat)
    by (intros; lia).
  repeat (destruct E as [-> | E]); try subst i;
    (split; [vm_compute; split; [discriminate | reflexivity] |]);
    (split; [reflexivity |]); (split; [discriminate |]); (split; [reflexivity |]);
    intros k Hk; specialize (K k Hk);
    repeat (destruct K as [-> | K]); try subst k; discriminate.
Qed.

Lemma next_block_index_cycle_witness :
  0 <= next_block_index 9 < SEGMENT_BUFFER_SIZE /\
  next_block_index 9 = (9 + 1) mod SEGMENT_BUFFER_SIZE /\
  next_block_index 9 <> 9 /\
  Nat.iter 10 next_block_index 9 = 9 /\
  forall k, (0 < k < 10)%nat -> Nat.iter k next_block_index 9 <> 9.
Proof.
  apply (next_block_index_cycle 9). unfold SEGMENT_BUFFER_SIZE. lia.
Defined.

(** X14. [next_block_pl_index] walks the planner ring of 18 blocks: from an
    index of that ring it gives the next one, wrapping from 17 to 0, and
    eighteen applications come back to the start. *)
Theorem next_block_pl_index_cycle (i : Z) :
  0 <= i < BLOCK_BUFFER_SIZE ->
  0 <= next_block_pl_index i < BLOCK_BUFFER_SIZE /\
  next_block_pl_index i = (i + 1) mod BLOCK_BUFFER_SIZE /\
  Nat.iter 18 next_block_pl_index i = i.
Proof.
  unfold BLOCK_BUFFER_SIZE. intros H.
  assert (E : i = 0 \/ i = 1 \/ i = 2 \/ i = 3 \/ i = 4 \/ i = 5 \/ i = 6 \/ i = 7
              \/ i = 8 \/ i = 9 \/ i = 10 \/ i = 11 \/ i = 12 \/ i = 13 \/ i = 14
              \/ i = 15 \/ i = 16 \/ i = 17) by lia.
  repeat (destruct E as [-> | E]); try subst i;
    (split; [vm_compute; split; [discriminate | reflexivity] |]);
    split; reflexivity.
Qed.

Lemma next_block_pl_index_cycle_witness :
  0 <= next_block_pl_index 17 < BLOCK_BUFFER_SIZE /\
  next_block_pl_index 17 = (17 + 1) mod BLOCK_BUFFER_SIZE /\
  Nat.iter 18 next_block_pl_index 17 = 17.
Proof.
  apply (next_block_pl_index_cycle 17). unfold BLOCK_BUFFER_SIZE. lia.
Defined.


(** ** The cycle functions *)

Ltac board_eval :=
  cbv beta iota zeta delta
    [st_init init_registers st_wake_up wake_enable wake_cycle
     with_core set_core set_STEPPING_DDR set_STEPPERS_DISABLE_DDR set_TCNT2 set_TCCR2A
     set_OCR2A set_TIMSK0 set_TCCR0A set_STEPPING_PORT set_TCCR0B set_TIMSK2 set_TCCR2B
     set_STEPPERS_DISABLE_PORT set_avr set_sys set_state
     with_st set_st set_out_bits set_step_pulse_time set_execute_step set_load_flag
     core STEPPING_DDR STEPPERS_DISABLE_DDR TCNT2 TCCR2A OCR2A TIMSK0 TCCR0A
     avr settings sys st busy log STEPPING_PORT STEPPERS_DISABLE_PORT TCNT0 TCCR0B TIMSK2
     TCCR2B segment_buffer_tail segment_buffer_head
     load_flag execute_step out_bits step_pulse_time segment_steps_remaining counter
     counter_x counter_y counter_z].

Lemma init_registers_regs (cfg : config) (cyc : cycle_config) (b : board) :
  let b1 := init_registers cfg cyc b in
  TCNT2 b1 = 0 /\
  TCCR2A b1 = bit (WGM21 cyc) /\
  OCR2A b1 = timer2_rate cyc /\
  TIMSK0 b1 = Z.lor (Z.ldiff (TIMSK0 b) (bit (TOIE0 cyc))) (bit (TOIE0 cyc)) /\
  TCCR0A b1 = 0 /\
  STEPPING_DDR b1 = Z.lor (STEPPING_DDR b) (STEPPING_MASK cyc) /\
  STEPPERS_DISABLE_DDR b1 =
    Z.lor (STEPPERS_DISABLE_DDR b) (bit (STEPPERS_DISABLE_BIT cfg)) /\
  TCCR0B (avr (core b1)) = 0 /\
  STEPPING_PORT (avr (core b1)) =
    Z.lor (Z.ldiff (STEPPING_PORT (avr (core b))) (STEPPING_MASK cyc))
      (invert_mask (settings (core b))) /\
  STEPPERS_DISABLE_PORT (avr (core b1)) = STEPPERS_DISABLE_PORT (avr (core b)) /\
  settings (core b1) = settings (core b) /\
  sys (core b1) = sys (core b).
Proof.
  destruct b as [m d1 d2 t2 a2 o2 k0 a0]. destruct m. board_eval. repeat split.
Qed.

Lemma wake_enable_regs (cfg : config) (x : board) :
  let y := wake_enable cfg x in
  (STEPPING_DDR y = STEPPING_DDR x /\
   STEPPERS_DISABLE_DDR y = STEPPERS_DISABLE_DDR x /\
   TCNT2 y = TCNT2 x /\
   TCCR2A y = TCCR2A x /\
   OCR2A y = OCR2A x /\
   TIMSK0 y = TIMSK0 x /\
   TCCR0A y = TCCR0A x) /\
  (STEPPING_PORT (avr (core y)) = STEPPING_PORT (avr (core x)) /\
   TCCR0B (avr (core y)) = TCCR0B (avr (core x)) /\
   TIMSK2 (avr (core y)) = TIMSK2 (avr (core x)) /\
   TCCR2B (avr (core y)) = TCCR2B (avr (core x))) /\
  (settings (core y) = settings (core x) /\
   sys (core y) = sys (core x) /\
   st (core y) = st (core x) /\
   segment_buffer_tail (core y) = segment_buffer_tail (core x) /\
   segment_buffer_head (core y) = segment_buffer_head (core x) /\
   log (core y) = log (core x)) /\
  STEPPERS_DISABLE_PORT (avr (core y)) =
    (if bit_istrue (flags (settings (core x))) (BITFLAG_INVERT_ST_ENABLE cfg)
     then Z.lor (STEPPERS_DISABLE_PORT (avr (core x))) (bit (STEPPERS_DISABLE_BIT cfg))
     else Z.ldiff (STEPPERS_DISABLE_PORT (avr (core x))) (bit (STEPPERS_DISABLE_BIT cfg))).
Proof.
  destruct x as [m d1 d2 t2 a2 o2 k0 a0]. destruct m. board_eval. repeat split.
Qed.

Lemma wake_cycle_regs (cyc : cycle_config) (x : board) :
  let y := wake_cycle cyc x in
  (STEPPING_DDR y = STEPPING_DDR x /\
   STEPPERS_DISABLE_DDR y = STEPPERS_DISABLE_DDR x /\
   TCNT2 y = 0 /\
   TCCR2A y = TCCR2A x /\
   OCR2A y = OCR2A x /\
   TIMSK0 y = TIMSK0 x /\
   TCCR0A y = TCCR0A x) /\
  (STEPPING_PORT (avr (core y)) = STEPPING_PORT (avr (core x)) /\
   TCCR0B (avr (core y)) = TCCR0B (avr (core x)) /\
   TIMSK2 (avr (core y)) = Z.lor (TIMSK2 (avr (core x))) (bit OCIE2A) /\
   TCCR2B (avr (core y)) = bit CS21 /\
   STEPPERS_DISABLE_PORT (avr (core y)) = STEPPERS_DISABLE_PORT (avr (core x))) /\
  (settings (core y) = settings (core x) /\
   sys (core y) = sys (core x) /\
   segment_buffer_tail (core y) = segment_buffer_tail (core x) /\
   segment_buffer_head (core y) = segment_buffer_head (core x) /\
   log (core y) = log (core x)) /\
  (load_flag (st (core y)) = LOAD_BLOCK /\
   execute_step (st (core y)) = false /\
   out_bits (st (core y)) = invert_mask (settings (core x)) /\
   step_pulse_time (st (core y)) =
     u8 (pulse_time cyc (pulse_microseconds (settings (core x)))) /\
   segment_steps_remaining (st (core y)) = segment_steps_remaining (st (core x)) /\
   forall a, counter a (st (core y)) = counter a (st (core x))).
Proof.
  destruct x as [m d1 d2 t2 a2 o2 k0 a0]. destruct m. board_eval.
  repeat split; intros []; reflexivity.
Qed.

Lemma st_wake_up_cases (cfg : config) (cyc : cycle_config) (x : board) :
  st_wake_up cfg cyc x =
    if state (sys (core x)) =? STATE_CYCLE cyc
    then wake_cycle cyc (wake_enable cfg x) else wake_enable cfg x.
Proof.
  unfold st_wake_up. cbv zeta.
  destruct (wake_enable_regs cfg x) as (_ & _ & (_ & E & _) & _). cbv zeta in E.
  rewrite E. reflexivity.
Qed.

Lemma st_wake_up_regs (cfg : config) (cyc : cycle_config) (x : board) :
  let y := st_wake_up cfg cyc x in
  STEPPING_DDR y = STEPPING_DDR x /\
  STEPPERS_DISABLE_DDR y = STEPPERS_DISABLE_DDR x /\
  TCCR2A y = TCCR2A x /\
  OCR2A y = OCR2A x /\
  TIMSK0 y = TIMSK0 x /\
  TCCR0A y = TCCR0A x /\
  (TCNT2 x = 0 -> TCNT2 y = 0) /\
  STEPPING_PORT (avr (core y)) = STEPPING_PORT (avr (core x)) /\
  TCCR0B (avr (core y)) = TCCR0B (avr (core x)) /\
  settings (core y) = settings (core x) /\
  sys (core y) = sys (core x) /\
  STEPPERS_DISABLE_PORT (avr (core y)) =
    (if bit_istrue (flags (settings (core x))) (BITFLAG_INVERT_ST_ENABLE cfg)
     then Z.lor (STEPPERS_DISABLE_PORT (avr (core x))) (bit (STEPPERS_DISABLE_BIT cfg))
     else Z.ldiff (STEPPERS_DISABLE_PORT (avr (core x))) (bit (STEPPERS_DISABLE_BIT cfg))).
Proof.
  cbv zeta. rewrite st_wake_up_cases.
  destruct (wake_enable_regs cfg x)
    as ((A1 & A2 & A3 & A4 & A5 & A6 & A7) & (B1 & B2 & B3 & B4) &
        (C1 & C2 & C3 & C4 & C5 & C6) & D).
  cbv zeta in *.
  destruct (state (sys (core x)) =? STATE_CYCLE cyc).
  - destruct (wake_cycle_regs cyc (wake_enable cfg x))
      as ((P1 & P2 & P3 & P4 & P5 & P6 & P7) & (Q1 & Q2 & Q3 & Q4 & Q5) &
          (R1 & R2 & R3 & R4 & R5) & _).
    cbv zeta in *.
    rewrite P1, P2, P3, P4, P5, P6, P7, Q1, Q2, Q5, R1, R2.
    repeat split; auto.
  - repeat split; auto; congruence.
Qed.

Lemma st_go_idle_regs (cfg : config) (m : machine) :
  let m' := st_go_idle cfg m in
  STEPPING_PORT (avr m') = STEPPING_PORT (avr m) /\
  TCCR0B (avr m') = TCCR0B (avr m) /\
  TIMSK2 (avr m') = Z.ldiff (TIMSK2 (avr m)) (bit OCIE2A) /\
  TCCR2B (avr m') = 0 /\
  busy m' = false /\
  STEPPERS_DISABLE_PORT (avr m') =
    (if negb (stepper_idle_lock_time (settings m) =? 255)
        || bit_istrue (execute (sys m)) (EXEC_ALARM cfg)
     then if bit_istrue (flags (settings m)) (BITFLAG_INVERT_ST_ENABLE cfg)
          then Z.ldiff (STEPPERS_DISABLE_PORT (avr m)) (bit (STEPPERS_DISABLE_BIT cfg))
          else Z.lor (STEPPERS_DISABLE_PORT (avr m)) (bit (STEPPERS_DISABLE_BIT cfg))
     else STEPPERS_DISABLE_PORT (avr m)).
Proof.
  cbv zeta. unfold st_go_idle. cbn.
  destruct (negb (stepper_idle_lock_time (settings m) =? 255)
            || bit_istrue (execute (sys m)) (EXEC_ALARM cfg)).
  - destruct (bit_istrue (flags (settings m)) (BITFLAG_INVERT_ST_ENABLE cfg)); cbn;
      repeat split.
  - cbn. repeat split.
Qed.
(** X15. [st_init] leaves the driver idle and configured whatever it found:
    the Timer2 interrupt disabled and Timer2 stopped, cleared and in CTC mode
    at the tick rate; the Timer0 overflow interrupt enabled with Timer0
    stopped; the stepping pins under [STEPPING_MASK] outputs at the levels of
    the invert mask; [busy] clear.  The stepper enable pin is an output, at
    its enabling level when the idle lock time is 255 and no alarm is set,
    and at its disabling level otherwise. *)
Theorem st_init_leaves_idle (cfg : config) (cyc : cycle_config) (b : board) :
  0 <= STEPPERS_DISABLE_BIT cfg ->
  0 <= TOIE0 cyc ->
  let b' := st_init cfg cyc b in
  Z.testbit (TIMSK2 (avr (core b'))) OCIE2A = false /\
  TCCR2B (avr (core b')) = 0 /\
  TCNT2 b' = 0 /\
  TCCR2A b' = bit (WGM21 cyc) /\
  OCR2A b' = timer2_rate cyc /\
  Z.testbit (TIMSK0 b') (TOIE0 cyc) = true /\
  TCCR0A b' = 0 /\
  TCCR0B (avr (core b')) = 0 /\
  busy (core b') = false /\
  (forall i, Z.testbit (STEPPING_MASK cyc) i = true ->
     Z.testbit (STEPPING_DDR b') i = true /\
     Z.testbit (STEPPING_PORT (avr (core b'))) i =
       Z.testbit (invert_mask (settings (core b))) i) /\
  Z.testbit (STEPPERS_DISABLE_DDR b') (STEPPERS_DISABLE_BIT cfg) = true /\
  Z.testbit (STEPPERS_DISABLE_PORT (avr (core b'))) (STEPPERS_DISABLE_BIT cfg) =
    xorb (bit_istrue (flags (settings (core b))) (BITFLAG_INVERT_ST_ENABLE cfg))
         (negb (stepper_idle_lock_time (settings (core b)) =? 255)
          || bit_istrue (execute (sys (core b))) (EXEC_ALARM cfg)).
Proof.
  intros Hbit Htoie. cbv zeta.
  assert (Hset : forall x k, 0 <= k -> Z.testbit (Z.lor x (bit k)) k = true).
  { intros x k Hk. rewrite Z.lor_spec, testbit_bit, Z.eqb_refl by exact Hk.
    apply orb_true_r. }
  assert (Hclr : forall x k, 0 <= k -> Z.testbit (Z.ldiff x (bit k)) k = false).
  { intros x k Hk. rewrite Z.ldiff_spec, testbit_bit, Z.eqb_refl by exact Hk.
    apply andb_false_r. }
  unfold st_init.
  pose proof (init_registers_regs cfg cyc b) as HI. cbv zeta in HI.
  set (b1 := init_registers cfg cyc b) in *. clearbody b1.
  destruct HI as (I1 & I2 & I3 & I4 & I5 & I6 & I7 & I8 & I9 & I10 & I11 & I12).
  pose proof (st_wake_up_regs cfg cyc b1) as HW. cbv zeta in HW.
  set (b2 := st_wake_up cfg cyc b1) in *. clearbody b2.
  destruct HW as (W1 & W2 & W3 & W4 & W5 & W6 & W7 & W8 & W9 & W10 & W11 & W12).
  pose proof (st_go_idle_regs cfg (core b2)) as HG. cbv zeta in HG.
  change (core (with_core (st_go_idle cfg) b2)) with (st_go_idle cfg (core b2)).
  change (TCNT2 (with_core (st_go_idle cfg) b2)) with (TCNT2 b2).
  change (TCCR2A (with_core (st_go_idle cfg) b2)) with (TCCR2A b2).
  change (OCR2A (with_core (st_go_idle cfg) b2)) with (OCR2A b2).
  change (TIMSK0 (with_core (st_go_idle cfg) b2)) with (TIMSK0 b2).
  change (TCCR0A (with_core (st_go_idle cfg) b2)) with (TCCR0A b2).
  change (STEPPING_DDR (with_core (st_go_idle cfg) b2)) with (STEPPING_DDR b2).
  change (STEPPERS_DISABLE_DDR (with_core (st_go_idle cfg) b2))
    with (STEPPERS_DISABLE_DDR b2).
  set (m' := st_go_idle cfg (core b2)) in *. clearbody m'.
  destruct HG as (G1 & G2 & G3 & G4 & G5 & G6).
  rewrite W10, I11, W11, I12, W12, I10, I11 in G6.
  split; [rewrite G3; apply Hclr; unfold OCIE2A; lia |].
  split; [exact G4 |].
  split; [apply W7; exact I1 |].
  split; [rewrite W3; exact I2 |].
  split; [rewrite W4; exact I3 |].
  split; [rewrite W5, I4; apply Hset; exact Htoie |].
  split; [rewrite W6; exact I5 |].
  split; [rewrite G2, W9; exact I8 |].
  split; [exact G5 |].
  split; [| split; [rewrite W2, I7; apply Hset; exact Hbit |]].
  - intros i Hi. split.
    + rewrite W1, I6, Z.lor_spec, Hi. apply orb_true_r.
    + rewrite G1, W8, I9, Z.lor_spec, Z.ldiff_spec, Hi. cbn.
      rewrite andb_false_r. reflexivity.
  - rewrite G6.
    destruct (bit_istrue (flags (settings (core b))) (BITFLAG_INVERT_ST_ENABLE cfg));
      destruct (negb (stepper_idle_lock_time (settings (core b)) =? 255)
                || bit_istrue (execute (sys (core b))) (EXEC_ALARM cfg));
      cbn [xorb].
    + rewrite Z.ldiff_spec, testbit_bit, Z.eqb_refl by exact Hbit. apply andb_false_r.
    + apply Hset. exact Hbit.
    + apply Hset. exact Hbit.
    + apply Hclr. exact Hbit.
Qed.

Lemma st_init_leaves_idle_witness :
  let b := demo_board demo_power_on in
  let b' := st_init demo_cfg demo_cycle b in
  Z.testbit (TIMSK2 (avr (core b'))) OCIE2A = false /\
  TCCR2B (avr (core b')) = 0 /\
  TCNT2 b' = 0 /\
  TCCR2A b' = bit (WGM21 demo_cycle) /\
  OCR2A b' = timer2_rate demo_cycle /\
  Z.testbit (TIMSK0 b') (TOIE0 demo_cycle) = true /\
  TCCR0A b' = 0 /\
  TCCR0B (avr (core b')) = 0 /\
  busy (core b') = false /\
  (forall i, Z.testbit (STEPPING_MASK demo_cycle) i = true ->
     Z.testbit (STEPPING_DDR b') i = true /\
     Z.testbit (STEPPING_PORT (avr (core b'))) i =
       Z.testbit (invert_mask (settings (core b))) i) /\
  Z.testbit (STEPPERS_DISABLE_DDR b') (STEPPERS_DISABLE_BIT demo_cfg) = true /\
  Z.testbit (STEPPERS_DISABLE_PORT (avr (core b'))) (STEPPERS_DISABLE_BIT demo_cfg) =
    xorb (bit_istrue (flags (settings (core b))) (BITFLAG_INVERT_ST_ENABLE demo_cfg))
         (negb (stepper_idle_lock_time (settings (core b)) =? 255)
          || bit_istrue (execute (sys (core b))) (EXEC_ALARM demo_cfg)).
Proof.
  apply (st_init_leaves_idle demo_cfg demo_cycle (demo_board demo_power_on)); cbn; lia.
Defined.

(** X16. [st_cycle_start] starts a cycle once.  From the queued state it
    puts the system in the cycle state and wakes the driver: the tick
    interrupt enabled and Timer2 running from zero, [load_flag] at
    [LOAD_BLOCK], no step latched and [out_bits] at rest, while the Bresenham
    counters, the steps remaining of the segment, the ring and the positions
    stay as they are.  From any other state it does nothing, so a second
    call changes nothing after the first. *)
Theorem st_cycle_start_once (cfg : config) (cyc : cycle_config) (b : board) :
  STATE_QUEUED cyc <> STATE_CYCLE cyc ->
  let b' := st_cycle_start cfg cyc b in
  st_cycle_start cfg cyc b' = b' /\
  (state (sys (core b)) <> STATE_QUEUED cyc -> b' = b) /\
  (state (sys (core b)) = STATE_QUEUED cyc ->
   state (sys (core b')) = STATE_CYCLE cyc /\
   Z.testbit (TIMSK2 (avr (core b'))) OCIE2A = true /\
   TCCR2B (avr (core b')) = bit CS21 /\
   TCNT2 b' = 0 /\
   load_flag (st (core b')) = LOAD_BLOCK /\
   execute_step (st (core b')) = false /\
   out_bits (st (core b')) = invert_mask (settings (core b)) /\
   (forall a, counter a (st (core b')) = counter a (st (core b)) /\
              position (sys (core b')) a = position (sys (core b)) a) /\
   segment_steps_remaining (st (core b')) = segment_steps_remaining (st (core b)) /\
   segment_buffer_tail (core b') = segment_buffer_tail (core b) /\
   segment_buffer_head (core b') = segment_buffer_head (core b) /\
   log (core b') = log (core b)).
Proof.
  intros Hne. cbv zeta.
  assert (Hstate : forall x, state (sys (core (st_wake_up cfg cyc x))) = state (sys (core x))).
  { intros x. destruct (st_wake_up_regs cfg cyc x) as (_ & _ & _ & _ & _ & _ & _ & _ & _ & _ & E & _).
    cbv zeta in E. rewrite E. reflexivity. }
  split; [| split].
  - unfold st_cycle_start at 2 3.
    destruct (Z.eqb_spec (state (sys (core b))) (STATE_QUEUED cyc)) as [E | N].
    + unfold st_cycle_start. rewrite Hstate.
      change (state (sys (core (with_core
                (fun m => set_sys (set_state (STATE_CYCLE cyc) (sys m)) m) b))))
        with (STATE_CYCLE cyc).
      rewrite (proj2 (Z.eqb_neq _ _)) by auto. reflexivity.
    + unfold st_cycle_start. rewrite (proj2 (Z.eqb_neq _ _) N). reflexivity.
  - intros N. unfold st_cycle_start. rewrite (proj2 (Z.eqb_neq _ _) N). reflexivity.
  - intros E. unfold st_cycle_start. rewrite E, Z.eqb_refl.
    set (b0 := with_core (fun m => set_sys (set_state (STATE_CYCLE cyc) (sys m)) m) b).
    assert (S0 : state (sys (core b0)) = STATE_CYCLE cyc) by reflexivity.
    assert (P0 : forall a, position (sys (core b0)) a = position (sys (core b)) a)
      by reflexivity.
    assert (T0 : st (core b0) = st (core b)) by reflexivity.
    assert (V0 : invert_mask (settings (core b0)) = invert_mask (settings (core b)))
      by reflexivity.
    assert (Q0 : segment_buffer_tail (core b0) = segment_buffer_tail (core b)) by reflexivity.
    assert (H0 : segment_buffer_head (core b0) = segment_buffer_head (core b)) by reflexivity.
    assert (L0 : log (core b0) = log (core b)) by reflexivity.
    clearbody b0.
    rewrite st_wake_up_cases, S0, Z.eqb_refl.
    pose proof (wake_enable_regs cfg b0) as HE. cbv zeta in HE.
    set (b1 := wake_enable cfg b0) in *. clearbody b1.
    destruct HE as (_ & _ & (E1 & E2 & E3 & E4 & E5 & E6) & _).
    pose proof (wake_cycle_regs cyc b1) as HC. cbv zeta in HC.
    set (b2 := wake_cycle cyc b1) in *. clearbody b2.
    destruct HC as ((_ & _ & C3 & _) & (_ & _ & Q3 & Q4 & _) &
                    (R1 & R2 & R3 & R4 & R5) & (F1 & F2 & F3 & F4 & F5 & F6)).
    split; [rewrite R2, E2; exact S0 |].
    split; [rewrite Q3, Z.lor_spec, testbit_bit, Z.eqb_refl by (unfold OCIE2A; lia);
            apply orb_true_r |].
    split; [exact Q4 |]. split; [exact C3 |]. split; [exact F1 |]. split; [exact F2 |].
    split; [rewrite F3, E1; exact V0 |].
    split; [intros a; split; [rewrite F6, E3, T0; reflexivity
                              | rewrite R2, E2; apply P0] |].
    split; [rewrite F5, E3, T0; reflexivity |].
    split; [rewrite R3, E4; exact Q0 |].
    split; [rewrite R4, E5; exact H0 | rewrite R5, E6; exact L0].
Qed.

Lemma st_cycle_start_once_witness :
  let b := demo_board (set_sys (set_state 2 (sys (fst (demo_state 5)))) (fst (demo_state 5))) in
  let b' := st_cycle_start demo_cfg demo_cycle b in
  st_cycle_start demo_cfg demo_cycle b' = b' /\
  (state (sys (core b)) <> STATE_QUEUED demo_cycle -> b' = b) /\
  (state (sys (core b)) = STATE_QUEUED demo_cycle ->
   state (sys (core b')) = STATE_CYCLE demo_cycle /\
   Z.testbit (TIMSK2 (avr (core b'))) OCIE2A = true /\
   TCCR2B (avr (core b')) = bit CS21 /\
   TCNT2 b' = 0 /\
   load_flag (st (core b')) = LOAD_BLOCK /\
   execute_step (st (core b')) = false /\
   out_bits (st (core b')) = invert_mask (settings (core b)) /\
   (forall a, counter a (st (core b')) = counter a (st (core b)) /\
              position (sys (core b')) a = position (sys (core b)) a) /\
   segment_steps_remaining (st (core b')) = segment_steps_remaining (st (core b)) /\
   segment_buffer_tail (core b') = segment_buffer_tail (core b) /\
   segment_buffer_head (core b') = segment_buffer_head (core b) /\
   log (core b') = log (core b)).
Proof.
  apply (st_cycle_start_once demo_cfg demo_cycle
           (demo_board (set_sys (set_state 2 (sys (fst (demo_state 5)))) (fst (demo_state 5))))).
  cbn. lia.
Defined.

(** X17. A feed hold takes the system out of the cycle state and no call of
    [st_cycle_start] brings it back.  In the cycle state [st_feed_hold] sets
    the hold state and clears [auto_start]; the positions, [sys.execute],
    every other variable and every register, and so the running tick
    interrupt, stay as they are; a second call does nothing, and neither
    does [st_cycle_start].  In any other state [st_feed_hold] does nothing.
    [st_cycle_reinitialize] sets the idle state and changes nothing else, and
    after it [st_cycle_start] does nothing either. *)
Theorem feed_hold_blocks_restart (cfg : config) (cyc : cycle_config) (b : board) :
  STATE_HOLD cyc <> STATE_CYCLE cyc ->
  STATE_HOLD cyc <> STATE_QUEUED cyc ->
  STATE_IDLE cyc <> STATE_QUEUED cyc ->
  let held := with_core (st_feed_hold cyc) b in
  let idle := with_core (st_cycle_reinitialize cyc) b in
  (state (sys (core b)) = STATE_CYCLE cyc ->
   sys (core held) =
     mk_system (STATE_HOLD cyc) (position (sys (core b))) (execute (sys (core b))) false /\
   set_sys (sys (core b)) (core held) = core b /\
   set_core (core b) held = b /\
   st_feed_hold cyc (core held) = core held /\
   st_cycle_start cfg cyc held = held) /\
  (state (sys (core b)) <> STATE_CYCLE cyc -> held = b) /\
  sys (core idle) =
    mk_system (STATE_IDLE cyc) (position (sys (core b))) (execute (sys (core b)))
      (auto_start (sys (core b))) /\
  set_sys (sys (core b)) (core idle) = core b /\
  set_core (core b) idle = b /\
  st_cycle_start cfg cyc idle = idle.
Proof.
  intros H1 H2 H3. cbv zeta. unfold with_core, st_feed_hold, st_cycle_reinitialize.
  split; [| split; [| split; [| split; [| split]]]].
  - intros E. rewrite E, Z.eqb_refl. cbn.
    split; [reflexivity |].
    split; [destruct b as [[] ? ? ? ? ? ? ?]; reflexivity |].
    split; [destruct b; reflexivity |].
    split.
    + rewrite (proj2 (Z.eqb_neq _ _) H1). reflexivity.
    + unfold st_cycle_start. cbn. rewrite (proj2 (Z.eqb_neq _ _) H2). reflexivity.
  - intros N. rewrite (proj2 (Z.eqb_neq _ _) N). destruct b; reflexivity.
  - reflexivity.
  - destruct b as [[] ? ? ? ? ? ? ?]; reflexivity.
  - destruct b; reflexivity.
  - unfold st_cycle_start. cbn. rewrite (proj2 (Z.eqb_neq _ _) H3). reflexivity.
Qed.

Lemma feed_hold_blocks_restart_witness :
  let b := demo_board (set_sys (set_state 3 (sys (fst (demo_state 12)))) (fst (demo_state 12))) in
  let held := with_core (st_feed_hold demo_cycle) b in
  let idle := with_core (st_cycle_reinitialize demo_cycle) b in
  (state (sys (core b)) = STATE_CYCLE demo_cycle ->
   sys (core held) =
     mk_system (STATE_HOLD demo_cycle) (position (sys (core b))) (execute (sys (core b)))
       false /\
   set_sys (sys (core b)) (core held) = core b /\
   set_core (core b) held = b /\
   st_feed_hold demo_cycle (core held) = core held /\
   st_cycle_start demo_cfg demo_cycle held = held) /\
  (state (sys (core b)) <> STATE_CYCLE demo_cycle -> held = b) /\
  sys (core idle) =
    mk_system (STATE_IDLE demo_cycle) (position (sys (core b))) (execute (sys (core b)))
      (auto_start (sys (core b))) /\
  set_sys (sys (core b)) (core idle) = core b /\
  set_core (core b) idle = b /\
  st_cycle_start demo_cfg demo_cycle idle = idle.
Proof.
  apply (feed_hold_blocks_restart demo_cfg demo_cycle
           (demo_board (set_sys (set_state 3 (sys (fst (demo_state 12))))
                          (fst (demo_state 12)))));
    cbn; lia.
Defined.

(** X18. [st_reset] is idempotent, and it resets less than the whole
    driver: the pointers [st_current_segment], [st_current_data] and
    [st_prep_data] keep their values, as do the contents of both rings, the
    positions and the rest of the system state, the registers and the
    planner. *)
Theorem st_reset_idempotent (m : machine) :
  st_reset (st_reset m) = st_reset m /\
  st_current_segment (st_reset m) = st_current_segment m /\
  st_current_data (st_reset m) = st_current_data m /\
  st_prep_data (st_reset m) = st_prep_data m /\
  segment_buffer (st_reset m) = segment_buffer m /\
  segment_data (st_reset m) = segment_data m /\
  sys (st_reset m) = sys m /\
  avr (st_reset m) = avr m /\
  planner (st_reset m) = planner m /\
  settings (st_reset m) = settings m /\
  log (st_reset m) = log m.
Proof.
  repeat split.
Qed.

(** * The driver within its cycle *)






(** * The cycle started again in the middle of a block *)

Lemma restart_block_ok : block_ok demo_cfg restart_block.
Proof.
  constructor.
  - cbn. lia.
  - intros []; cbn; lia.
  - intros []; reflexivity.
Qed.

Lemma restart_power_on_ok : power_on demo_cfg restart_power_on.
Proof.
  constructor; try reflexivity.
  - cbn. unfold BLOCK_BUFFER_SIZE. lia.
  - intros j Hj. cbn in Hj. exists restart_block. split; [| apply restart_block_ok].
    assert (E : j = 0) by lia. subst j. reflexivity.
  - intros a. unfold is_i32. cbn. lia.
Qed.

(** C1.  The claim fails where a cycle is started again in the middle of a
    block.  [restart_block] has four step events, four steps on X and two on
    Y, and is cut into a segment of three steps and one of one.  The
    interrupt runs the first segment, finds the ring empty, and idles the
    driver with [load_flag] at [LOAD_LINE], Y having had one of its two
    pulses.  [st_cycle_start] then calls [st_wake_up], which sets [load_flag]
    to [LOAD_BLOCK] (line 157), and the tick that loads the second segment
    sets the Bresenham counters anew (lines 243-254).  The block is consumed
    to its end and discarded once, with its four step events and four pulses
    on X, and Y has had one pulse for its two steps, the position of Y
    standing one step short.  The same block run through in one cycle gets
    both. *)
Theorem restart_loses_step :
  config_ok demo_cfg /\ power_on demo_cfg restart_power_on /\
  exists bu pcu b pc b' pc',
    cycle_run demo_cfg demo_cycle underrun_schedule restart_boot = Some (bu, pcu) /\
    cycle_run demo_cfg demo_cycle restart_schedule (bu, pcu) = Some (b, pc) /\
    cycle_run demo_cfg demo_cycle through_schedule restart_boot = Some (b', pc') /\
    (* at the underrun: between two segments of the block, the timer off *)
    load_flag (st (core bu)) = LOAD_LINE /\
    tick_enabled (core bu) = false /\
    block_buffer_tail (planner (core bu)) = 0 /\
    step_events (log (core bu)) = 3 /\
    pulses demo_cfg (invert_mask (settings restart_power_on)) X_AXIS (log (core bu)) = 3 /\
    pulses demo_cfg (invert_mask (settings restart_power_on)) Y_AXIS (log (core bu)) = 1 /\
    (* the block is fully consumed in both runs *)
    load_flag (st (core b)) = LOAD_BLOCK /\ load_flag (st (core b')) = LOAD_BLOCK /\
    discards (log (core b)) = 1 /\ discards (log (core b')) = 1 /\
    block_buffer_tail (planner (core b)) = 1 /\
    block_buffer_tail (planner (core b')) = 1 /\
    step_events (log (core b)) = step_event_count restart_block /\
    step_events (log (core b')) = step_event_count restart_block /\
    (forall a, latched demo_cfg a (core b) = 0 /\ latched demo_cfg a (core b') = 0) /\
    (* X and Z get their steps in both *)
    pulses demo_cfg (invert_mask (settings restart_power_on)) X_AXIS (log (core b)) = steps restart_block X_AXIS /\
    pulses demo_cfg (invert_mask (settings restart_power_on)) Z_AXIS (log (core b)) = steps restart_block Z_AXIS /\
    pulses demo_cfg (invert_mask (settings restart_power_on)) X_AXIS (log (core b')) = steps restart_block X_AXIS /\
    pulses demo_cfg (invert_mask (settings restart_power_on)) Z_AXIS (log (core b')) = steps restart_block Z_AXIS /\
    (* Y gets them in one cycle, and one short after the restart *)
    steps restart_block Y_AXIS = 2 /\
    pulses demo_cfg (invert_mask (settings restart_power_on)) Y_AXIS (log (core b')) = 2 /\
    pulses demo_cfg (invert_mask (settings restart_power_on)) Y_AXIS (log (core b)) = 1 /\
    position (sys (core b')) Y_AXIS = position (sys restart_power_on) Y_AXIS + 2 /\
    position (sys (core b)) Y_AXIS = position (sys restart_power_on) Y_AXIS + 1.
Proof.
  split; [exact demo_config_ok |]. split; [exact restart_power_on_ok |].
  eexists. eexists. eexists. eexists. eexists. eexists.
  split; [vm_compute; reflexivity |].
  split; [vm_compute; reflexivity |].
  split; [vm_compute; reflexivity |].
  repeat (split; [vm_compute; reflexivity |]).
  split; [intros []; split; vm_compute; reflexivity |].
  repeat (split; [vm_compute; reflexivity |]).
  vm_compute. reflexivity.
Qed.
